(** * Classification-and-tagging pipeline: a shallow embedding

    The development follows the Python sources
    - [app/services/tag_analyzer.py]   (class [TagAnalyzer]),
    - [app/services/file_processor.py] (class [FileProcessor]),
    - [app/services/vision_service.py] (class [VisionService]).

    Python [str] values are represented by their UTF-8 encoding as [string].
    Byte-wise lexicographic comparison of UTF-8 encodings coincides with
    Python's code-point comparison, and byte-wise prefix and substring tests
    on well-formed encodings coincide with [str.startswith] and [in].

    Dictionaries whose iteration order is never observed are [gmap]s, sets
    are [gset]s; dictionaries that are iterated with [.items()], such as
    [MIME_PREFIXES], are association lists in declaration order.

    Library functions whose result depends on the Unicode tables, on the
    interpreter or on the C library ([str.lower], [str.split], the iteration
    order of a set, [float.__pow__]) are parameters of the definitions that
    call them; the properties state what they need of them, and
    [Py.ascii_lower] and a correctly rounded square root are the instances
    used to compute.  Floats are binary64 floats.  Files, decoders and the remote vision
    service are given by the outcome, a value or an exception, of each
    operation on them.  Writing to the standard output is left out. *)

From Stdlib Require Import ZArith String Ascii List Bool Lia.
From Stdlib Require Import Floats Uint63.
From Stdlib Require Import Sorting.Sorted Sorting.Permutation.
From stdpp Require Import base option list gmap strings fin_maps.

Set Warnings "-inexact-float".

Local Open Scope string_scope.
Local Open Scope list_scope.

(** ** Python library functions used by the sources *)

Module Py.

(** [str.lower] restricted to ASCII: the bytes of ['A'..'Z'] gain 32, every
    other byte is kept.  On pure-ASCII text this is exactly [str.lower]. *)
Definition ascii_lower_char (c : ascii) : ascii :=
  let n := nat_of_ascii c in
  if (65 <=? n)%nat && (n <=? 90)%nat then ascii_of_nat (n + 32) else c.

Fixpoint ascii_lower (s : string) : string :=
  match s with
  | EmptyString => EmptyString
  | String c s' => String (ascii_lower_char c) (ascii_lower s')
  end.

(** [is_ascii s]: every byte is below 128 ([str.isascii]). *)
Fixpoint is_ascii (s : string) : bool :=
  match s with
  | EmptyString => true
  | String c s' => (nat_of_ascii c <? 128)%nat && is_ascii s'
  end.

(** [d.get(k, default)] *)
Definition dict_get {V} (d : gmap string V) (k : string) (dflt : V) : V :=
  match d !! k with
  | Some v => v
  | None => dflt
  end.

(** [l[:stop]] for an integer [stop]: a negative [stop] counts from the end
    and is clamped at the start of the list. *)
Definition slice_to {A} (stop : Z) (l : list A) : list A :=
  if (stop <? 0)%Z
  then take (Z.to_nat (Z.of_nat (length l) + stop)) l
  else take (Z.to_nat stop) l.

(** [l1.extend(l2)] returns the extended list. *)
Definition extend {A} (l1 l2 : list A) : list A := l1 ++ l2.

(** [sorted(l, key=..., reverse=True)], given the strict order [lt] on the
    elements induced by the keys.  Python's sort is stable, also with
    [reverse=True]: elements whose keys compare equal keep their input
    order.  A stable sort has a unique result, computed here by insertion:
    [x] goes after the elements that are strictly greater and before the
    first one that is not. *)
Section Sorted.
Context {A : Type} (lt : A -> A -> bool).

Fixpoint insert_desc (x : A) (l : list A) : list A :=
  match l with
  | [] => [x]
  | y :: l' => if lt x y then y :: insert_desc x l' else x :: y :: l'
  end.

Fixpoint sorted_reverse (l : list A) : list A :=
  match l with
  | [] => []
  | x :: l' => insert_desc x (sorted_reverse l')
  end.
End Sorted.

(** [sub in s] on strings. *)
Fixpoint contains (sub s : string) : bool :=
  String.prefix sub s
  || match s with
     | EmptyString => false
     | String _ s' => contains sub s'
     end.

(** [s.endswith(ext)] *)
Fixpoint endswith (s ext : string) : bool :=
  String.eqb s ext
  || match s with
     | EmptyString => false
     | String _ s' => endswith s' ext
     end.

(** [s.startswith(p)] *)
Definition startswith (s p : string) : bool := String.prefix p s.

(** [s.count(c)] for a one-character [c]. *)
Fixpoint count_char (c : ascii) (s : string) : nat :=
  match s with
  | EmptyString => 0
  | String d s' => (if Ascii.eqb c d then 1 else 0) + count_char c s'
  end.

(** [s.replace(a, b)] for one-character [a] and [b]. *)
Fixpoint replace_char (a b : ascii) (s : string) : string :=
  match s with
  | EmptyString => EmptyString
  | String d s' =>
      String (if Ascii.eqb a d then b else d) (replace_char a b s')
  end.

(** The first item of an insertion-ordered dictionary that satisfies [p],
    as found by a [for k, v in d.items()] loop that stops at the first
    hit. *)
Fixpoint first_item {K V} (p : K -> V -> bool) (items : list (K * V))
  : option (K * V) :=
  match items with
  | [] => None
  | (k, v) :: rest => if p k v then Some (k, v) else first_item p rest
  end.

(** An integer as a float (exact below [2^53]) and true division [a / b] of
    two such integers. *)
Definition float_of_int (z : Z) : float := PrimFloat.of_uint63 (Uint63.of_Z z).

Definition truediv (a b : Z) : float :=
  PrimFloat.div (float_of_int a) (float_of_int b).

(** The conversion of an integer of any size to a float, as [int ** float]
    performs it on its left operand: the nearest float, ties to even, and
    [None] for the [OverflowError] raised when that is beyond the largest
    float. *)
Definition float_of_long (z : Z) : option float :=
  let x := SF2Prim (binary_normalize prec emax z 0 false) in
  if PrimFloat.is_infinity x then None else Some x.

End Py.

(** ** [app/services/tag_analyzer.py] *)

Module TagAnalyzer.

Definition COMMON_TAGS_TO_REMOVE : gset string :=
  {[ "unknown"; "error"; "other"; "undefined" ]}.

Definition TAG_SYNONYMS : gmap string string :=
  list_to_map
    [ ("jpg", "jpeg"); ("jpeg", "jpeg"); ("png", "png"); ("gif", "gif");
      ("pic", "image"); ("picture", "image"); ("photo", "image");
      ("img", "image"); ("movie", "video"); ("clip", "video");
      ("sound", "audio"); ("music", "audio"); ("doc", "document");
      ("paper", "document"); ("file", "document"); ("code", "programming");
      ("script", "programming"); ("dev", "development");
      ("frontend", "front-end"); ("backend", "back-end") ].

Definition TAG_PRIORITY : gmap string Z :=
  list_to_map
    [ ("image", 10%Z); ("video", 10%Z); ("audio", 10%Z); ("document", 10%Z);
      ("code", 9%Z); ("programming", 9%Z); ("python", 8%Z);
      ("javascript", 8%Z); ("react", 8%Z); ("high-resolution", 7%Z);
      ("4k", 7%Z); ("hd", 7%Z); ("pdf", 6%Z); ("web", 5%Z);
      ("frontend", 5%Z); ("backend", 5%Z) ].

(** The sort key [(self.TAG_PRIORITY.get(t, 0), t)] and Python's tuple
    comparison [key t1 < key t2]. *)
Definition sort_key (t : string) : Z * string :=
  (Py.dict_get TAG_PRIORITY t 0%Z, t).

Definition key_ltb (k1 k2 : Z * string) : bool :=
  (fst k1 <? fst k2)%Z
  || ((fst k1 =? fst k2)%Z && String.ltb (snd k1) (snd k2)).

Definition tag_ltb (t1 t2 : string) : bool :=
  key_ltb (sort_key t1) (sort_key t2).

Section WithConfig.
(** [str.lower], and [self.max_tags] as set by [__init__] from
    [config.MAX_TAGS_PER_FILE = int(os.getenv(..., "15"))]. *)
Variable lower : string -> string.
Variable max_tags : Z.

Fixpoint normalize_tags (tags : list string) : list string :=
  match tags with
  | [] => []
  | tag :: rest =>
      let tag_lower := lower tag in
      let normalized_tag := Py.dict_get TAG_SYNONYMS tag_lower tag_lower in
      normalized_tag :: normalize_tags rest
  end.

(** The loop of [filter_tags], with the state [(seen, filtered)]. *)
Fixpoint filter_loop (tags : list string)
    (seen : gset string) (filtered : list string) : list string :=
  match tags with
  | [] => filtered
  | tag :: rest =>
      let tag_lower := lower tag in
      if bool_decide (tag_lower ∉ seen)
         && bool_decide (tag_lower ∉ COMMON_TAGS_TO_REMOVE)
      then filter_loop rest ({[ tag_lower ]} ∪ seen) (filtered ++ [tag_lower])
      else filter_loop rest seen filtered
  end.

Definition filter_tags (tags : list string) : list string :=
  filter_loop tags ∅ [].

Definition prioritize_tags (tags : list string) : list string :=
  let sorted_tags := Py.sorted_reverse tag_ltb tags in
  Py.slice_to max_tags sorted_tags.

Definition process_tags (raw_tags : list string) : list string :=
  let normalized := normalize_tags raw_tags in
  let filtered := filter_tags normalized in
  let final := prioritize_tags filtered in
  final.

(** [merge_tags]: the variadic arguments of the call are the list
    [tag_lists]. *)
Definition merge_tags (tag_lists : list (list string)) : list string :=
  let all_tags := fold_left Py.extend tag_lists [] in
  process_tags all_tags.

Definition add_custom_tags (existing_tags custom_tags : list string)
  : list string :=
  merge_tags [existing_tags; custom_tags].
End WithConfig.

End TagAnalyzer.

(** ** Exceptions and file accesses *)

Module Exc.

(** An instance of a subclass of Python's [Exception], as raised by a
    failing file, decoder or remote operation.  Interrupts, which are not
    instances of [Exception], are not modelled. *)
Inductive exn : Type := Exception (msg : string).

Inductive result (A : Type) : Type :=
| Ret (a : A)
| Raise (e : exn).
Arguments Ret {A} a.
Arguments Raise {A} e.

(** A computation threads the log of the paths it asked to open so far and
    either returns or raises. *)
Definition M (A : Type) : Type := list string -> result A * list string.

Definition ret {A} (a : A) : M A := fun log => (Ret a, log).

Definition bind {A B} (m : M A) (k : A -> M B) : M B :=
  fun log =>
    match m log with
    | (Ret a, log') => k a log'
    | (Raise e, log') => (Raise e, log')
    end.

(** [try: body / except Exception as e: handler e] *)
Definition try_except {A} (body : M A) (handler : exn -> M A) : M A :=
  fun log =>
    match body log with
    | (Ret a, log') => (Ret a, log')
    | (Raise e, log') => handler e log'
    end.

(** An operation whose outcome is [r] and that touches no file. *)
Definition lift {A} (r : result A) : M A := fun log => (r, log).

(** An operation that opens [path] and whose outcome is [r]. *)
Definition opening {A} (path : string) (r : result A) : M A :=
  fun log => (r, log ++ [path]).

Definition run {A} (m : M A) : result A * list string := m [].

End Exc.

Import Exc.

#[export] Instance M_ret : MRet M := @Exc.ret.
#[export] Instance M_bind : MBind M := fun A B k m => Exc.bind m k.


(** ** The files and the remote service, as seen by the analyzers *)

Module Env.

(** The value of [img.resize((1, 1)).getpixel((0, 0))]: an integer for
    single-band modes, a float for mode [F], a tuple of bands otherwise. *)
Inductive Pixel : Type :=
| PInt (v : Z)
| PFloat
| PTuple (bands : list Z).

(** What [Image.open] exposes of an image: [img.size], [img.format],
    [img.mode], and the outcome of decoding it down to one pixel. *)
Record ImageFile : Type := {
  size : Z * Z;
  format : option string;
  mode : string;
  resized_pixel : result Pixel
}.

Inductive Likelihood : Type :=
| UNKNOWN | VERY_UNLIKELY | UNLIKELY | POSSIBLE | LIKELY | VERY_LIKELY.

Definition name (l : Likelihood) : string :=
  match l with
  | UNKNOWN => "UNKNOWN"
  | VERY_UNLIKELY => "VERY_UNLIKELY"
  | UNLIKELY => "UNLIKELY"
  | POSSIBLE => "POSSIBLE"
  | LIKELY => "LIKELY"
  | VERY_LIKELY => "VERY_LIKELY"
  end.

Record SafeSearchAnnotation : Type := {
  adult : Likelihood;
  spoof : Likelihood;
  medical : Likelihood;
  violence : Likelihood;
  racy : Likelihood
}.

Record LabelAnnotation : Type := {
  description : string;
  score : float
}.

(** The remote client: each call on the bytes of an image returns its
    annotations or raises.  Colours are given as the triples
    [(int(color.red), int(color.green), int(color.blue))], text annotations
    by their [description]. *)
Record Client : Type := {
  label_detection : string -> result (list LabelAnnotation);
  image_properties : string -> result (list (Z * Z * Z));
  text_detection : string -> result (list string);
  safe_search_detection : string -> result SafeSearchAnnotation
}.

(** The file system: the outcome of each way of opening and reading a path.
    A PDF is the list of its pages, each with the outcome of
    [extract_text()]; a text file is the result of [read(10000)]. *)
Record World : Type := {
  Image_open : string -> result ImageFile;
  PdfReader_pages : string -> result (list (result string));
  read_text : string -> result string;
  read_bytes : string -> result string
}.

End Env.

Import Env.

(** ** [app/services/vision_service.py] *)

Module VisionService.

Definition COLOR_NAMES : list ((Z * Z * Z) * string) :=
  [ ((255, 0, 0)%Z, "red"); ((0, 255, 0)%Z, "green"); ((0, 0, 255)%Z, "blue");
    ((255, 255, 0)%Z, "yellow"); ((255, 165, 0)%Z, "orange");
    ((128, 0, 128)%Z, "purple"); ((255, 192, 203)%Z, "pink");
    ((0, 0, 0)%Z, "black"); ((255, 255, 255)%Z, "white");
    ((128, 128, 128)%Z, "gray") ].

Definition LABEL_CATEGORIES : list (string * list string) :=
  [ ("nature", ["sky"; "cloud"; "tree"; "flower"; "grass"; "mountain";
                "water"; "ocean"; "beach"]);
    ("urban", ["building"; "street"; "city"; "architecture"; "road"; "car";
               "vehicle"]);
    ("people", ["person"; "face"; "portrait"; "people"; "crowd"; "group"]);
    ("indoor", ["room"; "furniture"; "interior"; "home"; "office"; "kitchen"]);
    ("food", ["food"; "dish"; "meal"; "cuisine"; "dessert"; "drink";
              "restaurant"]);
    ("technology", ["computer"; "phone"; "screen"; "device"; "electronic";
                    "technology"]);
    ("animal", ["animal"; "pet"; "dog"; "cat"; "bird"; "wildlife"]);
    ("sport", ["sport"; "game"; "athlete"; "competition"; "exercise";
               "fitness"]) ].

(** The state left by [__init__]. *)
Record t : Type := {
  enabled : bool;
  client : option Client
}.

Definition is_available (self : t) : bool :=
  enabled self && bool_decide (is_Some (client self)).

(** [self.client.method(...)]: an attribute error when there is no client. *)
Definition call {A} (self : t) (method : Client -> result A) : M A :=
  match client self with
  | Some c => lift (method c)
  | None => lift (Raise (Exception "AttributeError"))
  end.

Definition _get_label_category (label : string) : option string :=
  match
    Py.first_item
      (fun _ keywords =>
         existsb (fun keyword => Py.contains keyword label) keywords)
      LABEL_CATEGORIES
  with
  | Some (category, _) => Some category
  | None => None
  end.

(** [sum((a - b) ** 2 for a, b in zip(rgb, known_rgb))], an exact
    integer. *)
Definition distance2 (rgb known_rgb : Z * Z * Z) : Z :=
  let '(r, g, b) := rgb in
  let '(r', g', b') := known_rgb in
  ((r - r') ^ 2 + (g - g') ^ 2 + (b - b') ^ 2)%Z.

Section WithRuntime.
(** [str.lower] and [config.MIN_TAG_CONFIDENCE]. *)
Variable lower : string -> string.
Variable MIN_TAG_CONFIDENCE : float.
(** [float.__pow__], which hands its operands to the [pow] of the C library.
    With a finite base that is not negative and the exponent [0.5], the only
    use made of it, it reports no error. *)
Variable pow : float -> float -> float.

(** [sum(...) ** 0.5]: the integer is converted to a float first. *)
Definition distance (rgb known_rgb : Z * Z * Z) : result float :=
  match Py.float_of_long (distance2 rgb known_rgb) with
  | Some x => Ret (pow x 0.5%float)
  | None => Raise (Exception "OverflowError")
  end.

(** The loop over [self.COLOR_NAMES.items()]. *)
Fixpoint closest_loop (rgb : Z * Z * Z) (items : list ((Z * Z * Z) * string))
    (min_distance : float) (closest_color : option string)
  : result (float * option string) :=
  match items with
  | [] => Ret (min_distance, closest_color)
  | (known_rgb, color_name) :: rest =>
      match distance rgb known_rgb with
      | Ret distance =>
          if PrimFloat.ltb distance min_distance
          then closest_loop rgb rest distance (Some color_name)
          else closest_loop rgb rest min_distance closest_color
      | Raise e => Raise e
      end
  end.

Definition _get_closest_color_name (rgb : Z * Z * Z)
  : result (option string) :=
  match closest_loop rgb COLOR_NAMES infinity None with
  | Ret (min_distance, closest_color) =>
      Ret (if PrimFloat.ltb min_distance 150%float then closest_color
           else None)
  | Raise e => Raise e
  end.

Fixpoint labels_loop (labels : list LabelAnnotation) (tags : list string)
  : list string :=
  match labels with
  | [] => tags
  | label :: rest =>
      if PrimFloat.leb MIN_TAG_CONFIDENCE (score label) then
        let tag := Py.replace_char " " "-" (lower (description label)) in
        let tags := tags ++ [tag] in
        let category := _get_label_category (lower (description label)) in
        match category with
        | Some c => labels_loop rest (tags ++ [c])
        | None => labels_loop rest tags
        end
      else labels_loop rest tags
  end.

Definition _analyze_labels (self : t) (image : string) : M (list string) :=
  try_except
    (response ← call self (fun c => label_detection c image);
     mret (labels_loop response []))
    (fun _ => mret []).

Fixpoint colors_loop (colors : list (Z * Z * Z)) (tags : list string)
  : result (list string) :=
  match colors with
  | [] => Ret tags
  | rgb :: rest =>
      match _get_closest_color_name rgb with
      | Ret (Some color_name) =>
          if bool_decide (color_name ∉ tags)
          then colors_loop rest (tags ++ [color_name])
          else colors_loop rest tags
      | Ret None => colors_loop rest tags
      | Raise e => Raise e
      end
  end.

Definition _analyze_colors (self : t) (image : string) : M (list string) :=
  try_except
    (response ← call self (fun c => image_properties c image);
     lift (colors_loop (take 3 response) []))
    (fun _ => mret []).

Definition doc_keywords : list (string * string) :=
  [ ("invoice", "invoice"); ("receipt", "receipt"); ("contract", "contract");
    ("certificate", "certificate"); ("diploma", "diploma") ].

Definition _analyze_text (self : t) (image : string) : M (list string) :=
  try_except
    (response ← call self (fun c => text_detection c image);
     match response with
     | [] => mret []
     | first :: _ =>
         let text := lower first in
         mret ("text-content"
               :: map snd
                    (List.filter (fun '(keyword, _) => Py.contains keyword text)
                       doc_keywords))
     end)
    (fun _ => mret []).

(** The table [level_map] of [_analyze_safe_search]; the function builds it
    and never looks anything up in it. *)
Definition level_map : list (string * option string) :=
  [ ("VERY_UNLIKELY", None); ("UNLIKELY", None); ("POSSIBLE", Some "flagged");
    ("LIKELY", Some "flagged"); ("VERY_LIKELY", Some "flagged") ].

Definition _analyze_safe_search (self : t) (image : string)
  : M (list string) :=
  try_except
    (safe ← call self (fun c => safe_search_detection c image);
     let tags := [] in
     if String.eqb (name (adult safe)) "VERY_UNLIKELY"
        && String.eqb (name (violence safe)) "VERY_UNLIKELY"
     then mret (tags ++ ["professional"] ++ ["safe-content"])
     else mret tags)
    (fun _ => mret []).

Definition analyze_image (w : World) (self : t) (image_path : string)
  : M (list string) :=
  if negb (is_available self) then mret []
  else
    try_except
      (content ← opening image_path (read_bytes w image_path);
       let image := content in
       let tags := [] in
       labels ← _analyze_labels self image;
       let tags := tags ++ labels in
       colors ← _analyze_colors self image;
       let tags := tags ++ colors in
       text ← _analyze_text self image;
       let tags := tags ++ text in
       safe ← _analyze_safe_search self image;
       let tags := tags ++ safe in
       mret tags)
      (fun _ => mret []).

End WithRuntime.

End VisionService.

(** ** [app/services/file_processor.py] *)

Module FileProcessor.

Definition MIME_PREFIXES : list (string * string) :=
  [ ("image/", "image"); ("video/", "video"); ("audio/", "audio");
    ("text/", "text") ].

Definition MIME_EXACT : gmap string string :=
  list_to_map
    [ ("application/pdf", "document");
      ("application/msword", "document");
      ("application/vnd.openxmlformats-officedocument.wordprocessingml.document",
       "document");
      ("application/vnd.ms-excel", "spreadsheet");
      ("application/vnd.openxmlformats-officedocument.spreadsheetml.sheet",
       "spreadsheet");
      ("application/zip", "archive");
      ("application/x-rar-compressed", "archive");
      ("application/x-7z-compressed", "archive") ].

Definition PDF_KEYWORDS : list (string * list string) :=
  [ ("invoice", ["invoice"; "fatura"; "pagamento"; "total"]);
    ("financial", ["financial"; "financeiro"; "contabilidade"]);
    ("contract", ["contract"; "contrato"; "acordo"]);
    ("legal", ["legal"; "juridico"; "tribunal"]);
    ("proposal", ["proposal"; "proposta"; "orçamento"]);
    ("budget", ["budget"; "orçamento"; "custo"]);
    ("report", ["report"; "relatório"; "análise"]);
    ("presentation", ["presentation"; "apresentação"; "slide"]) ].

(** The loop over [self.MIME_PREFIXES.items()]. *)
Definition scan_prefixes (prefixes : list (string * string))
    (mime_type : string) : option string :=
  match Py.first_item (fun prefix _ => Py.startswith mime_type prefix) prefixes
  with
  | Some (_, category) => Some category
  | None => None
  end.

Definition get_file_category (mime_type : string) : string :=
  match MIME_EXACT !! mime_type with
  | Some category => category
  | None =>
      match scan_prefixes MIME_PREFIXES mime_type with
      | Some category => category
      | None => "other"
      end
  end.

(** The state left by [__init__] that the analyzers use. *)
Record t : Type := {
  vision_service : VisionService.t
}.

(** One entry of [TEXT_ANALYSIS_MAP]; [check] is [None] or a function of the
    content. *)
Record text_rule : Type := {
  exts : list string;
  rule_tags : list string;
  check : option (string -> list string)
}.

Definition LF : ascii := ascii_of_nat 10.

Section WithRuntime.
(** [str.lower], [str.split] without argument, the order in which a set of
    strings is iterated by [list(...)], and [config.MIN_TAG_CONFIDENCE]. *)
Variable lower : string -> string.
Variable split : string -> list string.
Variable list_of_set : gset string -> list string.
Variable MIN_TAG_CONFIDENCE : float.
(** [float.__pow__], used by the vision service. *)
Variable pow : float -> float -> float.
(** The file system. *)
Variable w : World.

Definition TEXT_ANALYSIS_MAP : list text_rule :=
  [ {| exts := [".py"; ".python"];
       rule_tags := ["code"; "python"; "programming"];
       check := Some (fun c =>
         if Py.contains "import" c && Py.contains "def" c
         then ["script"] else []) |};
    {| exts := [".js"; ".jsx"; ".ts"; ".tsx"];
       rule_tags := ["code"; "javascript"; "programming"];
       check := Some (fun c =>
         (if Py.contains "function" c || Py.contains "const" c
          then ["script"] else [])
         ++ (if Py.contains "react" (lower c)
                || Py.contains "component" (lower c)
             then ["react"; "frontend"] else [])) |};
    {| exts := [".html"; ".htm"];
       rule_tags := ["code"; "html"; "web"; "markup"];
       check := Some (fun c =>
         if Py.contains "<html" (lower c) then ["webpage"] else []) |};
    {| exts := [".css"];
       rule_tags := ["code"; "css"; "stylesheet"; "design"];
       check := None |};
    {| exts := [".java"];
       rule_tags := ["code"; "java"; "programming"];
       check := Some (fun c =>
         if Py.contains "class" c && Py.contains "public" c
         then ["oop"] else []) |};
    {| exts := [".cpp"; ".c"; ".h"; ".hpp"];
       rule_tags := ["code"; "c++"; "c"; "programming"];
       check := Some (fun c =>
         if Py.contains "#include" c then ["native"] else []) |};
    {| exts := [".php"];
       rule_tags := ["code"; "php"; "backend"; "web"];
       check := None |};
    {| exts := [".sql"];
       rule_tags := ["code"; "sql"; "database"; "query"];
       check := None |};
    {| exts := [".json"];
       rule_tags := ["data"; "json"; "config"];
       check := None |};
    {| exts := [".md"; ".markdown"];
       rule_tags := ["markdown"; "documentation"; "readme"];
       check := None |};
    {| exts := [".csv"];
       rule_tags := ["csv"; "data"; "spreadsheet"];
       check := None |} ].

(** [_analyze_dominant_color(img, tags)]: returns the list [tags] as the call
    leaves it.  The bare [except: pass] swallows every failure. *)
Definition _analyze_dominant_color (img : ImageFile) (tags : list string)
  : M (list string) :=
  try_except
    (color ← lift (resized_pixel img);
     match color with
     | PInt _ => mret tags
     | PFloat => lift (Raise (Exception "TypeError"))
     | PTuple bands =>
         match bands with
         | r :: g :: b :: _ =>
             if (200 <? r)%Z && (g <? 100)%Z && (b <? 100)%Z
             then mret (tags ++ ["red"])
             else if (r <? 100)%Z && (200 <? g)%Z && (b <? 100)%Z
             then mret (tags ++ ["green"])
             else if (r <? 100)%Z && (g <? 100)%Z && (200 <? b)%Z
             then mret (tags ++ ["blue"])
             else if (200 <? r)%Z && (200 <? g)%Z && (200 <? b)%Z
             then mret (tags ++ ["bright"])
             else if (r <? 50)%Z && (g <? 50)%Z && (b <? 50)%Z
             then mret (tags ++ ["dark"])
             else mret tags
         | _ => lift (Raise (Exception "IndexError"))
         end
     end)
    (fun _ => mret tags).

Definition mode_map : gmap string (list string) :=
  list_to_map
    [ ("RGB", ["color"]); ("L", ["grayscale"; "black-white"]);
      ("LA", ["grayscale"; "black-white"]); ("RGBA", ["color"; "transparent"]) ].

(** The [with Image.open(file_path) as img:] block of [analyze_image_local]:
    the local analysis, up to the point where the vision service is
    consulted. *)
Definition image_local_block (file_path : string) : M (list string) :=
  img ← opening file_path (Image_open w file_path);
  let '(width, height) := size img in
  let tags := ["image"] in
  let tags :=
    match format img with
    | Some f => if String.eqb f "" then tags else tags ++ [lower f]
    | None => tags
    end in
  let ratio :=
    if (0 <? height)%Z then Py.truediv width height else 1%float in
  let tags :=
    if PrimFloat.leb 0.9%float ratio && PrimFloat.leb ratio 1.1%float
    then tags ++ ["square"; "balanced"]
    else if PrimFloat.ltb 1.5%float ratio
    then tags ++ ["landscape"; "wide"]
    else if PrimFloat.ltb ratio 0.7%float
    then tags ++ ["portrait"; "vertical"]
    else tags in
  let pixels := (width * height)%Z in
  let tags :=
    if (8294400 <=? pixels)%Z then tags ++ ["4k"; "ultra-hd"]
    else if (2073600 <=? pixels)%Z then tags ++ ["high resolution"; "hd"]
    else if (480000 <=? pixels)%Z then tags ++ ["low resolution"; "sd"]
    else tags in
  let tags := tags ++ Py.dict_get mode_map (mode img) [] in
  _analyze_dominant_color img tags.

Definition analyze_image_local (self : t) (file_path : string)
  : M (list string) :=
  try_except
    (tags ← image_local_block file_path;
     if VisionService.is_available (vision_service self) then
       vision_tags ← VisionService.analyze_image lower MIN_TAG_CONFIDENCE pow
                       w (vision_service self) file_path;
       match vision_tags with
       | [] => mret tags
       | _ => mret (tags ++ vision_tags)
       end
     else mret tags)
    (fun _ => mret ["image"; "unknown"]).

(** [[p.extract_text() for p in pages]] *)
Fixpoint extract_texts (pages : list (result string)) : M (list string) :=
  match pages with
  | [] => mret []
  | p :: rest =>
      text ← lift p;
      texts ← extract_texts rest;
      mret (text :: texts)
  end.

Definition analyze_pdf (self : t) (file_path : string) : M (list string) :=
  try_except
    (pages ← opening file_path (PdfReader_pages w file_path);
     let num_pages := Z.of_nat (length pages) in
     let tags := ["pdf"; "document"] in
     let tags :=
       if (num_pages <=? 3)%Z then tags ++ ["single-page"; "flyer"]
       else if (num_pages <=? 5)%Z then tags ++ ["short-document"; "brief"]
       else if (num_pages <=? 20)%Z then tags ++ ["medium-document"; "report"]
       else tags ++ ["long-document"; "book"; "manual"] in
     texts ← extract_texts (take 3 pages);
     let text_sample := lower (String.concat "" texts) in
     if String.eqb text_sample "" then mret tags
     else
       let tags :=
         if (1000 <? length (split text_sample))%nat
         then tags ++ ["text-heavy"] else tags in
       let found_categories : gset string :=
         list_to_set
           (map fst
              (List.filter
                 (fun '(_, keywords) =>
                    existsb (fun k => Py.contains k text_sample) keywords)
                 PDF_KEYWORDS)) in
       mret (tags ++ list_of_set found_categories))
    (fun _ => mret ["pdf"; "document"; "error"]).

Definition analyze_text (self : t) (file_path : string) : M (list string) :=
  try_except
    (let file_lower := lower file_path in
     let tags := ["text"] in
     content ← opening file_path (read_text w file_path);
     let tags :=
       match
         find (fun config =>
                 existsb (fun ext => Py.endswith file_lower ext) (exts config))
           TEXT_ANALYSIS_MAP
       with
       | Some config =>
           let tags := tags ++ rule_tags config in
           match check config with
           | Some f => tags ++ f content
           | None => tags
           end
       | None => tags
       end in
     if (100 <? Py.count_char LF content)%nat
     then mret (tags ++ ["large-file"])
     else mret tags)
    (fun _ => mret ["text"; "error"]).

Definition _analyze_media_ext (file_path base_tag : string)
    (mapping : list (string * list string)) : M (list string) :=
  let tags := [base_tag; "media"] in
  let file_lower := lower file_path in
  match Py.first_item (fun ext _ => Py.endswith file_lower ext) mapping with
  | Some (_, extras) => mret (tags ++ extras)
  | None => mret tags
  end.

Definition analyze_video (self : t) (file_path : string) : M (list string) :=
  let ext_map :=
    [ (".mp4", ["mp4"; "h264"]); (".avi", ["avi"]);
      (".mov", ["mov"; "quicktime"]); (".mkv", ["mkv"; "matroska"]);
      (".webm", ["webm"; "vp9"]) ] in
  _analyze_media_ext file_path "video" ext_map.

Definition analyze_audio (self : t) (file_path : string) : M (list string) :=
  let ext_map :=
    [ (".mp3", ["mp3"; "mpeg"]); (".wav", ["wav"; "lossless"]);
      (".flac", ["flac"; "lossless"; "high-quality"]);
      (".ogg", ["ogg"; "vorbis"]); (".m4a", ["m4a"; "aac"]) ] in
  _analyze_media_ext file_path "audio" ext_map.

Definition analyze_file (self : t) (file_path mime_type : string)
  : M (list string) :=
  let category := get_file_category mime_type in
  let analyzer_map : gmap string (string -> M (list string)) :=
    list_to_map
      [ ("image", analyze_image_local self); ("document", analyze_pdf self);
        ("text", analyze_text self); ("video", analyze_video self);
        ("audio", analyze_audio self) ] in
  let analyzer := analyzer_map !! category in
  match analyzer with
  | Some f => f file_path
  | None => mret [category]
  end.

End WithRuntime.

End FileProcessor.

(** ** Further Python library functions *)

Module PyMore.

(** [len(s)]: the number of code points, that is, of the bytes of the UTF-8
    encoding that are not continuation bytes [10xxxxxx]. *)
Fixpoint len (s : string) : nat :=
  match s with
  | EmptyString => 0
  | String c s' =>
      let n := nat_of_ascii c in
      (if (128 <=? n)%nat && (n <? 192)%nat then 0 else 1) + len s'
  end.

(** [s.rsplit(c, 1)[1]] for a one-character [c]: what follows the last
    occurrence of [c]; [None] when [c] does not occur and the index is out
    of range. *)
Fixpoint after_last (c : ascii) (s : string) : option string :=
  match s with
  | EmptyString => None
  | String d s' =>
      match after_last c s' with
      | Some r => Some r
      | None => if Ascii.eqb c d then Some s' else None
      end
  end.

(** An insertion-ordered dictionary with string keys: [d.get(k)], and
    [d[k] = v], which keeps the position of a key that is present and
    appends a new key. *)
Fixpoint od_get {V} (d : list (string * V)) (k : string) : option V :=
  match d with
  | [] => None
  | (k', v) :: d' => if String.eqb k k' then Some v else od_get d' k
  end.

Fixpoint od_set {V} (d : list (string * V)) (k : string) (v : V)
  : list (string * V) :=
  match d with
  | [] => [(k, v)]
  | (k', v') :: d' =>
      if String.eqb k k' then (k', v) :: d' else (k', v') :: od_set d' k v
  end.

(** [d[k] = d.get(k, 0) + 1] *)
Definition od_incr (d : list (string * Z)) (k : string) : list (string * Z) :=
  od_set d k (match od_get d k with Some n => n | None => 0 end + 1)%Z.

End PyMore.

(** ** [app/services/tag_analyzer.py], the queries *)

Module TagQueries.

Section WithLower.
Variable lower : string -> string.

Definition search_by_tags (search_tags file_tags : list string) : bool :=
  let search_lower : gset string := list_to_set (map lower search_tags) in
  let file_lower : gset string := list_to_set (map lower file_tags) in
  bool_decide (search_lower ∩ file_lower ≠ ∅).

(** The inner loop of [get_tag_statistics], over the tags of one file. *)
Fixpoint count_file_tags (file_tags : list string)
    (tag_count : list (string * Z)) : list (string * Z) :=
  match file_tags with
  | [] => tag_count
  | tag :: rest =>
      let tag_lower := lower tag in
      count_file_tags rest (PyMore.od_incr tag_count tag_lower)
  end.

(** The outer loop, over the files. *)
Fixpoint count_all_tags (all_files_tags : list (list string))
    (tag_count : list (string * Z)) : list (string * Z) :=
  match all_files_tags with
  | [] => tag_count
  | file_tags :: rest =>
      count_all_tags rest (count_file_tags file_tags tag_count)
  end.

(** The comparison of two items by [key=lambda item: item[1]]. *)
Definition count_ltb (item1 item2 : string * Z) : bool :=
  (snd item1 <? snd item2)%Z.

Definition get_tag_statistics (all_files_tags : list (list string))
  : list (string * Z) :=
  let tag_count := count_all_tags all_files_tags [] in
  let sorted_stats := Py.sorted_reverse count_ltb tag_count in
  sorted_stats.

End WithLower.

End TagQueries.

(** ** [app/utils/validators.py] *)

Module FileValidator.

Definition ALLOWED_EXTENSIONS : list (string * gset string) :=
  [ ("image", {[ ".jpg"; ".jpeg"; ".png"; ".gif"; ".bmp"; ".webp"; ".svg" ]});
    ("document", {[ ".pdf"; ".doc"; ".docx"; ".txt"; ".odt" ]});
    ("spreadsheet", {[ ".xls"; ".xlsx"; ".csv"; ".ods" ]});
    ("video", {[ ".mp4"; ".avi"; ".mov"; ".mkv"; ".webm"; ".flv" ]});
    ("audio", {[ ".mp3"; ".wav"; ".ogg"; ".flac"; ".m4a"; ".aac" ]});
    ("archive", {[ ".zip"; ".rar"; ".7z"; ".tar"; ".gz" ]});
    ("code", {[ ".py"; ".js"; ".jsx"; ".ts"; ".tsx"; ".html"; ".css";
                ".java"; ".cpp"; ".c"; ".h"; ".php"; ".rb"; ".go";
                ".rs"; ".swift"; ".kt"; ".sql"; ".sh"; ".json"; ".xml";
                ".yml"; ".yaml" ]}) ].

Definition ALL_ALLOWED_EXTENSIONS : gset string :=
  ⋃ (map snd ALLOWED_EXTENSIONS).

Definition DANGEROUS_MIME_TYPES : gset string :=
  {[ "application/x-msdownload"; "application/x-msdos-program";
     "application/x-executable"; "application/x-sh"; "application/x-bat" ]}.

(** [config.MAX_FILE_SIZE] *)
Definition MAX_FILE_SIZE : Z := (50 * 1024 * 1024)%Z.

(** An uploaded file, as far as the validators use it: its name, the number
    of bytes of its stream and the position of the stream. *)
Record upload : Type := {
  filename : string;
  stream_size : Z;
  position : Z
}.

(** The backslash and the double quote are given by their codes. *)
Definition forbidden_chars : list string :=
  [ "/"; String (ascii_of_nat 92) EmptyString; "<"; ">"; ":";
    String (ascii_of_nat 34) EmptyString; "|"; "?"; "*" ].

Section WithRuntime.
(** [str.lower] and [str.strip]. *)
Variable lower : string -> string.
Variable strip : string -> string.

Definition is_allowed_extension (filename : string) : bool :=
  if negb (Py.contains "." filename) then false
  else
    match PyMore.after_last "." filename with
    | Some part =>
        let ext := lower part in
        bool_decide (("." ++ ext)%string ∈ ALL_ALLOWED_EXTENSIONS)
    | None => false
    end.

(** [is_allowed_size(file)] returns its answer and leaves the stream
    rewound: [seek(0, 2)], [tell()], [seek(0)]. *)
Definition is_allowed_size (file : upload) : bool * upload :=
  let file := {| filename := filename file; stream_size := stream_size file;
                 position := stream_size file |} in
  let size := position file in
  let file := {| filename := filename file; stream_size := stream_size file;
                 position := 0%Z |} in
  ((size <=? MAX_FILE_SIZE)%Z, file).

Definition is_safe_mime_type (mime_type : string) : bool :=
  bool_decide (mime_type ∉ DANGEROUS_MIME_TYPES).

Definition validate_filename (filename : string) : bool * option string :=
  if String.eqb filename "" || String.eqb (strip filename) ""
  then (false, Some "Nome de arquivo vazio.")
  else if (255 <? PyMore.len filename)%nat
  then (false, Some "Nome de arquivo muito longo.")
  else if existsb (fun char => Py.contains char filename) forbidden_chars
  then (false, Some "Nome de arquivo contém caracteres inválidos.")
  else (true, None).

(** [validate_file(file)] returns its answer and the file as it leaves it.
    The last message formats [MAX_FILE_SIZE / (1024 * 1024)], the float
    [50.0]. *)
Definition validate_file (file : upload) : (bool * option string) * upload :=
  let '(is_valid, error) := validate_filename (filename file) in
  if negb is_valid then ((false, error), file)
  else if negb (is_allowed_extension (filename file))
  then ((false, Some "Extensão de arquivo não permitida."), file)
  else
    let '(allowed, file) := is_allowed_size file in
    if negb allowed
    then ((false, Some "Arquivo muito grande. Tamanho máximo: 50.0 MB."), file)
    else ((true, None), file).

End WithRuntime.

End FileValidator.

(** ** [app/database/storage_service.py], the queries *)

Module StorageService.

(** A row of [files_secondary]; the two timestamps are kept in the form
    [isoformat()] gives them. *)
Record FileModel : Type := {
  id : Z;
  filename : string;
  file_path : string;
  file_type : string;
  category : string;
  tags : list string;
  created_at : string;
  updated_at : string
}.

(** [_to_dict] copies the eight columns of a row; a row stands for its
    dictionary.  The functions below take the rows that
    [session.query(FileModel).all()] returns. *)
Section WithLower.
Variable lower : string -> string.

Definition get_files_by_tags (files : list FileModel) (search_tags : list string)
  : list FileModel :=
  let search_lower : gset string := list_to_set (map lower search_tags) in
  List.filter
    (fun f => existsb (fun tag => bool_decide (lower tag ∈ search_lower))
                (tags f))
    files.

(** [.filter(FileModel.category == category).all()] *)
Definition get_files_by_category (files : list FileModel) (cat : string)
  : list FileModel :=
  List.filter (fun f => String.eqb (category f) cat) files.

(** [.filter(FileModel.id == file_id).first()] *)
Definition get_file_by_id (files : list FileModel) (file_id : Z)
  : option FileModel :=
  find (fun f => (id f =? file_id)%Z) files.

(** The three results of [get_statistics]. *)
Record statistics : Type := {
  total_files : Z;
  categories : list (string * Z);
  top_tags : list (string * Z)
}.

Fixpoint count_categories (files : list FileModel)
    (categories : list (string * Z)) : list (string * Z) :=
  match files with
  | [] => categories
  | file :: rest =>
      let cat := category file in
      count_categories rest (PyMore.od_incr categories cat)
  end.

Fixpoint count_tags (files : list FileModel) (tag_count : list (string * Z))
  : list (string * Z) :=
  match files with
  | [] => tag_count
  | file :: rest =>
      count_tags rest (TagQueries.count_file_tags lower (tags file) tag_count)
  end.

Definition get_statistics (files : list FileModel) : statistics :=
  let total_files := Z.of_nat (length files) in
  let categories := count_categories files [] in
  let tag_count := count_tags files [] in
  let top_tags :=
    Py.slice_to 10 (Py.sorted_reverse TagQueries.count_ltb tag_count) in
  {| total_files := total_files;
     categories := categories;
     top_tags := top_tags |}.

End WithLower.

End StorageService.

(** ** [app/services/vision_service.py] and [file_processor.py], the rest *)

Module Batch.

Section WithRuntime.
Variable lower : string -> string.
Variable MIN_TAG_CONFIDENCE : float.
Variable pow : float -> float -> float.
Variable w : World.

(** The loop of [batch_analyze_images]. *)
Fixpoint batch_loop (self : VisionService.t) (image_paths : list string)
    (results : list (string * list string)) : M (list (string * list string)) :=
  match image_paths with
  | [] => mret results
  | path :: rest =>
      tags ← VisionService.analyze_image lower MIN_TAG_CONFIDENCE pow w self
               path;
      batch_loop self rest (PyMore.od_set results path tags)
  end.

Definition batch_analyze_images (self : VisionService.t)
    (image_paths : list string) : M (list (string * list string)) :=
  if negb (VisionService.is_available self) then mret []
  else batch_loop self image_paths [].

End WithRuntime.

(** [get_file_type], given [mimetypes.guess_type(filename)[0]]. *)
Definition get_file_type (guess_type : string -> option string)
    (filename : string) : string :=
  match guess_type filename with
  | Some mime_type =>
      if String.eqb mime_type "" then "application/octet-stram" else mime_type
  | None => "application/octet-stram"
  end.

End Batch.

(** * Vocabulary of the properties *)

Module Terms.

(** No element is smaller than its successor. *)
Definition descending {A} (lt : A -> A -> bool) : list A -> Prop :=
  Sorted (fun a b => lt a b = false).

(** [syn t] is the lookup performed by [normalize_tags]. *)
Definition syn (t : string) : string :=
  Py.dict_get TagAnalyzer.TAG_SYNONYMS t t.

(** A canonical tag is plain lower-case ASCII, is not empty, and is mapped
    to itself by the synonyms. *)
Definition canonical (v : string) : Prop :=
  Py.is_ascii v = true /\ Py.ascii_lower v = v /\ v <> "" /\ syn v = v.

(** The categories of the data model. *)
Definition Category : list string :=
  [ "image"; "video"; "audio"; "document"; "spreadsheet"; "archive"; "text";
    "code"; "other" ].

(** [returns m]: from every log, [m] returns a value; it never raises. *)
Definition returns {A} (m : M A) : Prop :=
  forall log, exists a log', m log = (Ret a, log').

(** The list that [_analyze_safe_search] is shown to return. *)
Definition safe_search_tags (self : VisionService.t) (image : string)
  : list string :=
  match VisionService.client self with
  | Some c =>
      match safe_search_detection c image with
      | Ret safe =>
          if String.eqb (name (adult safe)) "VERY_UNLIKELY"
             && String.eqb (name (violence safe)) "VERY_UNLIKELY"
          then ["professional"; "safe-content"] else []
      | Raise _ => []
      end
  | None => []
  end.

(** The PDF at [file_path] cannot be opened, or one of the pages that are
    sampled fails to give its text. *)
Definition pdf_failure (w : World) (file_path : string) : Prop :=
  (exists e, PdfReader_pages w file_path = Raise e)
  \/ (exists pages e,
        PdfReader_pages w file_path = Ret pages /\ (Raise e ∈ take 3 pages)).

(** The tags of the local image analysis: those of the [with] block of
    [analyze_image_local], or the fallback when the block raises. *)
Definition local_tags (lower : string -> string) (w : World)
    (file_path : string) : list string :=
  match fst (run (FileProcessor.image_local_block lower w file_path)) with
  | Ret tags => tags
  | Raise _ => ["image"; "unknown"]
  end.

(** [appended lower c w vs file_path aug]: [aug] is empty, or it is what the
    available augmenter [vs] returned for [file_path]. *)
Definition appended (lower : string -> string) (MIN_TAG_CONFIDENCE : float)
    (pow : float -> float -> float) (w : World) (vs : VisionService.t)
    (file_path : string) (aug : list string) : Prop :=
  aug = []
  \/ (VisionService.is_available vs = true
      /\ exists log,
           fst (VisionService.analyze_image lower MIN_TAG_CONFIDENCE pow w vs
                  file_path log) = Ret aug).

(** The tags that [analyze_image_local] computes from the header of an
    image: [image], the format, the aspect ratio, the resolution and the
    mode. *)
Definition format_tags (lower : string -> string) (img : ImageFile)
  : list string :=
  match format img with
  | Some f => if String.eqb f "" then [] else [lower f]
  | None => []
  end.

Definition ratio_tags (img : ImageFile) : list string :=
  let '(width, height) := size img in
  let ratio :=
    if (0 <? height)%Z then Py.truediv width height else 1%float in
  if PrimFloat.leb 0.9%float ratio && PrimFloat.leb ratio 1.1%float
  then ["square"; "balanced"]
  else if PrimFloat.ltb 1.5%float ratio then ["landscape"; "wide"]
  else if PrimFloat.ltb ratio 0.7%float then ["portrait"; "vertical"]
  else [].

Definition resolution_tags (pixels : Z) : list string :=
  if (8294400 <=? pixels)%Z then ["4k"; "ultra-hd"]
  else if (2073600 <=? pixels)%Z then ["high resolution"; "hd"]
  else if (480000 <=? pixels)%Z then ["low resolution"; "sd"]
  else [].

Definition header_tags (lower : string -> string) (img : ImageFile)
  : list string :=
  ["image"] ++ format_tags lower img ++ ratio_tags img
  ++ resolution_tags (fst (size img) * snd (size img))
  ++ Py.dict_get FileProcessor.mode_map (mode img) [].

(** The tags of the page-count tiers, as the claims word them. *)
Definition page_tier (num_pages : Z) : list string :=
  if (num_pages <=? 3)%Z then ["single-page"; "flyer"]
  else if (num_pages <=? 5)%Z then ["short-document"; "brief"]
  else if (num_pages <=? 20)%Z then ["medium-document"; "report"]
  else ["long-document"; "book"; "manual"].

End Terms.

(** * Sample files and services *)

Module Samples.

(** An image whose header can be read and whose pixel data cannot be
    decoded, and a file system in which every path is this image. *)
Definition truncated_jpeg : ImageFile :=
  {| size := (640, 640)%Z;
     format := Some "JPEG";
     mode := "RGB";
     resized_pixel := Raise (Exception "image file is truncated") |}.

Definition world_truncated_jpeg : World :=
  {| Image_open := fun _ => Ret truncated_jpeg;
     PdfReader_pages := fun _ => Raise (Exception "EOF marker not found");
     read_text := fun _ => Raise (Exception "FileNotFoundError");
     read_bytes := fun _ => Raise (Exception "FileNotFoundError") |}.

(** A file system in which every path is a PDF of [n] pages with the text
    [page] on each. *)
Definition world_pdf (n : nat) : World :=
  {| Image_open := fun _ => Raise (Exception "UnidentifiedImageError");
     PdfReader_pages := fun _ => Ret (replicate n (Ret "page"));
     read_text := fun _ => Raise (Exception "FileNotFoundError");
     read_bytes := fun _ => Raise (Exception "FileNotFoundError") |}.

(** A bright full-HD image with an alpha channel, and a file system in which
    every path is this image. *)
Definition bright_png : ImageFile :=
  {| size := (1920, 1080)%Z;
     format := Some "PNG";
     mode := "RGBA";
     resized_pixel := Ret (PTuple [250; 250; 250; 255]%Z) |}.

Definition world_png : World :=
  {| Image_open := fun _ => Ret bright_png;
     PdfReader_pages := fun _ => Raise (Exception "EOF marker not found");
     read_text := fun _ => Raise (Exception "UnicodeDecodeError");
     read_bytes := fun _ => Ret "PNG" |}.

(** A remote client that answers every image with one label, one colour,
    one text block and the given adult and violence ratings. *)
Definition client_answering (a v : Likelihood) : Client :=
  {| label_detection := fun _ =>
       Ret [ {| description := "Blue Sky"; score := 0.95%float |};
             {| description := "Haze"; score := 0.4%float |} ];
     image_properties := fun _ => Ret [ (250, 10, 10)%Z ];
     text_detection := fun _ => Ret [ "Invoice 42" ];
     safe_search_detection := fun _ =>
       Ret {| adult := a; spoof := UNKNOWN; medical := UNKNOWN;
              violence := v; racy := UNKNOWN |} |}.

Definition vision_answering (a v : Likelihood) : VisionService.t :=
  {| VisionService.enabled := true;
     VisionService.client := Some (client_answering a v) |}.

(** A file system in which every path is a short Python script. *)
Definition world_script : World :=
  {| Image_open := fun _ => Raise (Exception "UnidentifiedImageError");
     PdfReader_pages := fun _ => Raise (Exception "EOF marker not found");
     read_text := fun _ => Ret "import os
def main(): pass
";
     read_bytes := fun _ => Ret "import os" |}.

(** A [pow] that is correctly rounded at the exponent [0.5], the only one
    it is given. *)
Definition sqrt_pow (x y : float) : float := PrimFloat.sqrt x.

(** A service that was not enabled. *)
Definition unavailable : VisionService.t :=
  {| VisionService.enabled := false; VisionService.client := None |}.

Definition no_vision : FileProcessor.t :=
  {| FileProcessor.vision_service := unavailable |}.

End Samples.

(** * Vocabulary of the further properties *)

Module TermsMore.

(** The tally of a list of keys: one [d[k] = d.get(k, 0) + 1] per key. *)
Definition tally (keys : list string) (d : list (string * Z))
  : list (string * Z) :=
  fold_left PyMore.od_incr keys d.

(** How often [k] occurs in [keys]. *)
Definition occurrences (keys : list string) (k : string) : Z :=
  Z.of_nat (count_occ String.string_dec keys k).

(** The sum of the counts of a dictionary. *)
Definition total (d : list (string * Z)) : Z :=
  fold_right Z.add 0%Z (map snd d).

(** [d] is the tally of [keys]: its keys are distinct, it gives every key
    that occurs its number of occurrences and has no other key, and its
    counts add up to the number of keys. *)
Definition tally_of (d : list (string * Z)) (keys : list string) : Prop :=
  NoDup (map fst d)
  /\ (forall k,
        PyMore.od_get d k
        = if (occurrences keys k =? 0)%Z then None
          else Some (occurrences keys k))
  /\ total d = Z.of_nat (length keys).

(** The tags that a run of an analyzer returns; none when it raises. *)
Definition tags_of (r : result (list string) * list string) : list string :=
  match fst r with
  | Ret tags => tags
  | Raise _ => []
  end.

(** The channels of a colour as [int(color.red)], [int(color.green)] and
    [int(color.blue)] give them: from 0 to 255. *)
Definition channels (rgb : Z * Z * Z) : Prop :=
  let '(r, g, b) := rgb in
  (0 <= r <= 255)%Z /\ (0 <= g <= 255)%Z /\ (0 <= b <= 255)%Z.

(** [pow] is accurate at the exponent [0.5]: on the integers up to
    [3 * 255 ^ 2] it gives the correctly rounded square root or one of the
    two floats next to it, and the root of [22500] is exactly [150]. *)
Definition accurate (pow : float -> float -> float) : Prop :=
  (forall s x,
     (0 <= s <= 195075)%Z -> Py.float_of_long s = Some x ->
     pow x 0.5%float = PrimFloat.sqrt x
     \/ pow x 0.5%float = PrimFloat.next_down (PrimFloat.sqrt x)
     \/ pow x 0.5%float = PrimFloat.next_up (PrimFloat.sqrt x))
  /\ pow 22500%float 0.5%float = 150%float.

(** An integer that grows with the float: the order of the floats that are
    not [nan], read off their sign, exponent and mantissa. *)
Definition order_key (x : float) : option Z :=
  match Prim2SF x with
  | S754_zero _ => Some 0%Z
  | S754_infinity s =>
      Some (if s then (-1180591620717411303424)%Z
            else 1180591620717411303424%Z)
  | S754_nan => None
  | S754_finite s m e =>
      if ((Z.pos m <? 9007199254740992) && (-1100 <? e) && (e <? 1100))%Z
      then
        let k := ((e + 1100) * 9007199254740992 + Z.pos m)%Z in
        Some (if s then (- k)%Z else k)
      else None
  end.

(** The keys of the float below the rounded square root of [s], of that
    root, and of the float above it. *)
Definition bracket (s : Z) : option (Z * Z * Z) :=
  match Py.float_of_long s with
  | Some x =>
      let root := PrimFloat.sqrt x in
      match order_key (PrimFloat.next_down root), order_key root,
            order_key (PrimFloat.next_up root) with
      | Some lo, Some mid, Some hi => Some (lo, mid, hi)
      | _, _, _ => None
      end
  | None => None
  end.

(** The brackets of the [n] integers from [s] on are finite, lie above
    [below] and follow each other without overlap. *)
Fixpoint separated (n : nat) (s : Z) (below : Z) : bool :=
  match n with
  | O => true
  | S n' =>
      match bracket s with
      | Some (lo, mid, hi) =>
          ((below <? lo) && (lo <=? mid) && (mid <=? hi)
           && (hi <? 1180591620717411303424))%Z
          && separated n' (s + 1) hi
      | None => false
      end
  end.

(** What the loop of [_get_closest_color_name] holds after the items
    [seen]: nothing and an infinite distance before the first item, and
    afterwards the name and the distance of an item that no item seen is
    nearer than. *)
Definition nearest_so_far (pow : float -> float -> float) (rgb : Z * Z * Z)
    (seen : list ((Z * Z * Z) * string)) (min_distance : float)
    (closest_color : option string) : Prop :=
  match closest_color with
  | None => seen = [] /\ min_distance = infinity
  | Some name =>
      exists known x,
        ((known, name) ∈ seen)
        /\ Py.float_of_long (VisionService.distance2 rgb known) = Some x
        /\ min_distance = pow x 0.5%float
        /\ forall k n, (k, n) ∈ seen ->
             (VisionService.distance2 rgb known <= VisionService.distance2 rgb k)%Z
  end.
(** The label reaches the confidence threshold. *)
Definition confident (MIN_TAG_CONFIDENCE : float) (label : LabelAnnotation)
  : bool :=
  PrimFloat.leb MIN_TAG_CONFIDENCE (score label).

(** The tag of a label: its lower-cased description with hyphens for
    spaces. *)
Definition label_tag (lower : string -> string) (label : LabelAnnotation)
  : string :=
  Py.replace_char " " "-" (lower (description label)).

(** The single characters of a string. *)
Fixpoint chars (s : string) : list ascii :=
  match s with
  | EmptyString => []
  | String c s' => c :: chars s'
  end.

End TermsMore.

(** * Properties *)

(** ** Facts about the Python library functions *)

Module PyFacts.

Import Terms.

Lemma ascii_lower_char_idem (c : ascii) :
  Py.ascii_lower_char (Py.ascii_lower_char c) = Py.ascii_lower_char c.
Proof. destruct c as [[] [] [] [] [] [] [] []]; reflexivity. Qed.

Lemma ascii_lower_idem (s : string) :
  Py.ascii_lower (Py.ascii_lower s) = Py.ascii_lower s.
Proof.
  induction s as [|c s IH]; simpl; [reflexivity|].
  now rewrite ascii_lower_char_idem, IH.
Qed.

Lemma ascii_lower_nonempty (s : string) : Py.ascii_lower s = "" -> s = "".
Proof. destruct s; simpl; [reflexivity | discriminate]. Qed.

Lemma slice_to_nonneg {A} (stop : Z) (l : list A) :
  (0 <= stop)%Z -> Py.slice_to stop l = take (Z.to_nat stop) l.
Proof.
  intros Hstop. unfold Py.slice_to.
  destruct (Z.ltb_spec stop 0); [lia | reflexivity].
Qed.

Lemma slice_to_length {A} (stop : Z) (l : list A) :
  (0 <= stop)%Z -> (Z.of_nat (length (Py.slice_to stop l)) <= stop)%Z.
Proof.
  intros Hstop. rewrite slice_to_nonneg by assumption.
  rewrite length_take. lia.
Qed.

Lemma slice_to_short {A} (stop : Z) (l : list A) :
  (Z.of_nat (length l) <= stop)%Z -> Py.slice_to stop l = l.
Proof.
  intros Hlen. rewrite slice_to_nonneg by lia.
  apply take_ge. lia.
Qed.

Lemma slice_to_sublist {A} (stop : Z) (l : list A) :
  Py.slice_to stop l `sublist_of` l.
Proof. unfold Py.slice_to. destruct (_ <? _)%Z; apply sublist_take. Qed.

Section SortedReverse.
Context {A : Type} (lt : A -> A -> bool).
Hypothesis lt_asym : forall x y, lt x y = true -> lt y x = false.

Lemma insert_desc_perm (x : A) (l : list A) :
  Permutation (Py.insert_desc lt x l) (x :: l).
Proof.
  induction l as [|y l IH]; simpl; [reflexivity|].
  destruct (lt x y); [|reflexivity].
  rewrite IH. apply perm_swap.
Qed.

Lemma sorted_reverse_perm (l : list A) :
  Permutation (Py.sorted_reverse lt l) l.
Proof.
  induction l as [|x l IH]; simpl; [reflexivity|].
  rewrite insert_desc_perm. now constructor.
Qed.

Lemma insert_desc_hd (x y : A) (l : list A) :
  lt x y = true ->
  HdRel (fun a b => lt a b = false) y l ->
  HdRel (fun a b => lt a b = false) y (Py.insert_desc lt x l).
Proof.
  intros Hxy Hhd. destruct l as [|z l]; simpl.
  - constructor. now apply lt_asym.
  - destruct (lt x z).
    + constructor. now inversion Hhd.
    + constructor. now apply lt_asym.
Qed.

Lemma insert_desc_descending (x : A) (l : list A) :
  descending lt l -> descending lt (Py.insert_desc lt x l).
Proof.
  unfold descending. induction 1 as [|y l Hl IH Hhd]; simpl.
  - repeat constructor.
  - destruct (lt x y) eqn:Hxy.
    + constructor; [exact IH | now apply insert_desc_hd].
    + constructor; [now constructor | now constructor].
Qed.

Lemma sorted_reverse_descending (l : list A) :
  descending lt (Py.sorted_reverse lt l).
Proof.
  induction l as [|x l IH]; simpl; [constructor|].
  now apply insert_desc_descending.
Qed.

Lemma sorted_reverse_fixed (l : list A) :
  descending lt l -> Py.sorted_reverse lt l = l.
Proof.
  unfold descending. induction 1 as [|x l Hl IH Hhd]; simpl; [reflexivity|].
  rewrite IH. destruct Hhd as [|y l' Hxy]; simpl; [reflexivity|].
  now rewrite Hxy.
Qed.

Lemma take_descending (n : nat) (l : list A) :
  descending lt l -> descending lt (take n l).
Proof.
  unfold descending. intros Hl. revert n.
  induction Hl as [|x l Hl IH Hhd]; intros [|n]; simpl; try constructor.
  - apply IH.
  - destruct Hhd as [|y l' Hxy]; [destruct n; constructor|].
    destruct n; simpl; now constructor.
Qed.

End SortedReverse.

End PyFacts.

(** ** The tag normalizer and prioritizer *)

Module TagAnalyzerSpec.

Import TagAnalyzer Terms.

Lemma string_ltb_asym (s1 s2 : string) :
  String.ltb s1 s2 = true -> String.ltb s2 s1 = false.
Proof.
  unfold String.ltb. rewrite (String.compare_antisym s2 s1).
  destruct (String.compare s1 s2); simpl; congruence.
Qed.

Lemma key_ltb_asym (k1 k2 : Z * string) :
  key_ltb k1 k2 = true -> key_ltb k2 k1 = false.
Proof.
  unfold key_ltb. destruct k1 as [p1 s1], k2 as [p2 s2]; simpl.
  destruct (Z.ltb_spec p1 p2), (Z.ltb_spec p2 p1),
    (Z.eqb_spec p1 p2), (Z.eqb_spec p2 p1); simpl; try lia; try congruence.
  apply string_ltb_asym.
Qed.

Lemma tag_ltb_asym (t1 t2 : string) :
  tag_ltb t1 t2 = true -> tag_ltb t2 t1 = false.
Proof. apply key_ltb_asym. Qed.

Lemma TAG_SYNONYMS_canonical (k v : string) :
  TAG_SYNONYMS !! k = Some v -> canonical v.
Proof.
  intros Hk. apply elem_of_list_to_map_2 in Hk.
  repeat (apply elem_of_cons in Hk as [Hk|Hk];
          [injection Hk as -> ->; unfold canonical; vm_compute;
           repeat split; discriminate|]).
  now apply elem_of_nil in Hk.
Qed.

Section Pipeline.
Variable lower : string -> string.
Variable max_tags : Z.

Hypothesis lower_idem : forall s, lower (lower s) = lower s.
Hypothesis lower_ascii :
  forall s, Py.is_ascii s = true -> lower s = Py.ascii_lower s.
Hypothesis lower_nonempty : forall s, lower s = "" -> s = "".
Hypothesis max_tags_nonneg : (0 <= max_tags)%Z.

Lemma normalize_tags_map (tags : list string) :
  normalize_tags lower tags = map (fun tag => syn (lower tag)) tags.
Proof. induction tags as [|t tags IH]; simpl; [|rewrite IH]; reflexivity. Qed.

Lemma filter_loop_acc (tags : list string) (seen : gset string)
    (filtered : list string) :
  filter_loop lower tags seen filtered
  = filtered ++ filter_loop lower tags seen [].
Proof.
  revert seen filtered.
  induction tags as [|t tags IH]; intros seen filtered; simpl.
  - now rewrite app_nil_r.
  - destruct (_ && _).
    + rewrite (IH _ (filtered ++ _)), (IH _ [_]). now rewrite <- app_assoc.
    + apply IH.
Qed.

(** What [filter_tags] keeps: lower-cased input tags, neither seen before nor
    stop tags, each once. *)
Lemma filter_loop_elem (tags : list string) (seen : gset string) (t : string) :
  t ∈ filter_loop lower tags seen [] ->
  (t ∉ seen) /\ (t ∉ COMMON_TAGS_TO_REMOVE)
  /\ exists x, (x ∈ tags) /\ t = lower x.
Proof.
  revert seen. induction tags as [|x tags IH]; intros seen; simpl.
  - intros H. now apply elem_of_nil in H.
  - destruct (bool_decide (lower x ∉ seen)) eqn:Hseen;
      destruct (bool_decide (lower x ∉ COMMON_TAGS_TO_REMOVE)) eqn:Hstop;
      simpl.
    + rewrite filter_loop_acc. simpl. intros [->|Ht]%elem_of_cons.
      * apply bool_decide_eq_true in Hseen, Hstop.
        repeat split; try assumption. exists x. split; [left|reflexivity].
      * apply IH in Ht as (Hns & Hnstop & y & Hy & ->).
        repeat split; [|assumption|].
        { intros Hc. apply Hns, elem_of_union. now right. }
        exists y. split; [now right | reflexivity].
    + intros Ht. apply IH in Ht as (Hns & Hnstop & y & Hy & ->).
      repeat split; try assumption. exists y. split; [now right | reflexivity].
    + intros Ht. apply IH in Ht as (Hns & Hnstop & y & Hy & ->).
      repeat split; try assumption. exists y. split; [now right | reflexivity].
    + intros Ht. apply IH in Ht as (Hns & Hnstop & y & Hy & ->).
      repeat split; try assumption. exists y. split; [now right | reflexivity].
Qed.

Lemma filter_loop_NoDup (tags : list string) (seen : gset string) :
  NoDup (filter_loop lower tags seen []).
Proof.
  revert seen. induction tags as [|x tags IH]; intros seen; simpl.
  - constructor.
  - destruct (_ && _); [|apply IH].
    rewrite filter_loop_acc. simpl. constructor; [|apply IH].
    intros Hin. apply filter_loop_elem in Hin as (Hns & _).
    apply Hns, elem_of_union. left. now apply elem_of_singleton.
Qed.

(** [filter_tags] leaves a duplicate-free list of lower-case tags without
    stop tags as it is. *)
Lemma filter_loop_fixed (l : list string) (seen : gset string) :
  NoDup l ->
  (forall t, t ∈ l ->
     lower t = t /\ (t ∉ COMMON_TAGS_TO_REMOVE) /\ (t ∉ seen)) ->
  filter_loop lower l seen [] = l.
Proof.
  intros Hnd. revert seen.
  induction Hnd as [|x l Hx Hnd IH]; intros seen Hl; simpl; [reflexivity|].
  destruct (Hl x) as (Hlow & Hstop & Hseen); [left|].
  rewrite Hlow.
  rewrite (bool_decide_eq_true_2 _ Hseen), (bool_decide_eq_true_2 _ Hstop).
  simpl. rewrite filter_loop_acc. simpl. f_equal.
  apply IH. intros t Ht.
  destruct (Hl t) as (Hlow' & Hstop' & Hseen'); [now right|].
  repeat split; try assumption.
  intros [Heq%elem_of_singleton|Hin]%elem_of_union; [|contradiction].
  subst t. contradiction.
Qed.

(** Every processed tag went through [normalize_tags] and was lower-cased
    once more by [filter_tags]. *)
Lemma process_tags_elem (raw_tags : list string) (t : string) :
  t ∈ process_tags lower max_tags raw_tags ->
  (t ∉ COMMON_TAGS_TO_REMOVE)
  /\ exists x, (x ∈ raw_tags) /\ t = lower (syn (lower x)).
Proof.
  unfold process_tags, prioritize_tags, filter_tags. intros Ht.
  apply (fun H => elem_of_sublist _ _ _ H (PyFacts.slice_to_sublist _ _)) in Ht.
  rewrite (PyFacts.sorted_reverse_perm tag_ltb) in Ht.
  apply filter_loop_elem in Ht as (_ & Hstop & n & Hn & ->).
  split; [assumption|].
  rewrite normalize_tags_map in Hn.
  apply list_elem_of_fmap in Hn as (x & -> & Hx). now exists x.
Qed.

Lemma process_tags_NoDup (raw_tags : list string) :
  NoDup (process_tags lower max_tags raw_tags).
Proof.
  unfold process_tags, prioritize_tags, filter_tags.
  eapply sublist_NoDup; [|apply PyFacts.slice_to_sublist].
  rewrite (PyFacts.sorted_reverse_perm tag_ltb).
  apply filter_loop_NoDup.
Qed.

Lemma process_tags_descending (raw_tags : list string) :
  descending tag_ltb (process_tags lower max_tags raw_tags).
Proof.
  unfold process_tags, prioritize_tags.
  rewrite PyFacts.slice_to_nonneg by assumption.
  apply PyFacts.take_descending, PyFacts.sorted_reverse_descending.
  exact tag_ltb_asym.
Qed.

Lemma process_tags_lower (raw_tags : list string) (t : string) :
  t ∈ process_tags lower max_tags raw_tags -> lower t = t.
Proof.
  intros (_ & x & _ & ->)%process_tags_elem. apply lower_idem.
Qed.

Lemma process_tags_syn (raw_tags : list string) (t : string) :
  t ∈ process_tags lower max_tags raw_tags -> syn t = t.
Proof.
  intros (_ & x & _ & ->)%process_tags_elem.
  unfold syn, Py.dict_get.
  destruct (TAG_SYNONYMS !! lower x) as [v|] eqn:Hx.
  - destruct (TAG_SYNONYMS_canonical _ _ Hx) as (Hascii & Hlow & _ & Hv).
    rewrite (lower_ascii _ Hascii), Hlow. exact Hv.
  - now rewrite lower_idem, Hx.
Qed.

(** C1: the output of [process_tags] has at most [max_tags] entries (for a
    maximum that is not negative), contains no stop tag, and no two of its
    entries have equal lower-cased forms. *)
Theorem process_tags_bounded_clean (raw_tags : list string) :
  let final := process_tags lower max_tags raw_tags in
  (Z.of_nat (length final) <= max_tags)%Z
  /\ (forall t, t ∈ final -> t ∉ COMMON_TAGS_TO_REMOVE)
  /\ (forall i j t1 t2,
        final !! i = Some t1 -> final !! j = Some t2 ->
        lower t1 = lower t2 -> i = j).
Proof.
  intros final. repeat split.
  - apply PyFacts.slice_to_length. assumption.
  - intros t Ht. now apply process_tags_elem in Ht as [Hstop _].
  - intros i j t1 t2 Hi Hj Heq.
    rewrite (process_tags_lower raw_tags t1) in Heq
      by (eapply list_elem_of_lookup_2; exact Hi).
    rewrite (process_tags_lower raw_tags t2) in Heq
      by (eapply list_elem_of_lookup_2; exact Hj).
    subst t2. eapply NoDup_lookup; [apply process_tags_NoDup | exact Hi | exact Hj].
Qed.

(** C3: [process_tags] is idempotent.  The condition on the synonym map,
    that every canonical value is mapped to itself, holds of [TAG_SYNONYMS]
    by [TAG_SYNONYMS_canonical]. *)
Theorem process_tags_idempotent (x : list string) :
  process_tags lower max_tags (process_tags lower max_tags x)
  = process_tags lower max_tags x.
Proof.
  set (y := process_tags lower max_tags x).
  assert (Hnorm : normalize_tags lower y = y).
  { rewrite normalize_tags_map. rewrite <- (map_id y) at 2.
    apply map_ext_in. intros t Ht%list_elem_of_In.
    rewrite (process_tags_lower x t Ht). now apply (process_tags_syn x). }
  assert (Hfilter : filter_tags lower y = y).
  { apply filter_loop_fixed; [apply process_tags_NoDup|].
    intros t Ht. repeat split.
    - now apply (process_tags_lower x).
    - now apply process_tags_elem in Ht as [Hstop _].
    - apply not_elem_of_empty. }
  unfold process_tags at 1. fold y. rewrite Hnorm, Hfilter.
  unfold prioritize_tags.
  rewrite PyFacts.sorted_reverse_fixed by apply process_tags_descending.
  apply PyFacts.slice_to_short.
  subst y. unfold process_tags, prioritize_tags.
  apply PyFacts.slice_to_length. assumption.
Qed.

Lemma merge_tags_concat (tag_lists : list (list string)) :
  merge_tags lower max_tags tag_lists
  = process_tags lower max_tags (concat tag_lists).
Proof.
  unfold merge_tags. f_equal.
  change (concat tag_lists) with ([] ++ concat tag_lists).
  generalize (@nil string) as acc.
  induction tag_lists as [|l ls IH]; intros acc; simpl.
  - now rewrite app_nil_r.
  - rewrite IH. unfold Py.extend. now rewrite app_assoc.
Qed.

(** C4: [merge_tags(a, b)] is [process_tags] of the concatenation of [a]
    and [b], in this order. *)
Theorem merge_tags_process (a b : list string) :
  merge_tags lower max_tags [a; b] = process_tags lower max_tags (a ++ b).
Proof. rewrite merge_tags_concat. simpl. now rewrite app_nil_r. Qed.

(** C5, as amended: every tag of the output of [process_tags] is lower-case,
    and it is not empty when no input tag is the empty string. *)
Theorem process_tags_lowercase (raw_tags : list string) (t : string) :
  t ∈ process_tags lower max_tags raw_tags ->
  lower t = t /\ (("" ∉ raw_tags) -> t <> "").
Proof.
  intros Ht. split; [now apply (process_tags_lower raw_tags)|].
  intros Hraw Hempty.
  apply process_tags_elem in Ht as (_ & x & Hx & ->).
  apply lower_nonempty in Hempty. unfold syn, Py.dict_get in Hempty.
  destruct (TAG_SYNONYMS !! lower x) as [v|] eqn:Hv.
  - now destruct (TAG_SYNONYMS_canonical _ _ Hv) as (_ & _ & Hne & _).
  - apply lower_nonempty in Hempty. now subst x.
Qed.

End Pipeline.

(** C1 at the input of the scenario of the specification. *)
Lemma process_tags_bounded_clean_witness :
  let final :=
    process_tags Py.ascii_lower 15 ["JPG"; "image"; "Unknown"; "jpeg"] in
  (Z.of_nat (length final) <= 15)%Z
  /\ (forall t, t ∈ final -> t ∉ COMMON_TAGS_TO_REMOVE)
  /\ (forall i j t1 t2,
        final !! i = Some t1 -> final !! j = Some t2 ->
        Py.ascii_lower t1 = Py.ascii_lower t2 -> i = j).
Proof.
  apply (process_tags_bounded_clean Py.ascii_lower 15
           PyFacts.ascii_lower_idem).
  lia.
Defined.

Lemma process_tags_idempotent_witness :
  process_tags Py.ascii_lower 15
    (process_tags Py.ascii_lower 15 ["JPG"; "image"; "Unknown"; "jpeg"])
  = process_tags Py.ascii_lower 15 ["JPG"; "image"; "Unknown"; "jpeg"].
Proof.
  apply (process_tags_idempotent Py.ascii_lower 15 PyFacts.ascii_lower_idem
           (fun s _ => eq_refl)).
  lia.
Defined.

Lemma process_tags_lowercase_witness :
  Py.ascii_lower "jpeg" = "jpeg" /\ (("" ∉ ["JPG"; "image"]) -> "jpeg" <> "").
Proof.
  apply (process_tags_lowercase Py.ascii_lower 15 PyFacts.ascii_lower_idem
           PyFacts.ascii_lower_nonempty ["JPG"; "image"] "jpeg").
  vm_compute. apply list_elem_of_further, list_elem_of_here.
Defined.

(** C5 as stated fails: the empty tag passes through the pipeline. *)
Lemma process_tags_keeps_empty_tag :
  ~ (forall t, t ∈ process_tags Py.ascii_lower 15 [""] ->
       Py.ascii_lower t = t /\ t <> "").
Proof.
  intros H. destruct (H "") as [_ Hne]; [|now apply Hne].
  vm_compute. apply list_elem_of_here.
Qed.

Example process_tags_scenario :
  process_tags Py.ascii_lower 15 ["JPG"; "image"; "Unknown"; "jpeg"]
  = ["image"; "jpeg"].
Proof. vm_compute. reflexivity. Qed.

(** Ties in priority are broken by descending tag text, and the list is cut
    at the maximum. *)
Example process_tags_order_and_cut :
  process_tags Py.ascii_lower 3 ["web"; "b"; "PDF"; "a"; "Photo"; "c"; "B"]
  = ["image"; "pdf"; "web"].
Proof. vm_compute. reflexivity. Qed.

Example process_tags_ties :
  process_tags Py.ascii_lower 15 ["a"; "c"; "b"; "video"; "audio"]
  = ["video"; "audio"; "c"; "b"; "a"].
Proof. vm_compute. reflexivity. Qed.

(** With a negative maximum the slice drops tags from the end instead of
    bounding the length. *)
Example process_tags_negative_max :
  process_tags Py.ascii_lower (-1) ["a"; "b"; "c"] = ["c"; "b"].
Proof. vm_compute. reflexivity. Qed.

End TagAnalyzerSpec.

(** ** The category classifier *)

Module ClassifierSpec.

Import FileProcessor Terms.

Lemma scan_prefixes_first_match (before after : list (string * string))
    (prefix category mime_type : string) :
  (forall p c, (p, c) ∈ before -> Py.startswith mime_type p = false) ->
  Py.startswith mime_type prefix = true ->
  scan_prefixes (before ++ (prefix, category) :: after) mime_type
  = Some category.
Proof.
  unfold scan_prefixes. intros Hbefore Hprefix.
  induction before as [|[p c] before IH]; simpl.
  - now rewrite Hprefix.
  - rewrite (Hbefore p c) by left.
    apply IH. intros p' c' Hin. apply (Hbefore p' c'). now right.
Qed.

Lemma scan_prefixes_none (prefixes : list (string * string))
    (mime_type : string) :
  (forall p c, (p, c) ∈ prefixes -> Py.startswith mime_type p = false) ->
  scan_prefixes prefixes mime_type = None.
Proof.
  unfold scan_prefixes. intros Hnone.
  induction prefixes as [|[p c] prefixes IH]; simpl; [reflexivity|].
  rewrite (Hnone p c) by left.
  apply IH. intros p' c' Hin. apply (Hnone p' c'). now right.
Qed.

Lemma scan_prefixes_some (prefixes : list (string * string))
    (mime_type category : string) :
  scan_prefixes prefixes mime_type = Some category ->
  exists prefix,
    ((prefix, category) ∈ prefixes) /\ Py.startswith mime_type prefix = true.
Proof.
  unfold scan_prefixes.
  induction prefixes as [|[p c] prefixes IH]; simpl; [discriminate|].
  destruct (Py.startswith mime_type p) eqn:Hp.
  - intros [= <-]. exists p. split; [left | assumption].
  - intros H. destruct (IH H) as (p' & Hin & Hp').
    exists p'. split; [now right | assumption].
Qed.

Lemma MIME_EXACT_category (mime_type category : string) :
  MIME_EXACT !! mime_type = Some category -> category ∈ Category.
Proof.
  intros H. apply elem_of_list_to_map_2 in H.
  repeat (apply elem_of_cons in H as [H|H];
          [injection H as -> ->; unfold Category;
           repeat (first [apply list_elem_of_here | apply list_elem_of_further])
          |]).
  now apply elem_of_nil in H.
Qed.

Lemma MIME_PREFIXES_category (prefix category : string) :
  (prefix, category) ∈ MIME_PREFIXES -> category ∈ Category.
Proof.
  intros H.
  repeat (apply elem_of_cons in H as [H|H];
          [injection H as -> ->; unfold Category;
           repeat (first [apply list_elem_of_here | apply list_elem_of_further])
          |]).
  now apply elem_of_nil in H.
Qed.

(** C2: [get_file_category] returns exactly one category for every media
    type; an entry of [MIME_EXACT] decides before any prefix is looked at;
    the prefixes are tried in declaration order and the first match decides;
    a media type matched by neither table is [other]. *)
Theorem get_file_category_spec (m : string) :
  (exists! c, (c ∈ Category) /\ get_file_category m = c)
  /\ (forall c, MIME_EXACT !! m = Some c -> get_file_category m = c)
  /\ get_file_category "application/pdf" = "document"
  /\ (MIME_EXACT !! m = None ->
      forall before prefix c after,
        MIME_PREFIXES = before ++ (prefix, c) :: after ->
        (forall p' c', (p', c') ∈ before -> Py.startswith m p' = false) ->
        Py.startswith m prefix = true ->
        get_file_category m = c)
  /\ (MIME_EXACT !! m = None ->
      (forall p c, (p, c) ∈ MIME_PREFIXES -> Py.startswith m p = false) ->
      get_file_category m = "other").
Proof.
  repeat split.
  - exists (get_file_category m). split; [split; [|reflexivity]|].
    + unfold get_file_category.
      destruct (MIME_EXACT !! m) as [c|] eqn:Hexact.
      * now apply (MIME_EXACT_category m).
      * destruct (scan_prefixes MIME_PREFIXES m) as [c|] eqn:Hscan.
        -- apply scan_prefixes_some in Hscan as (p & Hin & _).
           now apply (MIME_PREFIXES_category p).
        -- unfold Category.
           repeat (first [apply list_elem_of_here | apply list_elem_of_further]).
    + now intros c [_ <-].
  - intros c Hexact. unfold get_file_category. now rewrite Hexact.
  - intros Hexact before prefix c after Hsplit Hbefore Hprefix.
    unfold get_file_category. rewrite Hexact, Hsplit.
    now rewrite (scan_prefixes_first_match before after prefix c m).
  - intros Hexact Hnone. unfold get_file_category.
    now rewrite Hexact, (scan_prefixes_none MIME_PREFIXES m).
Qed.

(** C2 at the media types [video/mp4], matched by the second prefix, and
    [application/zip], matched exactly. *)
Lemma get_file_category_spec_witness :
  get_file_category "video/mp4" = "video"
  /\ get_file_category "application/zip" = "archive".
Proof.
  split.
  - refine (proj1 (proj2 (proj2 (proj2 (get_file_category_spec "video/mp4"))))
              _ [("image/", "image")] "video/" "video"
              [("audio/", "audio"); ("text/", "text")] _ _ _).
    + vm_compute. reflexivity.
    + reflexivity.
    + intros p' c' Hin. apply list_elem_of_singleton in Hin.
      injection Hin as -> ->. vm_compute. reflexivity.
    + vm_compute. reflexivity.
  - apply (proj1 (proj2 (get_file_category_spec "application/zip"))).
    vm_compute. reflexivity.
Defined.

Example get_file_category_png : get_file_category "image/png" = "image".
Proof. vm_compute. reflexivity. Qed.

Example get_file_category_octet_stream :
  get_file_category "application/octet-stream" = "other".
Proof. vm_compute. reflexivity. Qed.

End ClassifierSpec.

(** ** Computations that return *)

Module ExcFacts.

Import Terms.

Lemma returns_ret {A} (a : A) : returns (mret a).
Proof. intros log. now exists a, log. Qed.

(** A [try] whose handler returns never lets an exception through. *)
Lemma try_except_returns {A} (body : M A) (handler : exn -> M A) :
  (forall e, returns (handler e)) -> returns (try_except body handler).
Proof.
  intros Hhandler log. unfold try_except.
  destruct (body log) as [[a|e] log'].
  - now exists a, log'.
  - apply Hhandler.
Qed.

Lemma try_except_raise {A} (body : M A) (handler : exn -> M A)
    (e : exn) (log log' : list string) :
  body log = (Raise e, log') ->
  try_except body handler log = handler e log'.
Proof. intros H. unfold try_except. now rewrite H. Qed.

Lemma try_except_ret {A} (body : M A) (handler : exn -> M A)
    (a : A) (log log' : list string) :
  body log = (Ret a, log') ->
  try_except body handler log = (Ret a, log').
Proof. intros H. unfold try_except. now rewrite H. Qed.

Lemma bind_ret {A B} (m : M A) (k : A -> M B) (a : A)
    (log log' : list string) :
  m log = (Ret a, log') -> (m ≫= k) log = k a log'.
Proof. intros H. unfold mbind, M_bind, Exc.bind. now rewrite H. Qed.

Lemma bind_raise {A B} (m : M A) (k : A -> M B) (e : exn)
    (log log' : list string) :
  m log = (Raise e, log') -> (m ≫= k) log = (Raise e, log').
Proof. intros H. unfold mbind, M_bind, Exc.bind. now rewrite H. Qed.

End ExcFacts.

(** ** The external label augmenter *)

Module VisionSpec.

Import VisionService ExcFacts Terms.

Lemma name_VERY_UNLIKELY (l : Likelihood) :
  String.eqb (name l) "VERY_UNLIKELY" = true <-> l = VERY_UNLIKELY.
Proof. destruct l; simpl; split; congruence. Qed.

Lemma analyze_safe_search_value (self : t) (image : string)
    (log : list string) :
  _analyze_safe_search self image log = (Ret (safe_search_tags self image), log).
Proof.
  unfold _analyze_safe_search, safe_search_tags, call, try_except.
  destruct (client self) as [c|]; [|reflexivity].
  unfold mbind, M_bind, Exc.bind, lift.
  destruct (safe_search_detection c image) as [safe|e]; [|reflexivity].
  destruct (_ && _); reflexivity.
Qed.

Lemma safe_search_none (P : Prop) :
  ~ P ->
  ((("professional" ∈ @nil string) /\ ("safe-content" ∈ @nil string)) <-> P)
  /\ ("flagged" ∉ @nil string)
  /\ (@nil string = [] \/ @nil string = ["professional"; "safe-content"])
  /\ @nil string `sublist_of` ["professional"; "safe-content"].
Proof.
  intros HP. split; [split|split; [|split]].
  - intros [[]%elem_of_nil _].
  - intros H. contradiction.
  - intros []%elem_of_nil.
  - now left.
  - apply sublist_nil_l.
Qed.

Lemma safe_search_both (P : Prop) :
  P ->
  let tags := ["professional"; "safe-content"] in
  ((("professional" ∈ tags) /\ ("safe-content" ∈ tags)) <-> P)
  /\ ("flagged" ∉ tags)
  /\ (tags = [] \/ tags = ["professional"; "safe-content"])
  /\ tags `sublist_of` ["professional"; "safe-content"].
Proof.
  intros HP tags. split; [split|split; [|split]].
  - intros _. exact HP.
  - intros _. split.
    + apply list_elem_of_here.
    + apply list_elem_of_further, list_elem_of_here.
  - intros [[=]|[[=]|[]%elem_of_nil]%elem_of_cons]%elem_of_cons.
  - now right.
  - reflexivity.
Qed.

(** C7: the safe-content sub-analysis adds [professional] and
    [safe-content] exactly when the remote answer rates both adult and
    violence [VERY_UNLIKELY]; it never adds [flagged], and what it returns is
    a sublist of [professional, safe-content]. *)
Theorem analyze_safe_search_spec (self : t) (image : string)
    (log : list string) :
  exists tags,
    fst (_analyze_safe_search self image log) = Ret tags
    /\ ((("professional" ∈ tags) /\ ("safe-content" ∈ tags)) <->
        (exists c safe,
           client self = Some c
           /\ safe_search_detection c image = Ret safe
           /\ adult safe = VERY_UNLIKELY
           /\ violence safe = VERY_UNLIKELY))
    /\ ("flagged" ∉ tags)
    /\ (tags = [] \/ tags = ["professional"; "safe-content"])
    /\ tags `sublist_of` ["professional"; "safe-content"].
Proof.
  exists (safe_search_tags self image).
  rewrite analyze_safe_search_value. split; [reflexivity|].
  unfold safe_search_tags.
  destruct (client self) as [c|].
  - destruct (safe_search_detection c image) as [safe|e] eqn:Hresp.
    + destruct (String.eqb (name (adult safe)) "VERY_UNLIKELY") eqn:Ha;
        [destruct (String.eqb (name (violence safe)) "VERY_UNLIKELY") eqn:Hv|];
        simpl.
      * apply name_VERY_UNLIKELY in Ha, Hv.
        apply safe_search_both. now exists c, safe.
      * apply safe_search_none.
        intros (c' & safe' & [= <-] & Hresp' & _ & Hv').
        rewrite Hresp in Hresp'. injection Hresp' as <-.
        apply name_VERY_UNLIKELY in Hv'. congruence.
      * apply safe_search_none.
        intros (c' & safe' & [= <-] & Hresp' & Ha' & _).
        rewrite Hresp in Hresp'. injection Hresp' as <-.
        apply name_VERY_UNLIKELY in Ha'. congruence.
    + apply safe_search_none. intros (c' & safe' & [= <-] & Hresp' & _).
      rewrite Hresp in Hresp'. discriminate.
  - apply safe_search_none. intros (c' & safe' & [=] & _).
Qed.

(** C7 at a service whose client rates both adult and violence
    [VERY_UNLIKELY]. *)
Lemma analyze_safe_search_spec_witness :
  fst (_analyze_safe_search
         (Samples.vision_answering VERY_UNLIKELY VERY_UNLIKELY) "PNG" [])
  = Ret ["professional"; "safe-content"].
Proof.
  destruct (analyze_safe_search_spec
              (Samples.vision_answering VERY_UNLIKELY VERY_UNLIKELY) "PNG" [])
    as (tags & Hrun & Hiff & _ & [Hnil|Hboth] & _).
  - assert (Hin : ("professional" ∈ tags) /\ ("safe-content" ∈ tags)).
    { apply Hiff. eexists _, _. repeat split; reflexivity. }
    rewrite Hnil in Hin. destruct Hin as [Hin _].
    now apply elem_of_nil in Hin.
  - now rewrite <- Hboth.
Defined.

Example analyze_safe_search_possible :
  fst (_analyze_safe_search
         (Samples.vision_answering VERY_UNLIKELY POSSIBLE) "PNG" [])
  = Ret [].
Proof. vm_compute. reflexivity. Qed.

Example analyze_safe_search_likely_adult :
  fst (_analyze_safe_search
         (Samples.vision_answering VERY_LIKELY VERY_UNLIKELY) "PNG" [])
  = Ret [].
Proof. vm_compute. reflexivity. Qed.

Section Augmenter.
Variable lower : string -> string.
Variable MIN_TAG_CONFIDENCE : float.
Variable pow : float -> float -> float.

(** The augmenter as a whole never raises. *)
Lemma analyze_image_returns (w : World) (self : t) (image_path : string) :
  returns (analyze_image lower MIN_TAG_CONFIDENCE pow w self image_path).
Proof.
  unfold analyze_image. destruct (negb (is_available self)).
  - apply returns_ret.
  - apply try_except_returns. intros e. apply returns_ret.
Qed.

(** An unavailable augmenter returns the empty list and opens no file. *)
Lemma analyze_image_unavailable (w : World) (self : t) (image_path : string)
    (log : list string) :
  is_available self = false ->
  analyze_image lower MIN_TAG_CONFIDENCE pow w self image_path log = (Ret [], log).
Proof. intros H. unfold analyze_image. now rewrite H. Qed.

End Augmenter.

End VisionSpec.

(** ** The local content analyzers *)

Module FileProcessorSpec.

Import FileProcessor ExcFacts Terms Samples.


Lemma extract_texts_all (pages : list (result string)) (log : list string) :
  (forall p, p ∈ pages -> exists text, p = Ret text) ->
  exists texts, extract_texts pages log = (Ret texts, log).
Proof.
  induction pages as [|p pages IH]; intros Hall; simpl.
  - now exists [].
  - destruct (Hall p) as [text ->]; [left|].
    destruct IH as [texts Htexts].
    { intros q Hq. apply Hall. now right. }
    exists (text :: texts).
    unfold mbind, M_bind, Exc.bind, lift in *. now rewrite Htexts.
Qed.

Lemma extract_texts_failure (pages : list (result string)) (e : exn)
    (log : list string) :
  Raise e ∈ pages ->
  exists e', extract_texts pages log = (Raise e', log).
Proof.
  induction pages as [|p pages IH]; intros Hin; simpl.
  - now apply elem_of_nil in Hin.
  - unfold mbind, M_bind, Exc.bind, lift in *.
    destruct p as [text|e1]; [|now exists e1].
    apply elem_of_cons in Hin as [[=]|Hin].
    destruct (IH Hin) as [e' He']. exists e'. now rewrite He'.
Qed.

Section Analyzers.
Variable lower : string -> string.
Variable split : string -> list string.
Variable list_of_set : gset string -> list string.
Variable MIN_TAG_CONFIDENCE : float.
Variable pow : float -> float -> float.
Variable w : World.

Local Abbreviation analyze_image_local :=
  (FileProcessor.analyze_image_local lower MIN_TAG_CONFIDENCE pow w).
Local Abbreviation analyze_pdf :=
  (FileProcessor.analyze_pdf lower split list_of_set w).
Local Abbreviation analyze_text := (FileProcessor.analyze_text lower w).
Local Abbreviation analyze_file :=
  (FileProcessor.analyze_file lower split list_of_set MIN_TAG_CONFIDENCE pow w).
Local Abbreviation image_local_block :=
  (FileProcessor.image_local_block lower w).





Lemma analyze_image_local_shape (vs : VisionService.t) (file_path : string) :
  exists aug,
    fst (run (analyze_image_local {| vision_service := vs |} file_path))
    = Ret (local_tags lower w file_path ++ aug)
    /\ appended lower MIN_TAG_CONFIDENCE pow w vs file_path aug.
Proof.
  unfold local_tags, run, FileProcessor.analyze_image_local.
  destruct (image_local_block file_path []) as [[tags|e] log1] eqn:Hblock;
    simpl fst.
  - destruct (VisionService.is_available vs) eqn:Havailable.
    + destruct (VisionSpec.analyze_image_returns lower MIN_TAG_CONFIDENCE pow w vs
                  file_path log1) as (vision_tags & log2 & Hvision).
      exists vision_tags. split.
      * erewrite try_except_ret; [reflexivity|].
        erewrite bind_ret; [|exact Hblock].
        cbv beta. cbn [vision_service]. rewrite ?Havailable.
        erewrite bind_ret; [|exact Hvision].
        destruct vision_tags; [rewrite app_nil_r|]; reflexivity.
      * right. split; [assumption|]. exists log1. now rewrite Hvision.
    + exists []. split; [|now left]. rewrite app_nil_r.
      erewrite try_except_ret; [reflexivity|].
      erewrite bind_ret; [|exact Hblock].
      cbv beta. cbn [vision_service]. now rewrite ?Havailable.
  - exists []. split; [|now left]. rewrite app_nil_r.
    erewrite try_except_raise; [reflexivity|].
    apply bind_raise. exact Hblock.
Qed.

Lemma analyze_image_local_no_vision (file_path : string) :
  fst (run (analyze_image_local no_vision file_path))
  = Ret (local_tags lower w file_path).
Proof.
  unfold local_tags, run, FileProcessor.analyze_image_local.
  destruct (image_local_block file_path []) as [[tags|e] log1] eqn:Hblock;
    simpl fst.
  - erewrite try_except_ret; [reflexivity|].
    erewrite bind_ret; [|exact Hblock]. reflexivity.
  - erewrite try_except_raise; [reflexivity|].
    apply bind_raise. exact Hblock.
Qed.

Lemma image_local_block_header (file_path : string) (img : ImageFile)
    (log : list string) :
  Image_open w file_path = Ret img ->
  image_local_block file_path log
  = _analyze_dominant_color img (header_tags lower img) (log ++ [file_path]).
Proof.
  intros Hopen. unfold FileProcessor.image_local_block.
  erewrite bind_ret; [|unfold opening; now rewrite Hopen].
  unfold header_tags, format_tags, ratio_tags, resolution_tags.
  destruct (size img) as [width height]. cbn [fst snd]. f_equal.
  destruct (format img) as [f|]; [destruct (String.eqb f "")|];
    repeat match goal with
           | |- context [if ?c then _ else _] => destruct c
           end;
    cbn [app]; rewrite <- ?app_assoc; reflexivity.
Qed.


(** C8: two runs of [analyze_image_local] on the same file that differ in
    the augmenter return the same local tags, those of the run without an
    augmenter, each followed by what its augmenter contributed. *)
Theorem analyze_image_local_independent (vs1 vs2 : VisionService.t)
    (file_path : string) :
  exists local aug1 aug2,
    local = local_tags lower w file_path
    /\ fst (run (analyze_image_local no_vision file_path)) = Ret local
    /\ fst (run (analyze_image_local {| vision_service := vs1 |} file_path))
       = Ret (local ++ aug1)
    /\ fst (run (analyze_image_local {| vision_service := vs2 |} file_path))
       = Ret (local ++ aug2)
    /\ appended lower MIN_TAG_CONFIDENCE pow w vs1 file_path aug1
    /\ appended lower MIN_TAG_CONFIDENCE pow w vs2 file_path aug2.
Proof.
  destruct (analyze_image_local_shape vs1 file_path) as (aug1 & H1 & Ha1).
  destruct (analyze_image_local_shape vs2 file_path) as (aug2 & H2 & Ha2).
  exists (local_tags lower w file_path), aug1, aug2.
  repeat split; try assumption.
  apply analyze_image_local_no_vision.
Qed.

Lemma analyze_pdf_success (self : t) (file_path : string)
    (pages : list (result string)) :
  PdfReader_pages w file_path = Ret pages ->
  (forall p, p ∈ take 3 pages -> exists text, p = Ret text) ->
  exists rest,
    fst (run (analyze_pdf self file_path))
    = Ret (["pdf"; "document"] ++ page_tier (Z.of_nat (length pages)) ++ rest).
Proof.
  intros Hpages Hall. unfold run, FileProcessor.analyze_pdf.
  destruct (extract_texts_all _ ([] ++ [file_path]) Hall) as [texts Htexts].
  assert (Htier :
    (if (Z.of_nat (length pages) <=? 3)%Z
     then ["pdf"; "document"] ++ ["single-page"; "flyer"]
     else if (Z.of_nat (length pages) <=? 5)%Z
     then ["pdf"; "document"] ++ ["short-document"; "brief"]
     else if (Z.of_nat (length pages) <=? 20)%Z
     then ["pdf"; "document"] ++ ["medium-document"; "report"]
     else ["pdf"; "document"] ++ ["long-document"; "book"; "manual"])
    = ["pdf"; "document"] ++ page_tier (Z.of_nat (length pages))).
  { unfold page_tier. repeat destruct (_ <=? _)%Z; reflexivity. }
  destruct (String.eqb (lower (String.concat "" texts)) "") eqn:Hempty.
  - exists []. erewrite try_except_ret; [reflexivity|].
    erewrite bind_ret; [|unfold opening; now rewrite Hpages].
    erewrite bind_ret; [|exact Htexts].
    rewrite Hempty, Htier, app_nil_r. reflexivity.
  - destruct (1000 <? length (split (lower (String.concat "" texts))))%nat
      eqn:Hheavy;
      eexists; (erewrite try_except_ret; [reflexivity|]);
      (erewrite bind_ret; [|unfold opening; now rewrite Hpages]);
      (erewrite bind_ret; [|exact Htexts]);
      rewrite Hempty, Htier, Hheavy; unfold mret, M_ret, Exc.ret;
      rewrite <- ?app_assoc; reflexivity.
Qed.

(** C9: for a PDF that is read without failure, [analyze_pdf] returns
    [pdf], [document], the tags of the page-count tier, and the tags found in
    the text: up to 3 pages are [single-page, flyer], 4 to 5
    [short-document, brief], 6 to 20 [medium-document, report], more than 20
    [long-document, book, manual]. *)
Theorem analyze_pdf_page_tiers (self : t) (file_path : string)
    (pages : list (result string)) :
  PdfReader_pages w file_path = Ret pages ->
  (forall p, p ∈ take 3 pages -> exists text, p = Ret text) ->
  let n := Z.of_nat (length pages) in
  exists tags tier rest,
    fst (run (analyze_pdf self file_path)) = Ret tags
    /\ tags = ["pdf"; "document"] ++ tier ++ rest
    /\ ((n <= 3)%Z -> tier = ["single-page"; "flyer"])
    /\ ((4 <= n <= 5)%Z -> tier = ["short-document"; "brief"])
    /\ ((6 <= n <= 20)%Z -> tier = ["medium-document"; "report"])
    /\ ((20 < n)%Z -> tier = ["long-document"; "book"; "manual"])
    /\ (n = 2%Z -> ("single-page" ∈ tags) /\ ("flyer" ∈ tags))
    /\ (n = 18%Z -> ("medium-document" ∈ tags) /\ ("report" ∈ tags)).
Proof.
  intros Hpages Hall n.
  destruct (analyze_pdf_success self file_path pages Hpages Hall)
    as [rest Hrun].
  exists (["pdf"; "document"] ++ page_tier n ++ rest), (page_tier n), rest.
  split; [exact Hrun|]. split; [reflexivity|].
  unfold page_tier.
  destruct (Z.leb_spec n 3), (Z.leb_spec n 5), (Z.leb_spec n 20);
    repeat split; intros; try lia; try reflexivity; subst n; simpl;
    repeat (first [apply list_elem_of_here | apply list_elem_of_further]).
Qed.

(** C10: for a media type whose category has no analyzer, [analyze_file]
    returns the one-element list of the category and leaves the log of
    opened files as it is. *)
Theorem analyze_file_no_analyzer (self : t) (file_path mime_type : string)
    (log : list string) :
  let category := get_file_category mime_type in
  category ∉ ["image"; "document"; "text"; "video"; "audio"] ->
  analyze_file self file_path mime_type log = (Ret [category], log).
Proof.
  intros category Hcat. unfold FileProcessor.analyze_file.
  fold category. rewrite not_elem_of_list_to_map_1; [reflexivity|exact Hcat].
Qed.

End Analyzers.


Example analyze_image_local_without_augmenter :
  fst (run (analyze_image_local Py.ascii_lower 0.7%float sqrt_pow world_png no_vision
              "sky.png"))
  = Ret ["image"; "png"; "landscape"; "wide"; "high resolution"; "hd";
         "color"; "transparent"; "bright"].
Proof. vm_compute. reflexivity. Qed.

Example analyze_image_local_with_augmenter :
  run (analyze_image_local Py.ascii_lower 0.7%float sqrt_pow world_png
         {| vision_service := vision_answering VERY_UNLIKELY VERY_UNLIKELY |}
         "sky.png")
  = (Ret (["image"; "png"; "landscape"; "wide"; "high resolution"; "hd";
           "color"; "transparent"; "bright"]
          ++ ["blue-sky"; "nature"; "red"; "text-content"; "invoice";
              "professional"; "safe-content"]),
     ["sky.png"; "sky.png"]).
Proof. vm_compute. reflexivity. Qed.


(** C9 at a two-page file. *)
Lemma analyze_pdf_page_tiers_witness :
  exists tags,
    fst (run (analyze_pdf Py.ascii_lower (fun s => [s]) elements
                (world_pdf 2) no_vision "flyer.pdf")) = Ret tags
    /\ ("single-page" ∈ tags) /\ ("flyer" ∈ tags).
Proof.
  destruct (analyze_pdf_page_tiers Py.ascii_lower (fun s => [s]) elements
              (world_pdf 2) no_vision "flyer.pdf" [Ret "page"; Ret "page"])
    as (tags & tier & rest & Hrun & _ & _ & _ & _ & _ & Htwo & _).
  - reflexivity.
  - intros p Hp. exists "page".
    apply elem_of_cons in Hp as [Hp|Hp]; [exact Hp|].
    apply elem_of_cons in Hp as [Hp|Hp]; [exact Hp|].
    now apply elem_of_nil in Hp.
  - exists tags. split; [exact Hrun|]. apply Htwo. reflexivity.
Defined.

Example analyze_pdf_18_pages :
  fst (run (analyze_pdf Py.ascii_lower (fun s => [s]) elements
              (world_pdf 18) no_vision "report.pdf"))
  = Ret ["pdf"; "document"; "medium-document"; "report"].
Proof. vm_compute. reflexivity. Qed.

Example analyze_file_script :
  run (analyze_file Py.ascii_lower (fun s => [s]) elements 0.7%float sqrt_pow
         world_script no_vision "uploads/Tool.PY" "text/x-python")
  = (Ret ["text"; "code"; "python"; "programming"; "script"],
     ["uploads/Tool.PY"]).
Proof. vm_compute. reflexivity. Qed.

Example analyze_file_video :
  run (analyze_file Py.ascii_lower (fun s => [s]) elements 0.7%float sqrt_pow
         world_script no_vision "uploads/clip.MOV" "video/quicktime")
  = (Ret ["video"; "media"; "mov"; "quicktime"], []).
Proof. vm_compute. reflexivity. Qed.

Example analyze_file_spreadsheet :
  run (analyze_file Py.ascii_lower (fun s => [s]) elements 0.7%float sqrt_pow
         world_script no_vision "uploads/sheet.xls" "application/vnd.ms-excel")
  = (Ret ["spreadsheet"], []).
Proof. vm_compute. reflexivity. Qed.

(** C10 at an archive. *)
Lemma analyze_file_no_analyzer_witness :
  analyze_file Py.ascii_lower (fun s => [s]) elements 0.7%float sqrt_pow
    world_truncated_jpeg no_vision "backup.zip" "application/zip" []
  = (Ret ["archive"], []).
Proof.
  apply (analyze_file_no_analyzer Py.ascii_lower (fun s => [s]) elements
           0.7%float sqrt_pow world_truncated_jpeg no_vision "backup.zip"
           "application/zip" []).
  assert (E : get_file_category "application/zip" = "archive")
    by (vm_compute; reflexivity).
  rewrite E. intros H.
  repeat (apply elem_of_cons in H as [H|H]; [discriminate|]).
  now apply elem_of_nil in H.
Defined.

End FileProcessorSpec.

(** * Further properties *)

(** ** The order of the sort keys *)

Module OrderFacts.

Import TagAnalyzer Terms.

Lemma string_compare_refl (s : string) : String.compare s s = Eq.
Proof.
  induction s as [|c s IH]; simpl; [reflexivity|].
  unfold Ascii.compare. now rewrite N.compare_refl.
Qed.

Lemma string_compare_trans (s1 s2 s3 : string) :
  String.compare s1 s2 = Lt -> String.compare s2 s3 = Lt ->
  String.compare s1 s3 = Lt.
Proof.
  revert s2 s3.
  induction s1 as [|c1 s1 IH]; intros [|c2 s2] [|c3 s3]; simpl;
    try congruence.
  unfold Ascii.compare.
  destruct (N.compare_spec (N_of_ascii c1) (N_of_ascii c2)) as [E12|L12|G12];
    destruct (N.compare_spec (N_of_ascii c2) (N_of_ascii c3)) as [E23|L23|G23];
    try congruence; intros H12 H23.
  - rewrite E12, E23, N.compare_refl. now apply (IH s2).
  - rewrite E12. now apply N.compare_lt_iff in L23 as ->.
  - rewrite <- E23. now apply N.compare_lt_iff in L12 as ->.
  - assert (L13 : (N_of_ascii c1 < N_of_ascii c3)%N) by lia.
    now apply N.compare_lt_iff in L13 as ->.
Qed.

Lemma string_ltb_total (s1 s2 : string) :
  s1 <> s2 -> String.ltb s1 s2 = true \/ String.ltb s2 s1 = true.
Proof.
  intros Hne. unfold String.ltb. rewrite (String.compare_antisym s2 s1).
  destruct (String.compare s1 s2) eqn:Hc; simpl; auto.
  now apply String.compare_eq_iff in Hc.
Qed.

Lemma string_ltb_irrefl (s : string) : String.ltb s s = false.
Proof. unfold String.ltb. now rewrite string_compare_refl. Qed.

(** [tag_ltb] is a strict total order on tags. *)
Lemma tag_ltb_irrefl (t : string) : tag_ltb t t = false.
Proof.
  unfold tag_ltb, key_ltb. simpl.
  rewrite Z.ltb_irrefl, Z.eqb_refl, string_ltb_irrefl. reflexivity.
Qed.

Lemma tag_ltb_total (t1 t2 : string) :
  t1 <> t2 -> tag_ltb t1 t2 = true \/ tag_ltb t2 t1 = true.
Proof.
  intros Hne. unfold tag_ltb, key_ltb, sort_key. simpl.
  destruct (Z.ltb_spec (Py.dict_get TAG_PRIORITY t1 0%Z)
                       (Py.dict_get TAG_PRIORITY t2 0%Z)); [now left|].
  destruct (Z.ltb_spec (Py.dict_get TAG_PRIORITY t2 0%Z)
                       (Py.dict_get TAG_PRIORITY t1 0%Z)); [now right|].
  assert (E : Py.dict_get TAG_PRIORITY t1 0%Z = Py.dict_get TAG_PRIORITY t2 0%Z)
    by lia.
  rewrite E, Z.eqb_refl. simpl. now apply string_ltb_total.
Qed.

(** "Not smaller" is transitive. *)
Lemma tag_geb_trans (t1 t2 t3 : string) :
  tag_ltb t1 t2 = false -> tag_ltb t2 t3 = false -> tag_ltb t1 t3 = false.
Proof.
  unfold tag_ltb, key_ltb, sort_key. simpl.
  set (p1 := Py.dict_get TAG_PRIORITY t1 0%Z).
  set (p2 := Py.dict_get TAG_PRIORITY t2 0%Z).
  set (p3 := Py.dict_get TAG_PRIORITY t3 0%Z).
  intros H12 H23.
  apply orb_false_iff in H12 as [L12 E12], H23 as [L23 E23].
  apply Z.ltb_ge in L12, L23.
  apply orb_false_iff. split; [apply Z.ltb_ge; lia|].
  destruct (Z.eqb_spec p1 p3) as [E13|]; [simpl|reflexivity].
  assert (E1 : p1 = p2) by lia. assert (E2 : p2 = p3) by lia.
  rewrite E1, Z.eqb_refl in E12. rewrite E2, Z.eqb_refl in E23.
  simpl in E12, E23. unfold String.ltb in *.
  destruct (String.compare t1 t3) eqn:H13; try reflexivity.
  exfalso.
  destruct (String.compare t1 t2) eqn:C12; try discriminate.
  - apply String.compare_eq_iff in C12. subst t2. now rewrite H13 in E23.
  - destruct (String.compare t2 t3) eqn:C23; try discriminate.
    + apply String.compare_eq_iff in C23. subst t3. congruence.
    + rewrite String.compare_antisym in C12, C23.
      destruct (String.compare t2 t1) eqn:D21; try discriminate.
      destruct (String.compare t3 t2) eqn:D32; try discriminate.
      pose proof (string_compare_trans _ _ _ D32 D21) as D31.
      rewrite String.compare_antisym, D31 in H13. discriminate.
Qed.

Section SortedLists.
Context {A : Type} `{EqDecision A} (lt : A -> A -> bool).
Hypothesis lt_asym : forall x y, lt x y = true -> lt y x = false.
Hypothesis lt_total : forall x y, x <> y -> lt x y = true \/ lt y x = true.
Hypothesis ge_trans :
  forall x y z, lt x y = false -> lt y z = false -> lt x z = false.

Lemma descending_strongly (l : list A) :
  descending lt l -> StronglySorted (fun a b => lt a b = false) l.
Proof.
  unfold descending. intros H. apply Sorted_StronglySorted; [|exact H].
  intros x y z. apply ge_trans.
Qed.

(** Two descending lists without duplicates that hold the same elements are
    equal. *)
Lemma descending_unique (l1 l2 : list A) :
  NoDup l1 -> Permutation l1 l2 ->
  descending lt l1 -> descending lt l2 -> l1 = l2.
Proof.
  intros Hnd Hperm H1 H2.
  apply descending_strongly in H1, H2.
  revert l2 Hperm H2.
  induction H1 as [|x l1 Hs1 IH Hx]; intros l2 Hperm H2.
  - now apply Permutation_nil in Hperm.
  - destruct H2 as [|y l2 Hs2 Hy].
    + symmetry in Hperm. now apply Permutation_nil in Hperm.
    + assert (Exy : x = y).
      { destruct (decide (x = y)) as [E|Hne]; [exact E|]. exfalso.
        assert (Hyin : In y (x :: l1))
          by (eapply Permutation_in; [symmetry; exact Hperm | now left]).
        assert (Hxin : In x (y :: l2))
          by (eapply Permutation_in; [exact Hperm | now left]).
        destruct Hyin as [E|Hyin]; [now apply Hne|].
        destruct Hxin as [E|Hxin]; [now apply Hne|].
        rewrite Forall_forall in Hx, Hy.
        apply list_elem_of_In in Hyin, Hxin.
        pose proof (Hx y Hyin) as Gxy. pose proof (Hy x Hxin) as Gyx.
        destruct (lt_total x y Hne); congruence. }
      subst y. f_equal. apply IH.
      * now inversion Hnd.
      * now apply Permutation_cons_inv in Hperm.
      * exact Hs2.
Qed.

End SortedLists.

End OrderFacts.

(** ** More on the tag normalizer and prioritizer *)

Module TagAnalyzerMore.

Import TagAnalyzer Terms.

Lemma strongly_sorted_app {A} (R : A -> A -> Prop) (l1 l2 : list A) :
  StronglySorted R (l1 ++ l2) ->
  forall a b, a ∈ l1 -> b ∈ l2 -> R a b.
Proof.
  induction l1 as [|x l1 IH]; simpl; intros Hs a b Ha Hb.
  - now apply elem_of_nil in Ha.
  - apply StronglySorted_inv in Hs as [Hs Hx].
    apply elem_of_cons in Ha as [->|Ha].
    + rewrite Forall_forall in Hx. apply Hx, elem_of_app. now right.
    + now apply IH.
Qed.

Section Pipeline.
Variable lower : string -> string.
Variable max_tags : Z.

Lemma filter_loop_complete (tags : list string) (seen : gset string)
    (x : string) :
  x ∈ tags -> (lower x ∉ seen) -> (lower x ∉ COMMON_TAGS_TO_REMOVE) ->
  lower x ∈ filter_loop lower tags seen [].
Proof.
  revert seen. induction tags as [|y tags IH]; intros seen Hx Hseen Hstop.
  - now apply elem_of_nil in Hx.
  - simpl.
    destruct (bool_decide (lower y ∉ seen)) eqn:Hy;
      destruct (bool_decide (lower y ∉ COMMON_TAGS_TO_REMOVE)) eqn:Hys; simpl.
    + rewrite TagAnalyzerSpec.filter_loop_acc. simpl.
      destruct (decide (lower x = lower y)) as [E|Hne].
      * rewrite E. apply list_elem_of_here.
      * apply list_elem_of_further.
        apply elem_of_cons in Hx as [->|Hx]; [congruence|].
        apply IH; try assumption.
        intros [Hin%elem_of_singleton|Hin]%elem_of_union; contradiction.
    + apply bool_decide_eq_false in Hys.
      apply elem_of_cons in Hx as [->|Hx]; [contradiction|]. now apply IH.
    + apply bool_decide_eq_false in Hy.
      apply elem_of_cons in Hx as [->|Hx]; [contradiction|]. now apply IH.
    + apply bool_decide_eq_false in Hy.
      apply elem_of_cons in Hx as [->|Hx]; [contradiction|]. now apply IH.
Qed.

Lemma filter_loop_sublist (tags : list string) (seen : gset string) :
  filter_loop lower tags seen [] `sublist_of` map lower tags.
Proof.
  revert seen. induction tags as [|y tags IH]; intros seen; simpl.
  - constructor.
  - destruct (_ && _).
    + rewrite TagAnalyzerSpec.filter_loop_acc. simpl.
      apply sublist_skip, IH.
    + apply sublist_cons, IH.
Qed.

Lemma filter_tags_elem (tags : list string) (t : string) :
  t ∈ filter_tags lower tags <->
  (t ∉ COMMON_TAGS_TO_REMOVE) /\ exists x, (x ∈ tags) /\ t = lower x.
Proof.
  unfold filter_tags. split.
  - intros H. now apply TagAnalyzerSpec.filter_loop_elem in H as (_ & H1 & H2).
  - intros (Hstop & x & Hx & ->).
    apply filter_loop_complete; [assumption | apply not_elem_of_empty | assumption].
Qed.

(** X1: [filter_tags] returns, without duplicates and in the order of the
    input, exactly the lower-cased input tags that are no stop tags. *)
Theorem filter_tags_spec (tags : list string) :
  NoDup (filter_tags lower tags)
  /\ (forall t,
        t ∈ filter_tags lower tags <->
        (t ∉ COMMON_TAGS_TO_REMOVE) /\ exists x, (x ∈ tags) /\ t = lower x)
  /\ filter_tags lower tags `sublist_of` map lower tags.
Proof.
  split; [|split].
  - apply TagAnalyzerSpec.filter_loop_NoDup.
  - apply filter_tags_elem.
  - apply filter_loop_sublist.
Qed.

Lemma sorted_tags_descending (tags : list string) :
  descending tag_ltb (Py.sorted_reverse tag_ltb tags).
Proof.
  apply PyFacts.sorted_reverse_descending, TagAnalyzerSpec.tag_ltb_asym.
Qed.

(** X2: for a maximum that is not negative, [prioritize_tags] keeps the
    greatest tags: what it returns is in descending key order, together with
    the dropped tags it is a rearrangement of the input, and no kept tag is
    smaller than a dropped one. *)
Theorem prioritize_tags_top (tags : list string) :
  (0 <= max_tags)%Z ->
  exists dropped,
    Permutation (prioritize_tags max_tags tags ++ dropped) tags
    /\ descending tag_ltb (prioritize_tags max_tags tags)
    /\ length (prioritize_tags max_tags tags)
       = Nat.min (Z.to_nat max_tags) (length tags)
    /\ (forall k d,
          k ∈ prioritize_tags max_tags tags -> d ∈ dropped ->
          tag_ltb k d = false).
Proof.
  intros Hmax. unfold prioritize_tags.
  rewrite PyFacts.slice_to_nonneg by assumption.
  set (sorted_tags := Py.sorted_reverse tag_ltb tags).
  exists (drop (Z.to_nat max_tags) sorted_tags).
  split; [|split; [|split]].
  - rewrite take_drop. apply PyFacts.sorted_reverse_perm.
  - apply PyFacts.take_descending, sorted_tags_descending.
  - rewrite length_take. f_equal.
    apply Permutation_length, PyFacts.sorted_reverse_perm.
  - apply (strongly_sorted_app (fun a b => tag_ltb a b = false)).
    rewrite take_drop.
    apply (OrderFacts.descending_strongly tag_ltb OrderFacts.tag_geb_trans).
    apply sorted_tags_descending.
Qed.

(** The pipeline sees its input as a set. *)
Lemma process_tags_ext (raw1 raw2 : list string) :
  (forall x, x ∈ raw1 <-> x ∈ raw2) ->
  process_tags lower max_tags raw1 = process_tags lower max_tags raw2.
Proof.
  intros Hsame. unfold process_tags, prioritize_tags. f_equal.
  set (f1 := filter_tags lower (normalize_tags lower raw1)).
  set (f2 := filter_tags lower (normalize_tags lower raw2)).
  assert (Hperm : Permutation f1 f2).
  { apply NoDup_Permutation.
    - apply TagAnalyzerSpec.filter_loop_NoDup.
    - apply TagAnalyzerSpec.filter_loop_NoDup.
    - intros t. unfold f1, f2. rewrite !filter_tags_elem.
      rewrite !TagAnalyzerSpec.normalize_tags_map.
      split; intros (Hstop & n & Hn & ->); (split; [assumption|]);
        apply list_elem_of_fmap in Hn as (x & -> & Hx);
        exists (syn (lower x)); (split; [|reflexivity]);
        apply list_elem_of_fmap; exists x; (split; [reflexivity|]);
        now apply Hsame. }
  apply (OrderFacts.descending_unique tag_ltb OrderFacts.tag_ltb_total
           OrderFacts.tag_geb_trans).
  - rewrite (PyFacts.sorted_reverse_perm tag_ltb).
    apply TagAnalyzerSpec.filter_loop_NoDup.
  - rewrite !(PyFacts.sorted_reverse_perm tag_ltb). exact Hperm.
  - apply sorted_tags_descending.
  - apply sorted_tags_descending.
Qed.

(** X3: the result of [process_tags] depends only on the set of the input
    tags: the order and the repetitions of the input do not matter, and
    [merge_tags] and [add_custom_tags] give the same list when their two
    arguments are swapped. *)
Theorem process_tags_set (a b : list string) :
  (forall raw1 raw2,
     (forall x, x ∈ raw1 <-> x ∈ raw2) ->
     process_tags lower max_tags raw1 = process_tags lower max_tags raw2)
  /\ process_tags lower max_tags (a ++ a) = process_tags lower max_tags a
  /\ merge_tags lower max_tags [a; b] = merge_tags lower max_tags [b; a]
  /\ add_custom_tags lower max_tags a b = add_custom_tags lower max_tags b a.
Proof.
  split; [exact process_tags_ext|]. split; [|split].
  - apply process_tags_ext. intros x. rewrite elem_of_app. tauto.
  - unfold merge_tags. simpl. apply process_tags_ext.
    intros x. unfold Py.extend. rewrite !elem_of_app. tauto.
  - unfold add_custom_tags, merge_tags. simpl. apply process_tags_ext.
    intros x. unfold Py.extend. rewrite !elem_of_app. tauto.
Qed.

(** X4: when the input has at most [max_tags] tags, nothing is cut: the
    normal form of every input tag is in the result unless it is a stop
    tag. *)
Theorem process_tags_complete (raw_tags : list string) (x : string) :
  (Z.of_nat (length raw_tags) <= max_tags)%Z ->
  x ∈ raw_tags ->
  (lower (syn (lower x)) ∉ COMMON_TAGS_TO_REMOVE) ->
  lower (syn (lower x)) ∈ process_tags lower max_tags raw_tags.
Proof.
  intros Hlen Hx Hstop. unfold process_tags, prioritize_tags.
  rewrite PyFacts.slice_to_short.
  - rewrite (PyFacts.sorted_reverse_perm tag_ltb).
    apply filter_tags_elem. split; [assumption|].
    exists (syn (lower x)). split; [|reflexivity].
    rewrite TagAnalyzerSpec.normalize_tags_map.
    apply list_elem_of_fmap. now exists x.
  - rewrite (Permutation_length (PyFacts.sorted_reverse_perm tag_ltb _)).
    pose proof (sublist_length _ _
                  (filter_loop_sublist (normalize_tags lower raw_tags) ∅)) as Hsub.
    rewrite length_map, TagAnalyzerSpec.normalize_tags_map, length_map in Hsub.
    unfold filter_tags. rewrite TagAnalyzerSpec.normalize_tags_map. lia.
Qed.

End Pipeline.

Lemma prioritize_tags_top_witness :
  exists dropped,
    Permutation (prioritize_tags 2 ["web"; "pdf"; "image"; "zeta"] ++ dropped)
      ["web"; "pdf"; "image"; "zeta"]
    /\ descending tag_ltb (prioritize_tags 2 ["web"; "pdf"; "image"; "zeta"])
    /\ length (prioritize_tags 2 ["web"; "pdf"; "image"; "zeta"])
       = Nat.min (Z.to_nat 2) (length ["web"; "pdf"; "image"; "zeta"])
    /\ (forall k d,
          k ∈ prioritize_tags 2 ["web"; "pdf"; "image"; "zeta"] ->
          d ∈ dropped -> tag_ltb k d = false).
Proof. apply (prioritize_tags_top 2 ["web"; "pdf"; "image"; "zeta"]). lia. Defined.

Lemma process_tags_set_witness :
  process_tags Py.ascii_lower 15 ["b"; "PDF"; "b"; "a"]
  = process_tags Py.ascii_lower 15 ["a"; "PDF"; "a"; "b"; "PDF"].
Proof.
  apply (proj1 (process_tags_set Py.ascii_lower 15 [] [])).
  intros x. split; intros H;
    repeat (apply elem_of_cons in H as [->|H];
            [repeat (first [apply list_elem_of_here | apply list_elem_of_further])|]);
    now apply elem_of_nil in H.
Defined.

Lemma process_tags_complete_witness :
  "image" ∈ process_tags Py.ascii_lower 15 ["Photo"; "error"].
Proof.
  apply (process_tags_complete Py.ascii_lower 15 ["Photo"; "error"] "Photo").
  - simpl. lia.
  - apply list_elem_of_here.
  - vm_compute. intros H. discriminate H.
Defined.

Example prioritize_tags_example :
  prioritize_tags 2 ["web"; "pdf"; "image"; "zeta"] = ["image"; "pdf"].
Proof. vm_compute. reflexivity. Qed.

End TagAnalyzerMore.

(** ** Tallies in insertion-ordered dictionaries *)

Module DictFacts.

Import PyMore TermsMore.

Lemma od_get_set {V} (d : list (string * V)) (k k' : string) (v : V) :
  od_get (od_set d k v) k' = if String.eqb k' k then Some v else od_get d k'.
Proof.
  induction d as [|[k0 v0] d IH]; simpl.
  - reflexivity.
  - destruct (String.eqb_spec k k0) as [->|Hne]; simpl.
    + destruct (String.eqb_spec k' k0); reflexivity.
    + rewrite IH. destruct (String.eqb_spec k' k0) as [->|];
        [|reflexivity].
      destruct (String.eqb_spec k0 k); [congruence | reflexivity].
Qed.

Lemma od_get_None {V} (d : list (string * V)) (k : string) :
  od_get d k = None <-> k ∉ map fst d.
Proof.
  induction d as [|[k0 v0] d IH]; simpl.
  - split; [intros _ H; now apply elem_of_nil in H | reflexivity].
  - destruct (String.eqb_spec k k0) as [->|Hne].
    + split; [discriminate|]. intros H. exfalso. apply H. left.
    + rewrite IH. rewrite not_elem_of_cons. tauto.
Qed.

Lemma od_set_keys {V} (d : list (string * V)) (k : string) (v : V) :
  map fst (od_set d k v)
  = if bool_decide (k ∈ map fst d) then map fst d else map fst d ++ [k].
Proof.
  induction d as [|[k0 v0] d IH]; simpl.
  - reflexivity.
  - destruct (String.eqb_spec k k0) as [->|Hne]; simpl.
    + rewrite bool_decide_eq_true_2 by left. reflexivity.
    + rewrite IH. destruct (bool_decide (k ∈ map fst d)) eqn:Hin.
      * apply bool_decide_eq_true in Hin.
        rewrite bool_decide_eq_true_2 by now right. reflexivity.
      * apply bool_decide_eq_false in Hin.
        rewrite bool_decide_eq_false_2; [reflexivity|].
        rewrite not_elem_of_cons. tauto.
Qed.

Lemma od_set_NoDup {V} (d : list (string * V)) (k : string) (v : V) :
  NoDup (map fst d) -> NoDup (map fst (od_set d k v)).
Proof.
  intros Hnd. rewrite od_set_keys.
  destruct (bool_decide (k ∈ map fst d)) eqn:Hin; [assumption|].
  apply bool_decide_eq_false in Hin.
  apply NoDup_app. repeat split; [assumption| |apply NoDup_singleton].
  intros x Hx Hk%list_elem_of_singleton. now subst x.
Qed.

Lemma od_set_total (d : list (string * Z)) (k : string) (v : Z) :
  total (od_set d k v)
  = (total d - match od_get d k with Some n => n | None => 0 end + v)%Z.
Proof.
  unfold total. induction d as [|[k0 v0] d IH]; simpl.
  - lia.
  - destruct (String.eqb_spec k k0) as [->|Hne]; simpl; [lia|].
    rewrite IH. lia.
Qed.

Lemma od_get_elem {V} (d : list (string * V)) (k : string) (v : V) :
  NoDup (map fst d) -> ((k, v) ∈ d <-> od_get d k = Some v).
Proof.
  induction d as [|[k0 v0] d IH]; simpl; intros Hnd.
  - split; [intros H; now apply elem_of_nil in H | discriminate].
  - apply NoDup_cons in Hnd as [Hk0 Hnd].
    rewrite elem_of_cons, (IH Hnd).
    destruct (String.eqb_spec k k0) as [->|Hne].
    + split.
      * intros [[= ->]|Hget]; [reflexivity|].
        exfalso. apply Hk0. apply dec_stable. intros Hnot.
        apply od_get_None in Hnot. congruence.
      * intros [= ->]. now left.
    + split; [intros [[= -> ->]|H]; [contradiction|exact H] | now right].
Qed.

Lemma occurrences_snoc (keys : list string) (k k' : string) :
  occurrences (keys ++ [k]) k'
  = (occurrences keys k' + if String.eqb k' k then 1 else 0)%Z.
Proof.
  unfold occurrences. rewrite count_occ_app. simpl.
  destruct (String.string_dec k k') as [->|Hne].
  - rewrite String.eqb_refl. lia.
  - destruct (String.eqb_spec k' k); [congruence | lia].
Qed.

Lemma occurrences_nonneg (keys : list string) (k : string) :
  (0 <= occurrences keys k)%Z.
Proof. unfold occurrences. lia. Qed.

Lemma tally_of_incr (d : list (string * Z)) (keys : list string) (k : string) :
  tally_of d keys -> tally_of (od_incr d k) (keys ++ [k]).
Proof.
  intros (Hnd & Hget & Htotal). unfold od_incr. split; [|split].
  - now apply od_set_NoDup.
  - intros k'. rewrite od_get_set, occurrences_snoc.
    pose proof (occurrences_nonneg keys k') as Hk'.
    destruct (String.eqb_spec k' k) as [->|Hne].
    + rewrite Hget.
      destruct (Z.eqb_spec (occurrences keys k) 0) as [E|Hnz].
      * rewrite E. reflexivity.
      * destruct (Z.eqb_spec (occurrences keys k + 1) 0); [lia|reflexivity].
    + rewrite Hget, Z.add_0_r. reflexivity.
  - rewrite od_set_total, Htotal, length_app. simpl.
    destruct (od_get d k); lia.
Qed.

Lemma tally_of_nil : tally_of [] [].
Proof.
  split; [constructor|]. split; [|reflexivity].
  intros k. reflexivity.
Qed.

Lemma tally_of_tally (keys keys0 : list string) (d : list (string * Z)) :
  tally_of d keys0 -> tally_of (tally keys d) (keys0 ++ keys).
Proof.
  unfold tally. revert d keys0.
  induction keys as [|k keys IH]; intros d keys0 Hd; simpl.
  - now rewrite app_nil_r.
  - replace (keys0 ++ k :: keys) with ((keys0 ++ [k]) ++ keys)
      by now rewrite <- app_assoc.
    apply IH. now apply tally_of_incr.
Qed.

(** A rearrangement of a tally is a tally. *)
Lemma tally_of_perm (d d' : list (string * Z)) (keys : list string) :
  Permutation d d' -> tally_of d keys -> tally_of d' keys.
Proof.
  intros Hperm (Hnd & Hget & Htotal).
  assert (Hnd' : NoDup (map fst d')) by now rewrite <- Hperm.
  split; [assumption|]. split.
  - intros k. rewrite <- Hget.
    destruct (od_get d k) as [v|] eqn:Hk.
    + apply (od_get_elem _ _ _ Hnd'). rewrite <- Hperm.
      now apply (od_get_elem _ _ _ Hnd).
    + apply od_get_None. rewrite <- Hperm. now apply od_get_None.
  - rewrite <- Htotal. unfold total.
    clear -Hperm. induction Hperm; simpl; lia.
Qed.

End DictFacts.

(** ** Searching and counting tags *)

Module TagQueriesSpec.

Import TagQueries PyMore Terms TermsMore DictFacts.

Section WithLower.
Variable lower : string -> string.

Lemma search_by_tags_true (search_tags file_tags : list string) :
  search_by_tags lower search_tags file_tags = true <->
  exists a b, (a ∈ search_tags) /\ (b ∈ file_tags) /\ lower a = lower b.
Proof.
  unfold search_by_tags. rewrite bool_decide_eq_true. split.
  - intros Hne. apply set_choose_L in Hne as [t Ht].
    apply elem_of_intersection in Ht as [Hs Hf].
    apply elem_of_list_to_set, list_elem_of_fmap in Hs as (a & -> & Ha).
    apply elem_of_list_to_set, list_elem_of_fmap in Hf as (b & Hb & Hbin).
    now exists a, b.
  - intros (a & b & Ha & Hb & Hab) Hempty.
    assert (Hin : lower a ∈ (list_to_set (map lower search_tags) : gset string)
                            ∩ list_to_set (map lower file_tags)).
    { apply elem_of_intersection. split; apply elem_of_list_to_set.
      - apply list_elem_of_fmap. now exists a.
      - apply list_elem_of_fmap. now exists b. }
    rewrite Hempty in Hin. now apply not_elem_of_empty in Hin.
Qed.

(** X5: [search_by_tags] is true exactly when a search tag and a file tag
    have the same lower-cased form; it does not depend on which list is
    which, and an empty search matches nothing. *)
Theorem search_by_tags_spec (search_tags file_tags : list string) :
  (search_by_tags lower search_tags file_tags = true <->
   exists a b, (a ∈ search_tags) /\ (b ∈ file_tags) /\ lower a = lower b)
  /\ search_by_tags lower search_tags file_tags
     = search_by_tags lower file_tags search_tags
  /\ search_by_tags lower [] file_tags = false
  /\ search_by_tags lower search_tags [] = false.
Proof.
  split; [apply search_by_tags_true|]. split; [|split].
  - apply eq_true_iff_eq. rewrite !search_by_tags_true.
    split; intros (a & b & Ha & Hb & Hab); now exists b, a.
  - apply not_true_is_false. rewrite search_by_tags_true.
    intros (a & b & Ha & _). now apply elem_of_nil in Ha.
  - apply not_true_is_false. rewrite search_by_tags_true.
    intros (a & b & _ & Hb & _). now apply elem_of_nil in Hb.
Qed.

Lemma count_file_tags_tally (file_tags : list string)
    (tag_count : list (string * Z)) :
  count_file_tags lower file_tags tag_count
  = tally (map lower file_tags) tag_count.
Proof.
  revert tag_count. induction file_tags as [|t ts IH]; intros d; simpl;
    [reflexivity | apply IH].
Qed.

Lemma count_all_tags_tally (all_files_tags : list (list string))
    (tag_count : list (string * Z)) :
  count_all_tags lower all_files_tags tag_count
  = tally (map lower (concat all_files_tags)) tag_count.
Proof.
  revert tag_count.
  induction all_files_tags as [|ts rest IH]; intros d; simpl; [reflexivity|].
  rewrite IH, count_file_tags_tally, map_app. unfold tally.
  now rewrite fold_left_app.
Qed.

Lemma count_ltb_asym (i1 i2 : string * Z) :
  count_ltb i1 i2 = true -> count_ltb i2 i1 = false.
Proof.
  unfold count_ltb. intros H%Z.ltb_lt. apply Z.ltb_ge. lia.
Qed.

Lemma tally_of_elem (d : list (string * Z)) (keys : list string)
    (t : string) (n : Z) :
  tally_of d keys ->
  ((t, n) ∈ d <-> n = occurrences keys t /\ (0 < n)%Z).
Proof.
  intros (Hnd & Hget & _). rewrite (od_get_elem _ _ _ Hnd), Hget.
  pose proof (occurrences_nonneg keys t).
  destruct (Z.eqb_spec (occurrences keys t) 0) as [E|Hnz].
  - split; [discriminate | intros [-> Hpos]; lia].
  - split; [intros [= <-]; split; [reflexivity | lia] | now intros [-> _]].
Qed.

(** X6: [get_tag_statistics] lists every lower-cased tag once, with the
    number of its occurrences over all files, by counts that never increase
    along the list; the counts add up to the number of tags. *)
Theorem get_tag_statistics_spec (all_files_tags : list (list string)) :
  let stats := get_tag_statistics lower all_files_tags in
  let all_tags := map lower (concat all_files_tags) in
  NoDup (map fst stats)
  /\ (forall t n, (t, n) ∈ stats <-> n = occurrences all_tags t /\ (0 < n)%Z)
  /\ total stats = Z.of_nat (length (concat all_files_tags))
  /\ descending count_ltb stats.
Proof.
  intros stats all_tags.
  assert (Htally : tally_of stats all_tags).
  { apply (tally_of_perm (count_all_tags lower all_files_tags [])).
    - symmetry. apply PyFacts.sorted_reverse_perm.
    - rewrite count_all_tags_tally. apply (tally_of_tally _ []), tally_of_nil. }
  split; [apply Htally|]. split; [|split].
  - intros t n. now apply tally_of_elem.
  - destruct Htally as (_ & _ & ->). unfold all_tags. now rewrite length_map.
  - apply PyFacts.sorted_reverse_descending, count_ltb_asym.
Qed.

End WithLower.

Example get_tag_statistics_example :
  get_tag_statistics Py.ascii_lower
    [["pdf"; "Report"]; ["image"; "PDF"]; ["report"; "pdf"]]
  = [("pdf", 3%Z); ("report", 2%Z); ("image", 1%Z)].
Proof. vm_compute. reflexivity. Qed.

Example search_by_tags_example :
  search_by_tags Py.ascii_lower ["PDF"; "video"] ["image"; "pdf"] = true.
Proof. vm_compute. reflexivity. Qed.

End TagQueriesSpec.

(** ** The queries of the storage service *)

Module StorageSpec.

Import StorageService PyMore Terms TermsMore DictFacts.

Section WithLower.
Variable lower : string -> string.

Lemma tag_match_search (search_tags file_tags : list string) :
  existsb
    (fun tag =>
       bool_decide (lower tag ∈ (list_to_set (map lower search_tags) : gset string)))
    file_tags
  = TagQueries.search_by_tags lower search_tags file_tags.
Proof.
  apply eq_true_iff_eq.
  rewrite existsb_exists, TagQueriesSpec.search_by_tags_true. split.
  - intros (b & Hb & Hin). apply bool_decide_eq_true in Hin.
    apply elem_of_list_to_set, list_elem_of_fmap in Hin as (a & Hab & Ha).
    exists a, b. repeat split; [assumption | now apply list_elem_of_In | congruence].
  - intros (a & b & Ha & Hb & Hab). exists b.
    split; [now apply list_elem_of_In|].
    apply bool_decide_eq_true, elem_of_list_to_set, list_elem_of_fmap.
    exists a. split; [congruence | assumption].
Qed.

(** X7: [get_files_by_tags] returns, in the order of the table, exactly the
    rows whose tags [TagAnalyzer.search_by_tags] matches against the search
    tags. *)
Theorem get_files_by_tags_search (files : list FileModel)
    (search_tags : list string) :
  get_files_by_tags lower files search_tags
  = List.filter
      (fun f => TagQueries.search_by_tags lower search_tags (tags f)) files
  /\ (forall f,
        f ∈ get_files_by_tags lower files search_tags <->
        (f ∈ files)
        /\ exists a b, (a ∈ search_tags) /\ (b ∈ tags f) /\ lower a = lower b)
  /\ get_files_by_tags lower files [] = [].
Proof.
  assert (Heq : forall search,
            get_files_by_tags lower files search
            = List.filter
                (fun f => TagQueries.search_by_tags lower search (tags f))
                files).
  { intros search. unfold get_files_by_tags. apply filter_ext. intros f.
    apply tag_match_search. }
  split; [apply Heq|]. split.
  - intros f. rewrite Heq, list_elem_of_In, filter_In, <- list_elem_of_In.
    now rewrite TagQueriesSpec.search_by_tags_true.
  - rewrite Heq. clear Heq.
    induction files as [|f files IH]; simpl; [reflexivity|].
    rewrite IH.
    destruct (TagQueries.search_by_tags lower [] (tags f)) eqn:Hs;
      [|reflexivity].
    apply TagQueriesSpec.search_by_tags_true in Hs as (a & _ & Ha & _).
    now apply elem_of_nil in Ha.
Qed.

Lemma count_categories_tally (files : list FileModel)
    (d : list (string * Z)) :
  count_categories files d = tally (map category files) d.
Proof.
  revert d. induction files as [|f files IH]; intros d; simpl;
    [reflexivity | apply IH].
Qed.

Lemma count_tags_all (files : list FileModel) (d : list (string * Z)) :
  count_tags lower files d
  = TagQueries.count_all_tags lower (map tags files) d.
Proof.
  revert d. induction files as [|f files IH]; intros d; simpl;
    [reflexivity | apply IH].
Qed.

Lemma occurrences_category (files : list FileModel) (cat : string) :
  occurrences (map category files) cat
  = Z.of_nat (length (get_files_by_category files cat)).
Proof.
  unfold occurrences, get_files_by_category. f_equal.
  induction files as [|f files IH]; simpl; [reflexivity|].
  destruct (String.string_dec (category f) cat) as [->|Hne].
  - rewrite String.eqb_refl. simpl. now rewrite IH.
  - destruct (String.eqb_spec (category f) cat); [contradiction | exact IH].
Qed.

(** X8: in [get_statistics], the count of every category is the number of
    rows [get_files_by_category] returns for it, categories without a row
    are absent, the category counts add up to [total_files], and [top_tags]
    are the first ten entries of [TagAnalyzer.get_tag_statistics] over the
    tags of the rows. *)
Theorem get_statistics_spec (files : list FileModel) :
  let stats := get_statistics lower files in
  NoDup (map fst (categories stats))
  /\ (forall cat n,
        (cat, n) ∈ categories stats <->
        n = Z.of_nat (length (get_files_by_category files cat)) /\ (0 < n)%Z)
  /\ total (categories stats) = total_files stats
  /\ top_tags stats
     = take 10 (TagQueries.get_tag_statistics lower (map tags files))
  /\ length (top_tags stats) <= 10.
Proof.
  intros stats.
  assert (Htally : tally_of (categories stats) (map category files)).
  { unfold stats, get_statistics. simpl. rewrite count_categories_tally.
    apply (tally_of_tally _ []), tally_of_nil. }
  assert (Htop : top_tags stats
                 = take 10 (TagQueries.get_tag_statistics lower (map tags files))).
  { unfold stats, get_statistics. simpl.
    rewrite count_tags_all. reflexivity. }
  split; [apply Htally|]. split; [|split; [|split]].
  - intros cat n. rewrite <- occurrences_category.
    now apply TagQueriesSpec.tally_of_elem.
  - destruct Htally as (_ & _ & ->). unfold stats, get_statistics. simpl.
    now rewrite length_map.
  - exact Htop.
  - rewrite Htop, length_take. lia.
Qed.

(** [get_file_by_id] returns the first row with the identifier, and
    nothing exactly when no row has it. *)
Lemma get_file_by_id_spec (files : list FileModel) (file_id : Z) :
  (forall f, get_file_by_id files file_id = Some f ->
     (f ∈ files) /\ id f = file_id
     /\ exists before after,
          files = before ++ f :: after
          /\ forall g, g ∈ before -> id g <> file_id)
  /\ (get_file_by_id files file_id = None <->
      forall f, f ∈ files -> id f <> file_id).
Proof.
  unfold get_file_by_id. split.
  - induction files as [|g files IH]; simpl; [discriminate|].
    intros f. destruct (Z.eqb_spec (id g) file_id) as [E|Hne].
    + intros [= <-]. split; [left|]. split; [exact E|].
      exists [], files. split; [reflexivity|].
      intros h Hh. now apply elem_of_nil in Hh.
    + intros Hf. destruct (IH f Hf) as (Hin & Hid & before & after & -> & Hb).
      split; [now right|]. split; [exact Hid|].
      exists (g :: before), after. split; [reflexivity|].
      intros h [->|Hh]%elem_of_cons; [exact Hne | now apply Hb].
  - induction files as [|g files IH]; simpl.
    + split; [intros _ f Hf; now apply elem_of_nil in Hf | reflexivity].
    + destruct (Z.eqb_spec (id g) file_id) as [E|Hne].
      * split; [discriminate|]. intros H. exfalso. apply (H g); [left|exact E].
      * rewrite IH. split.
        -- intros H f [->|Hf]%elem_of_cons; [exact Hne | now apply H].
        -- intros H f Hf. apply H. now right.
Qed.

End WithLower.

End StorageSpec.

(** ** The upload validators *)

Module ValidatorSpec.

Import FileValidator PyMore TermsMore.

Lemma contains_char (c : ascii) (s : string) :
  Py.contains (String c EmptyString) s = true <-> c ∈ chars s.
Proof.
  induction s as [|d s IH]; simpl.
  - split; [discriminate | intros H; now apply elem_of_nil in H].
  - rewrite orb_true_iff, IH, elem_of_cons.
    destruct (ascii_dec c d) as [->|Hne].
    + split; [now left | intros _; left].
      destruct s; reflexivity.
    + split; [intros [H|H]; [discriminate | now right] | ].
      intros [H|H]; [contradiction | now right].
Qed.

Lemma after_last_None (c : ascii) (s : string) :
  after_last c s = None <-> c ∉ chars s.
Proof.
  induction s as [|d s IH]; simpl.
  - split; [intros _ H; now apply elem_of_nil in H | reflexivity].
  - rewrite not_elem_of_cons. destruct (after_last c s) as [r|].
    + split; [discriminate|]. intros [_ H]. now apply IH in H.
    + destruct (Ascii.eqb_spec c d) as [->|Hne].
      * split; [discriminate | intros [H _]; contradiction].
      * split; [intros _; split; [assumption | now apply IH] | reflexivity].
Qed.

Lemma after_last_Some (c : ascii) (s r : string) :
  after_last c s = Some r <->
  exists base, s = (base ++ String c r)%string /\ (c ∉ chars r).
Proof.
  revert r. induction s as [|d s IH]; intros r; simpl.
  - split; [discriminate|]. intros ([|? ?] & H & _); discriminate.
  - destruct (after_last c s) as [r'|] eqn:Hs.
    + split.
      * intros [= <-]. destruct (proj1 (IH r') eq_refl) as (base & -> & Hr).
        exists (String d base). split; [reflexivity | assumption].
      * intros (base & Heq & Hr). f_equal.
        destruct base as [|e base]; simpl in Heq; injection Heq as -> ->.
        -- apply after_last_None in Hr. congruence.
        -- assert (H : Some r' = Some r) by (apply IH; now exists base).
           congruence.
    + apply after_last_None in Hs.
      destruct (Ascii.eqb_spec c d) as [->|Hne].
      * split.
        -- intros [= <-]. exists EmptyString. split; [reflexivity | assumption].
        -- intros (base & Heq & Hr). f_equal.
           destruct base as [|e base]; simpl in Heq; injection Heq as ->.
           ++ congruence.
           ++ exfalso. apply Hs. subst s. clear.
              induction base as [|x base IH]; simpl; [left | now right].
      * split; [discriminate|]. intros (base & Heq & Hr).
        destruct base as [|e base]; simpl in Heq; injection Heq as ->.
        -- contradiction.
        -- exfalso. apply Hs. subst s. clear.
           induction base as [|x base IH]; simpl; [left | now right].
Qed.

Section WithRuntime.
Variable lower : string -> string.
Variable strip : string -> string.

(** X9: [is_allowed_extension] accepts a file name exactly when it has a
    dot and the lower-cased text after its last dot, with the dot put
    back, is an allowed extension; earlier dots and the case of the
    extension do not matter. *)
Theorem is_allowed_extension_spec (filename : string) :
  is_allowed_extension lower filename = true <->
  exists base ext,
    filename = (base ++ "." ++ ext)%string
    /\ ("."%char ∉ chars ext)
    /\ (("." ++ lower ext)%string ∈ ALL_ALLOWED_EXTENSIONS).
Proof.
  unfold is_allowed_extension.
  destruct (Py.contains "." filename) eqn:Hdot; simpl.
  - destruct (after_last "." filename) as [part|] eqn:Hpart.
    + rewrite bool_decide_eq_true.
      apply after_last_Some in Hpart as (base & -> & Hpart). split.
      * intros Hin. now exists base, part.
      * intros (base' & ext & Heq & Hext & Hin).
        assert (H : after_last "." (base ++ String "." part) = Some ext)
          by (rewrite Heq; apply after_last_Some; now exists base').
        assert (H' : after_last "." (base ++ String "." part) = Some part)
          by (apply after_last_Some; now exists base).
        congruence.
    + apply after_last_None in Hpart.
      apply contains_char in Hdot. contradiction.
  - split; [discriminate|]. intros (base & ext & -> & _).
    assert (H : Py.contains "." (base ++ "." ++ ext) = true).
    { apply contains_char. clear.
      induction base as [|x base IH]; simpl; [left | now right]. }
    congruence.
Qed.

Lemma forbidden_chars_ascii :
  forbidden_chars
  = map (fun c => String c EmptyString)
      (map ascii_of_nat [47; 92; 60; 62; 58; 34; 124; 63; 42]).
Proof. reflexivity. Qed.

Lemma validate_filename_message (filename : string) :
  validate_filename strip filename = (true, None)
  \/ exists message, validate_filename strip filename = (false, Some message).
Proof.
  unfold validate_filename. case_match; [right; eauto|].
  case_match; [right; eauto|]. case_match; [right; eauto | now left].
Qed.

(** X10: [validate_filename] accepts exactly the names that are not empty,
    not blank, at most 255 characters long and free of the nine forbidden
    characters (codes 47, 92, 60, 62, 58, 34, 124, 63, 42); every rejection
    carries a message. *)
Theorem validate_filename_spec (filename : string) :
  (validate_filename strip filename = (true, None) <->
   filename <> "" /\ strip filename <> ""
   /\ PyMore.len filename <= 255
   /\ forall c, c ∈ map ascii_of_nat [47; 92; 60; 62; 58; 34; 124; 63; 42] ->
        c ∉ chars filename)
  /\ (validate_filename strip filename = (true, None)
      \/ exists message, validate_filename strip filename = (false, Some message)).
Proof.
  unfold validate_filename. rewrite forbidden_chars_ascii.
  destruct (String.eqb_spec filename "") as [He|He]; cbn [orb].
  { split; [|right; eauto]. split; [discriminate | tauto]. }
  destruct (String.eqb_spec (strip filename) "") as [Hs|Hs]; cbn [orb].
  { split; [|right; eauto]. split; [discriminate | tauto]. }
  destruct (Nat.ltb_spec 255 (len filename)) as [Hl|Hl].
  { split; [|right; eauto]. split; [discriminate | intros (_ & _ & H & _); lia]. }
  destruct (existsb _ _) eqn:Hex.
  - split; [|right; eauto]. split; [discriminate|].
    intros (_ & _ & _ & Hf).
    apply existsb_exists in Hex as (s & Hs' & Hc).
    apply in_map_iff in Hs' as (c & <- & Hin).
    apply contains_char in Hc. apply list_elem_of_In in Hin.
    now apply Hf in Hin.
  - split; [|now left]. split; [|reflexivity]. intros _.
    split; [assumption|]. split; [assumption|]. split; [lia|].
    intros c Hin Hc. apply list_elem_of_In in Hin.
    assert (H : existsb (fun char => Py.contains char filename)
                  (map (fun c => String c EmptyString)
                     (map ascii_of_nat [47; 92; 60; 62; 58; 34; 124; 63; 42]))
                = true).
    { apply existsb_exists. exists (String c EmptyString).
      split; [|now apply contains_char].
      apply (in_map (fun c => String c EmptyString)). exact Hin. }
    congruence.
Qed.

(** X11: [validate_file] accepts exactly the uploads whose name passes
    [validate_filename] and [is_allowed_extension] and whose stream has at
    most [MAX_FILE_SIZE] bytes; it reports the first check that fails, and
    it leaves the name and the size of the upload as they are and the stream
    either untouched or rewound to the start. *)
Theorem validate_file_spec (file : upload) :
  let '((ok, message), file') := validate_file lower strip file in
  (ok = true <->
   validate_filename strip (filename file) = (true, None)
   /\ is_allowed_extension lower (filename file) = true
   /\ (stream_size file <= MAX_FILE_SIZE)%Z)
  /\ (ok = true -> message = None)
  /\ (ok = false -> exists text, message = Some text)
  /\ (fst (validate_filename strip (filename file)) = false ->
      message = snd (validate_filename strip (filename file)))
  /\ filename file' = filename file
  /\ stream_size file' = stream_size file
  /\ (position file' = position file \/ position file' = 0%Z).
Proof.
  unfold validate_file.
  destruct (validate_filename_message (filename file)) as [Hv|[text Hv]];
    rewrite Hv; simpl.
  - destruct (is_allowed_extension lower (filename file)); simpl.
    + destruct (Z.leb_spec (stream_size file) MAX_FILE_SIZE); simpl.
      * repeat split; try tauto; try discriminate; auto.
      * repeat split; try tauto; try discriminate; eauto;
          try (intros (_ & _ & H'); lia).
    + repeat split; try tauto; try discriminate; eauto;
        try (intros (_ & H' & _); discriminate).
  - repeat split; try tauto; try discriminate; eauto;
      try (intros (H' & _); discriminate).
Qed.

End WithRuntime.

Example is_allowed_extension_double :
  FileValidator.is_allowed_extension Py.ascii_lower "setup.exe.PNG" = true.
Proof. vm_compute. reflexivity. Qed.

Example is_allowed_extension_trailing_dot :
  FileValidator.is_allowed_extension Py.ascii_lower "notes." = false.
Proof. vm_compute. reflexivity. Qed.

Example validate_file_too_large :
  validate_file Py.ascii_lower (fun s => s)
    {| filename := "film.mp4"; stream_size := 52428801; position := 17 |}
  = ((false, Some "Arquivo muito grande. Tamanho máximo: 50.0 MB."),
     {| filename := "film.mp4"; stream_size := 52428801; position := 0 |}).
Proof. vm_compute. reflexivity. Qed.

End ValidatorSpec.

(** ** More on the local content analyzers *)

Module FileProcessorMore.

Import FileProcessor ExcFacts Terms TermsMore Samples.

Lemma is_ascii_lower (s : string) :
  Py.is_ascii s = true -> Py.is_ascii (Py.ascii_lower s) = true.
Proof.
  induction s as [|c s IH]; simpl; [reflexivity|].
  intros [Hc Hs]%andb_true_iff. rewrite (IH Hs), andb_true_r.
  revert Hc. destruct c as [[] [] [] [] [] [] [] []]; vm_compute; congruence.
Qed.

Lemma is_ascii_syn (s : string) :
  Py.is_ascii s = true -> Py.is_ascii (syn s) = true.
Proof.
  intros Hs. unfold syn, Py.dict_get.
  destruct (TagAnalyzer.TAG_SYNONYMS !! s) as [v|] eqn:Hv; [|exact Hs].
  now destruct (TagAnalyzerSpec.TAG_SYNONYMS_canonical _ _ Hv) as [H _].
Qed.

Section Analyzers.
Variable lower : string -> string.
Variable split : string -> list string.
Variable list_of_set : gset string -> list string.
Variable MIN_TAG_CONFIDENCE : float.
Variable pow : float -> float -> float.
Variable w : World.
Variable max_tags : Z.

Hypothesis lower_ascii :
  forall s, Py.is_ascii s = true -> lower s = Py.ascii_lower s.

(** On ASCII tags the pipeline does not depend on how [str.lower] treats
    other characters. *)
Lemma process_tags_ascii (raw_tags : list string) :
  Forall (fun t => Py.is_ascii t = true) raw_tags ->
  TagAnalyzer.process_tags lower max_tags raw_tags
  = TagAnalyzer.process_tags Py.ascii_lower max_tags raw_tags.
Proof.
  intros Hascii. unfold TagAnalyzer.process_tags. f_equal.
  assert (Hnorm : TagAnalyzer.normalize_tags lower raw_tags
                  = TagAnalyzer.normalize_tags Py.ascii_lower raw_tags).
  { induction Hascii as [|t ts Ht Hts IH]; simpl; [reflexivity|].
    now rewrite IH, (lower_ascii t Ht). }
  rewrite Hnorm. clear Hnorm.
  assert (Hn : Forall (fun t => Py.is_ascii t = true)
                 (TagAnalyzer.normalize_tags Py.ascii_lower raw_tags)).
  { induction Hascii as [|t ts Ht Hts IH]; simpl; [constructor|].
    constructor; [|exact IH]. apply is_ascii_syn, is_ascii_lower, Ht. }
  unfold TagAnalyzer.filter_tags. clear Hascii.
  generalize (∅ : gset string) as seen. generalize (@nil string) as acc.
  induction Hn as [|t ts Ht Hts IH]; intros acc seen; simpl; [reflexivity|].
  rewrite (lower_ascii t Ht). destruct (_ && _); apply IH.
Qed.

Lemma process_tags_small (raw_tags result : list string) :
  Forall (fun t => Py.is_ascii t = true) raw_tags ->
  Py.sorted_reverse TagAnalyzer.tag_ltb
    (TagAnalyzer.filter_tags Py.ascii_lower
       (TagAnalyzer.normalize_tags Py.ascii_lower raw_tags)) = result ->
  (Z.of_nat (length result) <= max_tags)%Z ->
  TagAnalyzer.process_tags lower max_tags raw_tags = result.
Proof.
  intros Hascii Hsorted Hlen. rewrite process_tags_ascii by assumption.
  unfold TagAnalyzer.process_tags, TagAnalyzer.prioritize_tags.
  rewrite Hsorted. now apply PyFacts.slice_to_short.
Qed.

Lemma analyze_image_local_open_failure (self : t) (file_path : string)
    (e : exn) :
  Image_open w file_path = Raise e ->
  fst (run (analyze_image_local lower MIN_TAG_CONFIDENCE pow w self file_path))
  = Ret ["image"; "unknown"].
Proof.
  intros He. unfold run, analyze_image_local.
  erewrite try_except_raise; [reflexivity|].
  apply bind_raise. unfold image_local_block.
  apply bind_raise. unfold opening. now rewrite He.
Qed.

Lemma analyze_pdf_failure (self : t) (file_path : string) :
  pdf_failure w file_path ->
  fst (run (analyze_pdf lower split list_of_set w self file_path))
  = Ret ["pdf"; "document"; "error"].
Proof.
  intros [[e He]|(pages & e & Hpages & Hin)]; unfold run, analyze_pdf.
  - erewrite try_except_raise; [reflexivity|].
    apply bind_raise. unfold opening. now rewrite He.
  - destruct (FileProcessorSpec.extract_texts_failure _ e ([] ++ [file_path]) Hin)
      as [e' He'].
    erewrite try_except_raise; [reflexivity|].
    erewrite bind_ret; [|unfold opening; now rewrite Hpages].
    eapply bind_raise. exact He'.
Qed.

Lemma analyze_text_failure (self : t) (file_path : string) (e : exn) :
  read_text w file_path = Raise e ->
  fst (run (analyze_text lower w self file_path)) = Ret ["text"; "error"].
Proof.
  intros He. unfold run, analyze_text.
  erewrite try_except_raise; [reflexivity|].
  apply bind_raise. unfold opening. now rewrite He.
Qed.

(** X12: the sentinels of the fallbacks never reach the final tags.  With a
    maximum of at least two tags, a failed image analysis ends as [image], a
    failed PDF analysis as [document, pdf], a failed text analysis as
    [text], and a file whose type cannot be guessed, or whose category is
    [other], ends with no tag at all. *)
Theorem fallback_tags_processed (self : t) (file_path : string) :
  (2 <= max_tags)%Z ->
  (forall e, Image_open w file_path = Raise e ->
     TagAnalyzer.process_tags lower max_tags
       (tags_of (run (analyze_image_local lower MIN_TAG_CONFIDENCE pow w self
                        file_path)))
     = ["image"])
  /\ (pdf_failure w file_path ->
      TagAnalyzer.process_tags lower max_tags
        (tags_of (run (analyze_pdf lower split list_of_set w self file_path)))
      = ["document"; "pdf"])
  /\ (forall e, read_text w file_path = Raise e ->
        TagAnalyzer.process_tags lower max_tags
          (tags_of (run (analyze_text lower w self file_path)))
        = ["text"])
  /\ (forall mime_type, get_file_category mime_type = "other" ->
        TagAnalyzer.process_tags lower max_tags
          (tags_of (run (analyze_file lower split list_of_set
                           MIN_TAG_CONFIDENCE pow w self file_path mime_type)))
        = [])
  /\ (forall guess_type filename,
        guess_type filename = None ->
        get_file_category (Batch.get_file_type guess_type filename) = "other").
Proof.
  intros Hmax. split; [|split; [|split; [|split]]].
  - intros e He. unfold tags_of.
    rewrite (analyze_image_local_open_failure self file_path e He).
    apply process_tags_small; [repeat constructor | vm_compute; reflexivity |].
    simpl. lia.
  - intros Hfail. unfold tags_of. rewrite (analyze_pdf_failure self _ Hfail).
    apply process_tags_small; [repeat constructor | vm_compute; reflexivity |].
    simpl. lia.
  - intros e He. unfold tags_of. rewrite (analyze_text_failure self _ e He).
    apply process_tags_small; [repeat constructor | vm_compute; reflexivity |].
    simpl. lia.
  - intros mime_type Hcat. unfold tags_of, run, analyze_file.
    rewrite Hcat. rewrite not_elem_of_list_to_map_1.
    + simpl.
      apply process_tags_small; [repeat constructor | vm_compute; reflexivity |].
      simpl. lia.
    + simpl. intros H.
      repeat (apply elem_of_cons in H as [H|H]; [discriminate|]).
      now apply elem_of_nil in H.
  - intros guess_type filename Hguess. unfold Batch.get_file_type.
    rewrite Hguess. vm_compute. reflexivity.
Qed.

End Analyzers.

Lemma fallback_tags_processed_witness :
  TagAnalyzer.process_tags Py.ascii_lower 15
    (tags_of (run (analyze_pdf Py.ascii_lower (fun s => [s]) elements
                     world_truncated_jpeg no_vision "scan.pdf")))
  = ["document"; "pdf"].
Proof.
  apply (proj1 (proj2 (fallback_tags_processed Py.ascii_lower (fun s => [s])
           elements 0.7%float sqrt_pow world_truncated_jpeg 15 (fun s _ => eq_refl)
           no_vision "scan.pdf" ltac:(lia)))).
  left. exists (Exception "EOF marker not found"). reflexivity.
Defined.

End FileProcessorMore.

(** ** The shape of what the analyzers return *)

Module AnalyzerShapes.

Import FileProcessor ExcFacts Terms TermsMore Samples.

Ltac case_ifs :=
  repeat match goal with
         | |- context [if ?c then _ else _] => destruct c
         end.

Ltac list_member :=
  repeat (first [apply list_elem_of_here | apply list_elem_of_further]).

Lemma dominant_color_appends (img : ImageFile) (tags : list string)
    (log : list string) :
  exists extra,
    _analyze_dominant_color img tags log = (Ret (tags ++ extra), log)
    /\ extra ∈ [[]; ["red"]; ["green"]; ["blue"]; ["bright"]; ["dark"]].
Proof.
  unfold _analyze_dominant_color, try_except, mbind, M_bind, Exc.bind, lift.
  destruct (resized_pixel img) as [[v| |[|r [|g [|b rest]]]]|e];
    unfold mret, M_ret, Exc.ret; case_ifs;
    first [ exists []; rewrite app_nil_r; split; [reflexivity | list_member]
          | eexists; split; [reflexivity | list_member] ].
Qed.

(** X13: [_analyze_dominant_color] never raises and opens no file; it keeps
    the tags it is given and appends at most one of [red], [green], [blue],
    [bright], [dark]; for a single-band pixel, and when the pixel cannot be
    computed, it appends nothing. *)
Theorem analyze_dominant_color_spec (img : ImageFile) (tags : list string)
    (log : list string) :
  (exists extra,
     _analyze_dominant_color img tags log = (Ret (tags ++ extra), log)
     /\ extra ∈ [[]; ["red"]; ["green"]; ["blue"]; ["bright"]; ["dark"]])
  /\ (forall v, resized_pixel img = Ret (PInt v) ->
        _analyze_dominant_color img tags log = (Ret tags, log))
  /\ (forall e, resized_pixel img = Raise e ->
        _analyze_dominant_color img tags log = (Ret tags, log)).
Proof.
  split; [apply dominant_color_appends|].
  unfold _analyze_dominant_color, try_except, mbind, M_bind, Exc.bind, lift.
  split.
  - intros v ->. reflexivity.
  - intros e ->. reflexivity.
Qed.

Section Analyzers.
Variable lower : string -> string.
Variable w : World.

(** X14: [analyze_video] and [analyze_audio] never raise and never open the
    file: they return their base tag and [media], followed by at most two,
    respectively three, tags of the extension, and by nothing when the
    lower-cased path ends with none of the known extensions. *)
Theorem analyze_media_spec (self : t) (file_path : string)
    (log : list string) :
  (exists extras,
     analyze_video lower self file_path log
     = (Ret ("video" :: "media" :: extras), log)
     /\ length extras <= 2
     /\ ((forall ext, ext ∈ [".mp4"; ".avi"; ".mov"; ".mkv"; ".webm"] ->
            Py.endswith (lower file_path) ext = false) ->
         extras = []))
  /\ (exists extras,
        analyze_audio lower self file_path log
        = (Ret ("audio" :: "media" :: extras), log)
        /\ length extras <= 3
        /\ ((forall ext, ext ∈ [".mp3"; ".wav"; ".flac"; ".ogg"; ".m4a"] ->
               Py.endswith (lower file_path) ext = false) ->
            extras = [])).
Proof.
  unfold analyze_video, analyze_audio, _analyze_media_ext.
  cbn [Py.first_item].
  split.
  - destruct (Py.endswith (lower file_path) ".mp4") eqn:H1;
      [|destruct (Py.endswith (lower file_path) ".avi") eqn:H2;
        [|destruct (Py.endswith (lower file_path) ".mov") eqn:H3;
          [|destruct (Py.endswith (lower file_path) ".mkv") eqn:H4;
            [|destruct (Py.endswith (lower file_path) ".webm") eqn:H5]]]];
      eexists; (split; [reflexivity|]); (split; [simpl; lia|]);
      intros Hnone; try reflexivity; exfalso.
    + rewrite Hnone in H1 by list_member. discriminate.
    + rewrite Hnone in H2 by list_member. discriminate.
    + rewrite Hnone in H3 by list_member. discriminate.
    + rewrite Hnone in H4 by list_member. discriminate.
    + rewrite Hnone in H5 by list_member. discriminate.
  - destruct (Py.endswith (lower file_path) ".mp3") eqn:H1;
      [|destruct (Py.endswith (lower file_path) ".wav") eqn:H2;
        [|destruct (Py.endswith (lower file_path) ".flac") eqn:H3;
          [|destruct (Py.endswith (lower file_path) ".ogg") eqn:H4;
            [|destruct (Py.endswith (lower file_path) ".m4a") eqn:H5]]]];
      eexists; (split; [reflexivity|]); (split; [simpl; lia|]);
      intros Hnone; try reflexivity; exfalso.
    + rewrite Hnone in H1 by list_member. discriminate.
    + rewrite Hnone in H2 by list_member. discriminate.
    + rewrite Hnone in H3 by list_member. discriminate.
    + rewrite Hnone in H4 by list_member. discriminate.
    + rewrite Hnone in H5 by list_member. discriminate.
Qed.

End Analyzers.

Section TextAndImage.
Variable lower : string -> string.
Variable MIN_TAG_CONFIDENCE : float.
Variable pow : float -> float -> float.
Variable w : World.

(** No rule of [TEXT_ANALYSIS_MAP] gives the tag [large-file]. *)
Lemma text_rule_no_large_file (config : text_rule) (content : string) :
  In config (TEXT_ANALYSIS_MAP lower) ->
  "large-file" ∉ rule_tags config
                 ++ match check config with
                    | Some f => f content
                    | None => []
                    end.
Proof.
  unfold TEXT_ANALYSIS_MAP. intros Hin.
  repeat (destruct Hin as [<-|Hin]; [cbn [rule_tags check]; case_ifs;
    let H := fresh in
    intros H; cbn [app] in H;
    repeat (apply elem_of_cons in H as [H|H]; [discriminate|]);
    now apply elem_of_nil in H |]).
  destruct Hin.
Qed.

Lemma find_first {A} (p : A -> bool) (before after : list A) (x : A) :
  p x = true ->
  (forall y, In y before -> p y = false) ->
  find p (before ++ x :: after) = Some x.
Proof.
  intros Hx. induction before as [|y before IH]; intros Hbefore; simpl.
  - now rewrite Hx.
  - rewrite (Hbefore y) by now left. apply IH.
    intros z Hz. apply Hbefore. now right.
Qed.

(** X15: for a file that can be read, [analyze_text] opens it once and
    returns [text], then the tags of the first rule of [TEXT_ANALYSIS_MAP]
    one of whose extensions ends the lower-cased path, followed by what the
    check of that rule gives on the content read, and nothing of the kind
    when no rule matches; then [large-file], exactly when the content read
    has more than 100 line feeds. *)
Theorem analyze_text_spec (self : t) (file_path content : string) :
  read_text w file_path = Ret content ->
  exists of_rule large,
    run (analyze_text lower w self file_path)
    = (Ret (["text"] ++ of_rule ++ large), [file_path])
    /\ (forall before config after,
          TEXT_ANALYSIS_MAP lower = before ++ config :: after ->
          (exists ext,
             In ext (exts config)
             /\ Py.endswith (lower file_path) ext = true) ->
          (forall earlier ext,
             In earlier before -> In ext (exts earlier) ->
             Py.endswith (lower file_path) ext = false) ->
          of_rule
          = rule_tags config
            ++ match check config with
               | Some f => f content
               | None => []
               end)
    /\ ((forall config ext,
           In config (TEXT_ANALYSIS_MAP lower) -> In ext (exts config) ->
           Py.endswith (lower file_path) ext = false) ->
        of_rule = [])
    /\ ("large-file" ∉ of_rule)
    /\ (100 < Py.count_char LF content -> large = ["large-file"])
    /\ (Py.count_char LF content <= 100 -> large = []).
Proof.
  intros Hread. unfold run, analyze_text.
  set (matches := fun config : text_rule =>
         existsb (fun ext => Py.endswith (lower file_path) ext) (exts config)).
  set (rule := find matches (TEXT_ANALYSIS_MAP lower)).
  set (rule_part := match rule with
                    | Some config =>
                        rule_tags config
                        ++ match check config with
                           | Some f => f content
                           | None => []
                           end
                    | None => []
                    end).
  exists rule_part,
    (if (100 <? Py.count_char LF content)%nat then ["large-file"] else []).
  split; [|split; [|split; [|split; [|split]]]].
  - erewrite try_except_ret; [reflexivity|].
    erewrite bind_ret; [|unfold opening; now rewrite Hread].
    fold matches. fold rule. unfold rule_part.
    destruct rule as [config|]; [destruct (check config)|];
      destruct (_ <? _)%nat; unfold mret, M_ret, Exc.ret; simpl;
      rewrite <- ?app_assoc, ?app_nil_r; reflexivity.
  - intros before config after Hmap (ext & Hext & Hends) Hbefore.
    unfold rule_part, rule. rewrite Hmap.
    rewrite (find_first matches before after config); [reflexivity| |].
    + unfold matches. apply existsb_exists. now exists ext.
    + intros earlier Hearlier. unfold matches.
      destruct (existsb _ (exts earlier)) eqn:Hex; [|reflexivity].
      apply existsb_exists in Hex as (ext' & Hext' & Hends').
      rewrite (Hbefore earlier ext' Hearlier Hext') in Hends'. discriminate.
  - intros Hno. unfold rule_part. destruct rule as [config|] eqn:Hrule;
      [|reflexivity].
    apply find_some in Hrule as [Hin Hex].
    apply existsb_exists in Hex as (ext & Hext & Hends).
    rewrite (Hno config ext Hin Hext) in Hends. discriminate.
  - unfold rule_part. destruct rule as [config|] eqn:Hrule.
    + apply text_rule_no_large_file. now apply find_some in Hrule as [H _].
    + intros H. now apply elem_of_nil in H.
  - intros Hlt. apply Nat.ltb_lt in Hlt. now rewrite Hlt.
  - intros Hle. apply Nat.ltb_ge in Hle. now rewrite Hle.
Qed.

Lemma ratio_tags_shape (img : ImageFile) :
  ratio_tags img
  ∈ [[]; ["square"; "balanced"]; ["landscape"; "wide"];
      ["portrait"; "vertical"]].
Proof.
  unfold ratio_tags. destruct (size img) as [width height].
  cbv zeta. case_ifs; list_member.
Qed.

(** X16: when the image can be opened, [analyze_image_local] returns, in
    this order: [image]; the lower-cased format, if there is one; one of the
    orientation pairs, or none; the resolution tier fixed by the number of
    pixels, [4k, ultra-hd] from 8294400, [high resolution, hd] from 2073600,
    [low resolution, sd] from 480000 and none below; the tags that
    [mode_map] has for the mode; at most one dominant-colour tag; and what
    the augmenter contributed. *)
Theorem analyze_image_local_success (self : t) (file_path : string)
    (img : ImageFile) :
  Image_open w file_path = Ret img ->
  let pixels := (fst (size img) * snd (size img))%Z in
  exists shape tier colour aug,
    fst (run (analyze_image_local lower MIN_TAG_CONFIDENCE pow w self
                file_path))
    = Ret (["image"] ++ format_tags lower img ++ shape ++ tier
           ++ Py.dict_get mode_map (mode img) [] ++ colour ++ aug)
    /\ shape ∈ [[]; ["square"; "balanced"]; ["landscape"; "wide"];
                ["portrait"; "vertical"]]
    /\ ((8294400 <= pixels)%Z -> tier = ["4k"; "ultra-hd"])
    /\ ((2073600 <= pixels < 8294400)%Z -> tier = ["high resolution"; "hd"])
    /\ ((480000 <= pixels < 2073600)%Z -> tier = ["low resolution"; "sd"])
    /\ ((pixels < 480000)%Z -> tier = [])
    /\ colour ∈ [[]; ["red"]; ["green"]; ["blue"]; ["bright"]; ["dark"]]
    /\ appended lower MIN_TAG_CONFIDENCE pow w (vision_service self)
         file_path aug.
Proof.
  intros Hopen pixels. destruct self as [vs].
  destruct (FileProcessorSpec.analyze_image_local_shape lower
              MIN_TAG_CONFIDENCE pow w vs file_path) as (aug & Hrun & Haug).
  destruct (dominant_color_appends img (header_tags lower img)
              ([] ++ [file_path])) as (colour & Hcolour & Hin).
  assert (Hlocal : local_tags lower w file_path
                   = header_tags lower img ++ colour).
  { unfold local_tags, run.
    rewrite (FileProcessorSpec.image_local_block_header lower w file_path img
               [] Hopen), Hcolour.
    reflexivity. }
  rewrite Hlocal in Hrun.
  exists (ratio_tags img), (resolution_tags pixels), colour, aug.
  split; [|split; [|split; [|split; [|split; [|split; [|split]]]]]].
  - rewrite Hrun. unfold header_tags. fold pixels.
    rewrite <- !app_assoc. reflexivity.
  - apply ratio_tags_shape.
  - intros H. unfold resolution_tags.
    destruct (Z.leb_spec 8294400 pixels); [reflexivity | lia].
  - intros H. unfold resolution_tags.
    destruct (Z.leb_spec 8294400 pixels); [lia|].
    destruct (Z.leb_spec 2073600 pixels); [reflexivity | lia].
  - intros H. unfold resolution_tags.
    destruct (Z.leb_spec 8294400 pixels); [lia|].
    destruct (Z.leb_spec 2073600 pixels); [lia|].
    destruct (Z.leb_spec 480000 pixels); [reflexivity | lia].
  - intros H. unfold resolution_tags.
    destruct (Z.leb_spec 8294400 pixels); [lia|].
    destruct (Z.leb_spec 2073600 pixels); [lia|].
    destruct (Z.leb_spec 480000 pixels); [lia | reflexivity].
  - exact Hin.
  - exact Haug.
Qed.

End TextAndImage.

(** X15 at a Python script. *)
Lemma analyze_text_spec_witness :
  exists of_rule large,
    run (analyze_text Py.ascii_lower world_script no_vision "uploads/Tool.PY")
    = (Ret (["text"] ++ of_rule ++ large), ["uploads/Tool.PY"])
    /\ of_rule = ["code"; "python"; "programming"; "script"]
    /\ large = [].
Proof.
  destruct (analyze_text_spec Py.ascii_lower world_script no_vision
              "uploads/Tool.PY" _ eq_refl)
    as (of_rule & large & Hrun & Hfirst & _ & _ & _ & Hsmall).
  exists of_rule, large. split; [exact Hrun|]. split.
  - apply (Hfirst [] _ _ eq_refl).
    + exists ".py". split; [now left | reflexivity].
    + intros earlier ext [].
  - apply Hsmall. vm_compute. lia.
Defined.

(** X16 at a full-HD image. *)
Lemma analyze_image_local_success_witness :
  exists shape tier colour aug,
    fst (run (analyze_image_local Py.ascii_lower 0.7%float sqrt_pow
                world_png no_vision "sky.png"))
    = Ret (["image"] ++ format_tags Py.ascii_lower bright_png ++ shape ++ tier
           ++ Py.dict_get mode_map (mode bright_png) [] ++ colour ++ aug)
    /\ tier = ["high resolution"; "hd"].
Proof.
  destruct (analyze_image_local_success Py.ascii_lower 0.7%float sqrt_pow
              world_png no_vision "sky.png" bright_png eq_refl)
    as (shape & tier & colour & aug & Hrun & _ & _ & Htier & _).
  exists shape, tier, colour, aug. split; [exact Hrun|].
  apply Htier. cbn. lia.
Defined.

End AnalyzerShapes.

(** ** More on the external label augmenter *)

Module VisionMore.

Import VisionService ExcFacts Terms TermsMore Samples.

Lemma first_item_Some {K V} (p : K -> V -> bool) (items : list (K * V))
    (k : K) (v : V) :
  Py.first_item p items = Some (k, v) ->
  exists before after,
    items = before ++ (k, v) :: after
    /\ p k v = true
    /\ forall k' v', (k', v') ∈ before -> p k' v' = false.
Proof.
  induction items as [|[k0 v0] items IH]; simpl; [discriminate|].
  destruct (p k0 v0) eqn:Hp.
  - intros [= -> ->]. exists [], items. repeat split; [assumption|].
    intros k' v' H. now apply elem_of_nil in H.
  - intros H. destruct (IH H) as (before & after & -> & Hkv & Hb).
    exists ((k0, v0) :: before), after. repeat split; [assumption|].
    intros k' v' [[= -> ->]|Hin]%elem_of_cons; [assumption | now apply Hb].
Qed.

Lemma first_item_None {K V} (p : K -> V -> bool) (items : list (K * V)) :
  Py.first_item p items = None <->
  forall k v, (k, v) ∈ items -> p k v = false.
Proof.
  induction items as [|[k0 v0] items IH]; simpl.
  - split; [intros _ k v H; now apply elem_of_nil in H | reflexivity].
  - destruct (p k0 v0) eqn:Hp.
    + split; [discriminate|]. intros H.
      rewrite (H k0 v0) in Hp by left. discriminate.
    + rewrite IH. split.
      * intros H k v [[= -> ->]|Hin]%elem_of_cons; [assumption | now apply H].
      * intros H k v Hin. apply H. now right.
Qed.

(** X17: [_get_label_category] returns the first category, in the order of
    [LABEL_CATEGORIES], one of whose keywords occurs in the label, and
    nothing exactly when no keyword of any category occurs in it. *)
Theorem get_label_category_spec (label : string) :
  (forall category,
     _get_label_category label = Some category ->
     exists before keywords after keyword,
       LABEL_CATEGORIES = before ++ (category, keywords) :: after
       /\ In keyword keywords
       /\ Py.contains keyword label = true
       /\ forall c kws kw,
            (c, kws) ∈ before -> In kw kws -> Py.contains kw label = false)
  /\ (_get_label_category label = None <->
      forall c kws kw,
        (c, kws) ∈ LABEL_CATEGORIES -> In kw kws ->
        Py.contains kw label = false).
Proof.
  unfold _get_label_category. split.
  - intros category.
    destruct (Py.first_item _ LABEL_CATEGORIES) as [[c kws]|] eqn:Hfirst;
      [|discriminate].
    intros [= ->]. apply first_item_Some in Hfirst
      as (before & after & Heq & Hex & Hbefore).
    apply existsb_exists in Hex as (keyword & Hin & Hc).
    exists before, kws, after, keyword. repeat split; try assumption.
    intros c' kws' kw Hin' Hkw.
    specialize (Hbefore c' kws' Hin').
    destruct (Py.contains kw label) eqn:Hkwc; [|reflexivity].
    assert (H : existsb (fun keyword => Py.contains keyword label) kws' = true)
      by (apply existsb_exists; now exists kw).
    congruence.
  - destruct (Py.first_item _ LABEL_CATEGORIES) as [[c kws]|] eqn:Hfirst.
    + split; [discriminate|]. intros Hnone. exfalso.
      apply first_item_Some in Hfirst as (before & after & Heq & Hex & _).
      apply existsb_exists in Hex as (keyword & Hin & Hc).
      rewrite (Hnone c kws keyword) in Hc; [discriminate| |assumption].
      rewrite Heq. apply elem_of_app. right. left.
    + split; [|reflexivity]. intros _ c kws kw Hin Hkw.
      rewrite first_item_None in Hfirst. specialize (Hfirst c kws Hin).
      destruct (Py.contains kw label) eqn:Hkwc; [|reflexivity].
      assert (H : existsb (fun keyword => Py.contains keyword label) kws = true)
        by (apply existsb_exists; now exists kw).
      congruence.
Qed.

Lemma ltb_key (x y : float) (a b : Z) :
  order_key x = Some a -> order_key y = Some b ->
  PrimFloat.ltb x y = (a <? b)%Z.
Proof.
  unfold order_key. rewrite FloatAxioms.ltb_spec. unfold SFltb, SFcompare.
  destruct (Prim2SF x) as [sx|sx| |sx mx ex], (Prim2SF y) as [sy|sy| |sy my ey];
    try discriminate;
    repeat match goal with
    | |- context [if ?c then Some _ else None] =>
        destruct c eqn:?; [|discriminate]
    end;
    intros [= <-] [= <-];
    repeat match goal with
    | H : (_ && _)%bool = true |- _ => apply andb_prop in H as [? ?]
    | H : (_ <? _)%Z = true |- _ => apply Z.ltb_lt in H
    end;
    try destruct sx; try destruct sy;
    try change (Pos.compare_cont Eq mx my) with (Pos.compare mx my);
    try (destruct (Z.compare_spec ex ey); try destruct (Pos.compare_spec mx my));
    cbn [CompOpp]; symmetry;
    first [ apply Z.ltb_lt; lia | apply Z.ltb_ge; lia ].
Qed.

Lemma separated_spec (n : nat) :
  forall s below,
    separated n s below = true ->
    forall k, (s <= k < s + Z.of_nat n)%Z ->
      exists lo mid hi,
        bracket k = Some (lo, mid, hi)
        /\ (below < lo)%Z /\ (lo <= mid)%Z /\ (mid <= hi)%Z
        /\ (hi < 1180591620717411303424)%Z
        /\ forall k', (k < k' < s + Z.of_nat n)%Z ->
             exists lo' mid' hi',
               bracket k' = Some (lo', mid', hi') /\ (hi < lo')%Z.
Proof.
  induction n as [|n IH]; intros s below Hsep k Hk; [lia|].
  cbn [separated] in Hsep.
  destruct (bracket s) as [[[lo mid] hi]|] eqn:Hs; [|discriminate].
  apply andb_prop in Hsep as [Hhere Hrest].
  apply andb_prop in Hhere as [Hhere H4].
  apply andb_prop in Hhere as [Hhere H3].
  apply andb_prop in Hhere as [H1 H2].
  apply Z.ltb_lt in H1, H4. apply Z.leb_le in H2, H3.
  destruct (Z.eq_dec k s) as [->|Hne].
  - exists lo, mid, hi. rewrite Hs.
    split; [reflexivity|]. split; [assumption|]. split; [assumption|].
    split; [assumption|]. split; [assumption|].
    intros k' Hk'.
    destruct (IH (s + 1)%Z hi Hrest k') as (lo' & mid' & hi' & Hb & Hlt & _);
      [lia|].
    exists lo', mid', hi'. split; assumption.
  - destruct (IH (s + 1)%Z hi Hrest k)
      as (lo' & mid' & hi' & Hb & Hlt & Hlm & Hmh & Hinf & Hnext); [lia|].
    exists lo', mid', hi'.
    split; [assumption|]. split; [lia|]. split; [assumption|].
    split; [assumption|]. split; [assumption|].
    intros k' Hk'. apply Hnext. lia.
Qed.

Lemma roots_separated :
  separated (Z.to_nat 195076) 0 (-1180591620717411303424) = true.
Proof. vm_compute. reflexivity. Qed.

Lemma root_keys (s : Z) :
  (0 <= s <= 195075)%Z ->
  exists lo mid hi,
    bracket s = Some (lo, mid, hi)
    /\ (lo <= mid)%Z /\ (mid <= hi)%Z /\ (hi < 1180591620717411303424)%Z.
Proof.
  intros Hs.
  destruct (separated_spec _ _ _ roots_separated s)
    as (lo & mid & hi & Hb & _ & H1 & H2 & H3 & _); [lia|].
  exists lo, mid, hi. repeat split; assumption.
Qed.

Lemma root_keys_lt (s1 s2 lo1 mid1 hi1 lo2 mid2 hi2 : Z) :
  (0 <= s1)%Z -> (s1 < s2)%Z -> (s2 <= 195075)%Z ->
  bracket s1 = Some (lo1, mid1, hi1) ->
  bracket s2 = Some (lo2, mid2, hi2) ->
  (hi1 < lo2)%Z.
Proof.
  intros H0 H12 HN Hb1 Hb2.
  destruct (separated_spec _ _ _ roots_separated s1)
    as (lo & mid & hi & Hb & _ & _ & _ & _ & Hnext); [lia|].
  destruct (Hnext s2) as (lo' & mid' & hi' & Hb' & Hlt); [lia|].
  congruence.
Qed.

Lemma square_bound (d : Z) :
  (-255 <= d <= 255)%Z -> (0 <= d * d <= 65025)%Z.
Proof.
  intros Hd. split; [apply Z.square_nonneg|].
  assert (0 <= (255 - d) * (255 + d))%Z by (apply Z.mul_nonneg_nonneg; lia).
  lia.
Qed.

Lemma distance2_bound (rgb known : Z * Z * Z) :
  channels rgb -> channels known ->
  (0 <= distance2 rgb known <= 195075)%Z.
Proof.
  destruct rgb as [[r g] b], known as [[r' g'] b']. unfold channels, distance2.
  intros (? & ? & ?) (? & ? & ?). rewrite !Z.pow_2_r.
  pose proof (square_bound (r - r')). pose proof (square_bound (g - g')).
  pose proof (square_bound (b - b')). lia.
Qed.

Lemma distance2_zero (rgb known : Z * Z * Z) :
  (distance2 rgb known <= 0)%Z -> known = rgb.
Proof.
  destruct rgb as [[r g] b], known as [[r' g'] b']. unfold distance2.
  rewrite !Z.pow_2_r. intros H.
  pose proof (Z.square_nonneg (r - r')). pose proof (Z.square_nonneg (g - g')).
  pose proof (Z.square_nonneg (b - b')).
  assert (Hr : ((r - r') * (r - r') = 0)%Z) by lia.
  assert (Hg : ((g - g') * (g - g') = 0)%Z) by lia.
  assert (Hb : ((b - b') * (b - b') = 0)%Z) by lia.
  apply Z.eq_mul_0 in Hr, Hg, Hb. repeat f_equal; lia.
Qed.

Lemma palette_channels (known : Z * Z * Z) (name : string) :
  (known, name) ∈ COLOR_NAMES -> channels known.
Proof.
  intros Hin.
  repeat (apply elem_of_cons in Hin as [Hin|Hin];
          [injection Hin as -> _; unfold channels; lia|]).
  now apply elem_of_nil in Hin.
Qed.

Lemma palette_functional (known : Z * Z * Z) (name name' : string) :
  (known, name) ∈ COLOR_NAMES -> (known, name') ∈ COLOR_NAMES -> name = name'.
Proof.
  intros Hin Hin'.
  repeat (apply elem_of_cons in Hin as [Hin|Hin];
          [injection Hin as -> ->;
           repeat (apply elem_of_cons in Hin' as [Hin'|Hin'];
                   [first [discriminate Hin' | now injection Hin' as ->]|]);
           now apply elem_of_nil in Hin'|]).
  now apply elem_of_nil in Hin.
Qed.

Section Colours.
Variable pow : float -> float -> float.

Lemma closest_loop_name (rgb : Z * Z * Z) (items : list ((Z * Z * Z) * string)) :
  forall m c m' c',
    closest_loop pow rgb items m c = Ret (m', c') ->
    c' = c \/ exists known name, c' = Some name /\ ((known, name) ∈ items).
Proof.
  induction items as [|[k0 n0] items IH]; intros m c m' c'; cbn [closest_loop].
  - intros [= _ <-]. now left.
  - destruct (distance pow rgb k0) as [d|e]; [|discriminate].
    destruct (PrimFloat.ltb d m); intros H; apply IH in H.
    + right. destruct H as [->|(known & name & -> & Hin)].
      * exists k0, n0. split; [reflexivity | left].
      * exists known, name. split; [reflexivity | now right].
    + destruct H as [->|(known & name & -> & Hin)]; [now left|].
      right. exists known, name. split; [reflexivity | now right].
Qed.

Lemma closest_color_palette (rgb : Z * Z * Z) (name : string) :
  _get_closest_color_name pow rgb = Ret (Some name) ->
  name ∈ map snd COLOR_NAMES.
Proof.
  unfold _get_closest_color_name.
  destruct (closest_loop pow rgb COLOR_NAMES infinity None) as [[m c]|e] eqn:Hl;
    [|discriminate].
  destruct (PrimFloat.ltb m 150); [|discriminate]. intros [= ->].
  apply closest_loop_name in Hl as [Hl|(known & name' & [= <-] & Hin)];
    [discriminate|].
  apply list_elem_of_fmap. now exists (known, name).
Qed.

Lemma colors_loop_spec (colors : list (Z * Z * Z)) :
  forall acc tags,
    colors_loop pow colors acc = Ret tags ->
    NoDup acc ->
    (forall t, t ∈ acc -> t ∈ map snd COLOR_NAMES) ->
    NoDup tags
    /\ (forall t, t ∈ tags -> t ∈ map snd COLOR_NAMES)
    /\ length tags <= length acc + length colors.
Proof.
  induction colors as [|rgb colors IH]; intros acc tags; cbn [colors_loop].
  - intros [= <-] Hnd Hpal. split; [assumption|]. split; [assumption|]. lia.
  - destruct (_get_closest_color_name pow rgb) as [[name|]|e] eqn:Hname;
      [| |discriminate].
    + destruct (bool_decide (name ∉ acc)) eqn:Hfresh; intros Hrun Hnd Hpal.
      * apply bool_decide_eq_true in Hfresh.
        destruct (IH _ _ Hrun) as (H1 & H2 & H3).
        -- apply NoDup_app. repeat split; [assumption| |apply NoDup_singleton].
           intros x Hx Hn%list_elem_of_singleton. now subst x.
        -- intros t [Ht|Ht%list_elem_of_singleton]%elem_of_app;
             [now apply Hpal|].
           subst t. now apply closest_color_palette in Hname.
        -- split; [assumption|]. split; [assumption|].
           rewrite length_app in H3. simpl in *. lia.
      * destruct (IH _ _ Hrun Hnd Hpal) as (H1 & H2 & H3).
        split; [assumption|]. split; [assumption|]. simpl. lia.
    + intros Hrun Hnd Hpal. destruct (IH _ _ Hrun Hnd Hpal) as (H1 & H2 & H3).
      split; [assumption|]. split; [assumption|]. simpl. lia.
Qed.

Section Accurate.
Hypothesis pow_accurate : accurate pow.

Lemma pow_key (s : Z) (x : float) :
  (0 <= s <= 195075)%Z ->
  Py.float_of_long s = Some x ->
  exists lo mid hi k,
    bracket s = Some (lo, mid, hi)
    /\ order_key (pow x 0.5%float) = Some k
    /\ (lo <= k)%Z /\ (k <= hi)%Z /\ (hi < 1180591620717411303424)%Z.
Proof.
  intros Hs Hx.
  destruct (root_keys s Hs) as (lo & mid & hi & Hb & H1 & H2 & H3).
  exists lo, mid, hi.
  pose proof Hb as Hkeys. unfold bracket in Hkeys. rewrite Hx in Hkeys.
  cbv zeta in Hkeys.
  destruct (order_key (PrimFloat.next_down (PrimFloat.sqrt x))) as [a|] eqn:Ha;
    [|discriminate].
  destruct (order_key (PrimFloat.sqrt x)) as [b|] eqn:Hb'; [|discriminate].
  destruct (order_key (PrimFloat.next_up (PrimFloat.sqrt x))) as [c|] eqn:Hc;
    [|discriminate].
  injection Hkeys as -> -> ->.
  destruct pow_accurate as [Hnear _].
  destruct (Hnear s x Hs Hx) as [->|[->| ->]].
  - exists mid. repeat split; [assumption..|lia|lia|lia].
  - exists lo. repeat split; [assumption..|lia|lia|lia].
  - exists hi. repeat split; [assumption..|lia|lia|lia].
Qed.

Lemma float_of_long_small (s : Z) :
  (0 <= s <= 195075)%Z -> exists x, Py.float_of_long s = Some x.
Proof.
  intros Hs. destruct (root_keys s Hs) as (lo & mid & hi & Hb & _).
  unfold bracket in Hb. destruct (Py.float_of_long s) as [x|]; [|discriminate].
  now exists x.
Qed.

Lemma pow_ltb (s1 s2 : Z) (x1 x2 : float) :
  (0 <= s1 <= 195075)%Z -> (0 <= s2 <= 195075)%Z ->
  Py.float_of_long s1 = Some x1 -> Py.float_of_long s2 = Some x2 ->
  PrimFloat.ltb (pow x1 0.5%float) (pow x2 0.5%float) = (s1 <? s2)%Z.
Proof.
  intros Hs1 Hs2 Hx1 Hx2.
  destruct (pow_key s1 x1 Hs1 Hx1) as (lo1 & mid1 & hi1 & k1 & Hb1 & Hk1 & ? & ? & _).
  destruct (pow_key s2 x2 Hs2 Hx2) as (lo2 & mid2 & hi2 & k2 & Hb2 & Hk2 & ? & ? & _).
  rewrite (ltb_key _ _ k1 k2 Hk1 Hk2).
  destruct (Z.lt_trichotomy s1 s2) as [Hlt|[Heq|Hgt]].
  - pose proof (root_keys_lt s1 s2 _ _ _ _ _ _ ltac:(lia) Hlt ltac:(lia) Hb1 Hb2).
    transitivity true; [apply Z.ltb_lt; lia | symmetry; apply Z.ltb_lt; lia].
  - subst s2. assert (x1 = x2) by congruence. subst x2.
    assert (k1 = k2) by congruence. subst k2.
    rewrite !Z.ltb_irrefl. reflexivity.
  - pose proof (root_keys_lt s2 s1 _ _ _ _ _ _ ltac:(lia) Hgt ltac:(lia) Hb2 Hb1).
    transitivity false; [apply Z.ltb_ge; lia | symmetry; apply Z.ltb_ge; lia].
Qed.

Lemma pow_below_infinity (s : Z) (x : float) :
  (0 <= s <= 195075)%Z -> Py.float_of_long s = Some x ->
  PrimFloat.ltb (pow x 0.5%float) infinity = true.
Proof.
  intros Hs Hx.
  destruct (pow_key s x Hs Hx) as (lo & mid & hi & k & _ & Hk & _ & ? & ?).
  assert (Hinf : order_key infinity = Some 1180591620717411303424%Z)
    by (vm_compute; reflexivity).
  rewrite (ltb_key _ _ _ _ Hk Hinf). apply Z.ltb_lt. lia.
Qed.

Lemma pow_below_bound (s : Z) (x : float) :
  (0 <= s <= 195075)%Z -> Py.float_of_long s = Some x ->
  PrimFloat.ltb (pow x 0.5%float) 150%float = (s <? 22500)%Z.
Proof.
  intros Hs Hx. destruct pow_accurate as [_ <-].
  apply pow_ltb; [assumption | lia | assumption | reflexivity].
Qed.

Lemma closest_loop_spec (rgb : Z * Z * Z)
    (items : list ((Z * Z * Z) * string)) :
  channels rgb ->
  forall seen m c,
    (forall k n, (k, n) ∈ seen ++ items -> channels k) ->
    nearest_so_far pow rgb seen m c ->
    exists m' c',
      closest_loop pow rgb items m c = Ret (m', c')
      /\ nearest_so_far pow rgb (seen ++ items) m' c'.
Proof.
  intros Hrgb. induction items as [|[k0 n0] items IH]; intros seen m c Hch Hst.
  - exists m, c. rewrite app_nil_r. split; [reflexivity | assumption].
  - cbn [closest_loop]. unfold distance.
    assert (Hb : (0 <= distance2 rgb k0 <= 195075)%Z).
    { apply distance2_bound; [assumption|]. apply (Hch k0 n0).
      apply elem_of_app. right. left. }
    destruct (float_of_long_small (distance2 rgb k0) Hb) as [x0 Hx0].
    rewrite Hx0.
    replace (seen ++ (k0, n0) :: items)
      with ((seen ++ [(k0, n0)]) ++ items) in * by now rewrite <- app_assoc.
    destruct c as [name|]; cbn [nearest_so_far] in Hst.
    + destruct Hst as (known & x & Hin & Hx & -> & Hmin).
      assert (Hbk : (0 <= distance2 rgb known <= 195075)%Z).
      { apply distance2_bound; [assumption|]. apply (Hch known name).
        apply elem_of_app. left. apply elem_of_app. now left. }
      rewrite (pow_ltb _ _ _ _ Hb Hbk Hx0 Hx).
      destruct (Z.ltb_spec (distance2 rgb k0) (distance2 rgb known)) as [Hlt|Hge].
      * apply IH; [assumption|]. cbn [nearest_so_far]. exists k0, x0.
        split; [apply elem_of_app; right; left|].
        split; [assumption|]. split; [reflexivity|].
        intros k n [Hk|Hk%list_elem_of_singleton]%elem_of_app.
        -- specialize (Hmin k n Hk). lia.
        -- injection Hk as -> ->. lia.
      * apply IH; [assumption|]. cbn [nearest_so_far]. exists known, x.
        split; [apply elem_of_app; now left|].
        split; [assumption|]. split; [reflexivity|].
        intros k n [Hk|Hk%list_elem_of_singleton]%elem_of_app.
        -- now apply (Hmin k n).
        -- injection Hk as -> ->. lia.
    + destruct Hst as [-> ->].
      rewrite (pow_below_infinity _ _ Hb Hx0).
      apply IH; [assumption|]. cbn [nearest_so_far]. exists k0, x0.
      split; [left|]. split; [assumption|]. split; [reflexivity|].
      intros k n Hk%list_elem_of_singleton. injection Hk as -> ->. lia.
Qed.

End Accurate.

(** X18: for colour channels from 0 to 255 and a [pow] that is accurate at
    the exponent [0.5], [_get_closest_color_name] does not raise; it returns
    the name of a palette colour nearest to the given one, and only if that
    colour is nearer than 150 (the sum of squares is below 22500); it returns
    nothing exactly when every palette colour is at 150 or beyond; a palette
    colour gets its own name. *)
Theorem get_closest_color_name_spec (rgb : Z * Z * Z) :
  accurate pow -> channels rgb ->
  exists color_name,
    _get_closest_color_name pow rgb = Ret color_name
    /\ (forall name,
          color_name = Some name ->
          exists known,
            ((known, name) ∈ COLOR_NAMES)
            /\ (distance2 rgb known < 22500)%Z
            /\ forall k n, (k, n) ∈ COLOR_NAMES ->
                 (distance2 rgb known <= distance2 rgb k)%Z)
    /\ (color_name = None <->
        forall k n, (k, n) ∈ COLOR_NAMES -> (22500 <= distance2 rgb k)%Z)
    /\ (forall name, (rgb, name) ∈ COLOR_NAMES -> color_name = Some name).
Proof.
  intros Hacc Hrgb. unfold _get_closest_color_name.
  destruct (closest_loop_spec Hacc rgb COLOR_NAMES Hrgb [] infinity None)
    as (m & c & -> & Hbest).
  { intros k n. rewrite app_nil_l. apply palette_channels. }
  { split; reflexivity. }
  rewrite app_nil_l in Hbest.
  destruct c as [name|]; cbn [nearest_so_far] in Hbest;
    [|destruct Hbest as [Hnil _]; discriminate Hnil].
  destruct Hbest as (known & x & Hin & Hx & -> & Hmin).
  assert (Hb : (0 <= distance2 rgb known <= 195075)%Z).
  { apply distance2_bound; [assumption|]. now apply (palette_channels known name). }
  rewrite (pow_below_bound Hacc _ _ Hb Hx).
  destruct (Z.ltb_spec (distance2 rgb known) 22500) as [Hlt|Hge].
  - exists (Some name). split; [reflexivity|]. split; [|split].
    + intros name' [= <-]. exists known.
      split; [assumption|]. split; assumption.
    + split; [discriminate|]. intros Hall.
      specialize (Hall known name Hin). lia.
    + intros name' Hin'. f_equal.
      assert (Hzero : distance2 rgb rgb = 0%Z).
      { destruct rgb as [[r g] b]. unfold distance2. rewrite !Z.sub_diag.
        reflexivity. }
      pose proof (Hmin rgb name' Hin') as Hle. rewrite Hzero in Hle.
      apply distance2_zero in Hle. subst known.
      now apply (palette_functional rgb).
  - exists None. split; [reflexivity|]. split; [|split].
    + discriminate.
    + split; [|reflexivity]. intros _ k n Hk.
      specialize (Hmin k n Hk). lia.
    + intros name' Hin'. exfalso.
      assert (Hzero : distance2 rgb rgb = 0%Z).
      { destruct rgb as [[r g] b]. unfold distance2. rewrite !Z.sub_diag.
        reflexivity. }
      pose proof (Hmin rgb name' Hin') as Hle. lia.
Qed.

(** X19: [_analyze_colors] never raises and opens no file; it returns at
    most three colour names, all different and all from the palette, and
    nothing when the remote call fails. *)
Theorem analyze_colors_spec (self : t) (image : string) (log : list string) :
  exists tags,
    _analyze_colors pow self image log = (Ret tags, log)
    /\ NoDup tags
    /\ length tags <= 3
    /\ (forall t, t ∈ tags -> t ∈ map snd COLOR_NAMES)
    /\ (forall c e, client self = Some c ->
          image_properties c image = Raise e -> tags = []).
Proof.
  assert (Hempty : forall r,
            r = (Ret [], log) ->
            exists tags : list string,
              r = (Ret tags, log) /\ NoDup tags /\ length tags <= 3
              /\ (forall t, t ∈ tags -> t ∈ map snd COLOR_NAMES)
              /\ (forall c e, client self = Some c ->
                    image_properties c image = Raise e -> tags = [])).
  { intros r ->. exists []. split; [reflexivity|]. split; [constructor|].
    split; [simpl; lia|]. split; [|reflexivity].
    intros t Ht. now apply elem_of_nil in Ht. }
  unfold _analyze_colors, call, try_except, mbind, M_bind, Exc.bind, lift.
  destruct (client self) as [c|]; [|now apply Hempty].
  destruct (image_properties c image) as [colors|e] eqn:Hresp;
    [|now apply Hempty].
  destruct (colors_loop pow (take 3 colors) []) as [tags|e] eqn:Hloop;
    [|now apply Hempty].
  destruct (colors_loop_spec (take 3 colors) [] tags Hloop) as (H1 & H2 & H3).
  { constructor. }
  { intros t Ht. now apply elem_of_nil in Ht. }
  exists tags. split; [reflexivity|]. split; [assumption|]. split.
  - rewrite length_take in H3. change (length (@nil string)) with 0 in H3. lia.
  - split; [assumption|]. intros c' e [= <-] He. congruence.
Qed.

End Colours.

(** The property at a reddish colour and a correctly rounded [pow]. *)
Lemma get_closest_color_name_spec_witness :
  exists color_name,
    _get_closest_color_name sqrt_pow (250, 10, 10)%Z = Ret color_name
    /\ (forall name,
          color_name = Some name ->
          exists known,
            ((known, name) ∈ COLOR_NAMES)
            /\ (distance2 (250, 10, 10)%Z known < 22500)%Z
            /\ forall k n, (k, n) ∈ COLOR_NAMES ->
                 (distance2 (250, 10, 10)%Z known
                  <= distance2 (250, 10, 10)%Z k)%Z)
    /\ (color_name = None <->
        forall k n, (k, n) ∈ COLOR_NAMES ->
          (22500 <= distance2 (250, 10, 10)%Z k)%Z)
    /\ (forall name,
          ((250, 10, 10)%Z, name) ∈ COLOR_NAMES -> color_name = Some name).
Proof.
  apply (get_closest_color_name_spec sqrt_pow (250, 10, 10)%Z).
  - split; [intros s x _ _; left; reflexivity | reflexivity].
  - unfold channels. lia.
Defined.

Example get_closest_color_name_red :
  _get_closest_color_name sqrt_pow (250, 10, 10)%Z = Ret (Some "red").
Proof. vm_compute. reflexivity. Qed.

Example get_closest_color_name_overflow :
  _get_closest_color_name sqrt_pow (10 ^ 200, 0, 0)%Z
  = Raise (Exception "OverflowError").
Proof. vm_compute. reflexivity. Qed.

Lemma filter_map_sublist {A B} (f : A -> B) (p : A -> bool) (l : list A) :
  map f (List.filter p l) `sublist_of` map f l.
Proof.
  induction l as [|x l IH]; simpl; [constructor|].
  destruct (p x); simpl; [now apply sublist_skip | now apply sublist_cons].
Qed.

Section Augmenter.
Variable lower : string -> string.
Variable MIN_TAG_CONFIDENCE : float.
Variable pow : float -> float -> float.
Variable w : World.

Local Abbreviation label_tag := (TermsMore.label_tag lower).

Lemma labels_loop_acc (labels : list LabelAnnotation) (acc : list string) :
  labels_loop lower MIN_TAG_CONFIDENCE labels acc
  = acc ++ labels_loop lower MIN_TAG_CONFIDENCE labels [].
Proof.
  revert acc. induction labels as [|label labels IH]; intros acc; simpl.
  - now rewrite app_nil_r.
  - destruct (PrimFloat.leb _ _); [|apply IH].
    destruct (_get_label_category _) as [c|].
    + rewrite (IH ((acc ++ _) ++ _)), (IH [_; _]).
      now rewrite <- !app_assoc.
    + rewrite (IH (acc ++ _)), (IH [_]). now rewrite <- !app_assoc.
Qed.

Lemma labels_loop_spec (labels : list LabelAnnotation) :
  let tags := labels_loop lower MIN_TAG_CONFIDENCE labels [] in
  let sure := List.filter (confident MIN_TAG_CONFIDENCE) labels in
  length sure <= length tags
  /\ length tags <= 2 * length sure
  /\ (forall label, In label sure -> label_tag label ∈ tags)
  /\ (forall t, t ∈ tags ->
        exists label,
          In label sure
          /\ (t = label_tag label
              \/ _get_label_category (lower (description label)) = Some t)).
Proof.
  induction labels as [|label labels IH]; simpl.
  - split; [lia|]. split; [lia|]. split; [intros label []|].
    intros t Ht. now apply elem_of_nil in Ht.
  - destruct IH as (IH1 & IH2 & IH3 & IH4).
    unfold confident in *.
    destruct (PrimFloat.leb MIN_TAG_CONFIDENCE (score label)) eqn:Hsure.
    + change (Py.replace_char " " "-" (lower (description label)))
        with (TermsMore.label_tag lower label).
      destruct (_get_label_category (lower (description label))) as [c|] eqn:Hc;
        rewrite labels_loop_acc; simpl; (split; [lia|]); (split; [lia|]); split.
      * intros l [<-|Hl]; [left | do 2 right; now apply IH3].
      * intros t [->|[->|Ht]%elem_of_cons]%elem_of_cons.
        -- exists label. split; [now left | now left].
        -- exists label. split; [now left | now right].
        -- destruct (IH4 t Ht) as (l & Hl & Hor).
           exists l. split; [now right | exact Hor].
      * intros l [<-|Hl]; [left | right; now apply IH3].
      * intros t [->|Ht]%elem_of_cons.
        -- exists label. split; [now left | now left].
        -- destruct (IH4 t Ht) as (l & Hl & Hor).
           exists l. split; [now right | exact Hor].
    + split; [assumption|]. split; [assumption|]. split; assumption.
Qed.

(** X20: [_analyze_labels] never raises and opens no file.  Every label at
    or above the confidence threshold gives its tag, and possibly its
    category, and the labels below the threshold give nothing: there are at
    least as many tags as confident labels and at most twice as many.  A
    failing remote call gives no tag. *)
Theorem analyze_labels_spec (self : t) (image : string) (log : list string) :
  exists tags,
    _analyze_labels lower MIN_TAG_CONFIDENCE self image log = (Ret tags, log)
    /\ (forall c e, client self = Some c ->
          label_detection c image = Raise e -> tags = [])
    /\ (forall c labels,
          client self = Some c -> label_detection c image = Ret labels ->
          let sure := List.filter (confident MIN_TAG_CONFIDENCE) labels in
          length sure <= length tags
          /\ length tags <= 2 * length sure
          /\ (forall label, In label sure -> label_tag label ∈ tags)
          /\ (forall t, t ∈ tags ->
                exists label,
                  In label sure
                  /\ (t = label_tag label
                      \/ _get_label_category (lower (description label))
                         = Some t))).
Proof.
  unfold _analyze_labels, call, try_except, mbind, M_bind, Exc.bind, lift.
  destruct (client self) as [c|].
  - destruct (label_detection c image) as [labels|e] eqn:Hresp.
    + exists (labels_loop lower MIN_TAG_CONFIDENCE labels []).
      split; [reflexivity|]. split.
      * intros c' e [= <-] He. congruence.
      * intros c' labels' [= <-] H. rewrite Hresp in H. injection H as <-.
        apply labels_loop_spec.
    + exists []. split; [reflexivity|]. split; [reflexivity|].
      intros c' labels' [= <-] H. congruence.
  - exists []. split; [reflexivity|]. split; [reflexivity|].
    intros c' labels' H. discriminate.
Qed.

Lemma doc_keyword_tags (text kw : string) :
  kw ∈ map snd
         (List.filter (fun '(keyword, _) => Py.contains keyword text)
            doc_keywords)
  <-> (kw ∈ ["invoice"; "receipt"; "contract"; "certificate"; "diploma"])
      /\ Py.contains kw text = true.
Proof.
  rewrite list_elem_of_In, in_map_iff. split.
  - intros ([k t] & <- & Hin). apply filter_In in Hin as [Hin Hc].
    unfold doc_keywords in Hin. simpl in Hin.
    repeat (destruct Hin as [[= <- <-]|Hin];
            [split; [repeat (first [apply list_elem_of_here | apply list_elem_of_further]) | exact Hc]|]).
    destruct Hin.
  - intros [Hin Hc]. exists (kw, kw). split; [reflexivity|].
    apply filter_In. split; [|exact Hc].
    repeat (apply elem_of_cons in Hin as [->|Hin];
            [unfold doc_keywords; simpl; tauto|]).
    now apply elem_of_nil in Hin.
Qed.

(** X21: [_analyze_text] never raises and opens no file.  Without a text
    annotation, and when the remote call fails, it returns nothing;
    otherwise it returns [text-content] followed, in the order of the
    table, by those of the five document keywords that occur in the
    lower-cased first annotation, and only in that one. *)
Theorem analyze_text_annotations_spec (self : t) (image : string)
    (log : list string) :
  exists tags,
    _analyze_text lower self image log = (Ret tags, log)
    /\ (forall c e, client self = Some c ->
          text_detection c image = Raise e -> tags = [])
    /\ (forall c, client self = Some c ->
          text_detection c image = Ret [] -> tags = [])
    /\ (forall c first others,
          client self = Some c ->
          text_detection c image = Ret (first :: others) ->
          exists found,
            tags = "text-content" :: found
            /\ found `sublist_of`
                 ["invoice"; "receipt"; "contract"; "certificate"; "diploma"]
            /\ forall kw,
                 kw ∈ found <->
                 (kw ∈ ["invoice"; "receipt"; "contract"; "certificate";
                         "diploma"])
                 /\ Py.contains kw (lower first) = true).
Proof.
  unfold _analyze_text, call, try_except, mbind, M_bind, Exc.bind, lift.
  destruct (client self) as [c|].
  - destruct (text_detection c image) as [[|first others]|e] eqn:Hresp.
    + exists []. split; [reflexivity|]. split; [reflexivity|].
      split; [reflexivity|]. intros c' f o [= <-] H. congruence.
    + eexists. split; [reflexivity|]. split; [|split].
      * intros c' e [= <-] H. congruence.
      * intros c' [= <-] H. congruence.
      * intros c' f o [= <-] H. rewrite Hresp in H. injection H as <- <-.
        eexists. split; [reflexivity|]. split.
        -- change ["invoice"; "receipt"; "contract"; "certificate"; "diploma"]
             with (map snd doc_keywords).
           apply filter_map_sublist.
        -- apply doc_keyword_tags.
    + exists []. split; [reflexivity|]. split; [reflexivity|].
      split; [intros c' [= <-] H; congruence|].
      intros c' f o [= <-] H. congruence.
  - exists []. split; [reflexivity|]. split; [reflexivity|].
    split; [reflexivity|]. intros c' f o H. discriminate.
Qed.

Lemma analyze_labels_value (self : t) (image : string) (log : list string) :
  _analyze_labels lower MIN_TAG_CONFIDENCE self image log
  = (Ret (tags_of (run (_analyze_labels lower MIN_TAG_CONFIDENCE self image))),
     log).
Proof.
  unfold tags_of, run, _analyze_labels, call, try_except, mbind, M_bind,
    Exc.bind, lift.
  destruct (client self) as [c|]; [|reflexivity].
  destruct (label_detection c image); reflexivity.
Qed.

Lemma analyze_colors_value (self : t) (image : string) (log : list string) :
  _analyze_colors pow self image log
  = (Ret (tags_of (run (_analyze_colors pow self image))), log).
Proof.
  unfold tags_of, run, _analyze_colors, call, try_except, mbind, M_bind,
    Exc.bind, lift.
  destruct (client self) as [c|]; [|reflexivity].
  destruct (image_properties c image) as [colors|]; [|reflexivity].
  destruct (colors_loop pow (take 3 colors) []); reflexivity.
Qed.

Lemma analyze_text_value (self : t) (image : string) (log : list string) :
  _analyze_text lower self image log
  = (Ret (tags_of (run (_analyze_text lower self image))), log).
Proof.
  unfold tags_of, run, _analyze_text, call, try_except, mbind, M_bind,
    Exc.bind, lift.
  destruct (client self) as [c|]; [|reflexivity].
  destruct (text_detection c image) as [[|first others]|]; reflexivity.
Qed.

Lemma analyze_safe_search_tags_of (self : t) (image : string)
    (log : list string) :
  _analyze_safe_search self image log
  = (Ret (tags_of (run (_analyze_safe_search self image))), log).
Proof.
  unfold tags_of, run. now rewrite !VisionSpec.analyze_safe_search_value.
Qed.

Lemma analyze_image_available (self : t) (image_path content : string)
    (log : list string) :
  is_available self = true ->
  read_bytes w image_path = Ret content ->
  analyze_image lower MIN_TAG_CONFIDENCE pow w self image_path log
  = (Ret (tags_of (run (_analyze_labels lower MIN_TAG_CONFIDENCE self content))
          ++ tags_of (run (_analyze_colors pow self content))
          ++ tags_of (run (_analyze_text lower self content))
          ++ tags_of (run (_analyze_safe_search self content))),
     log ++ [image_path]).
Proof.
  intros Hav Hread. unfold analyze_image. rewrite Hav. cbn [negb].
  erewrite try_except_ret; [reflexivity|].
  erewrite bind_ret; [|unfold opening; now rewrite Hread].
  erewrite bind_ret; [|apply analyze_labels_value].
  erewrite bind_ret; [|apply analyze_colors_value].
  erewrite bind_ret; [|apply analyze_text_value].
  erewrite bind_ret; [|apply analyze_safe_search_tags_of].
  unfold mret, M_ret, Exc.ret. simpl. now rewrite <- !app_assoc.
Qed.

Lemma analyze_image_unreadable (self : t) (image_path : string) (e : exn)
    (log : list string) :
  is_available self = true ->
  read_bytes w image_path = Raise e ->
  analyze_image lower MIN_TAG_CONFIDENCE pow w self image_path log
  = (Ret [], log ++ [image_path]).
Proof.
  intros Hav Hread. unfold analyze_image. rewrite Hav. cbn [negb].
  erewrite try_except_raise; [reflexivity|].
  apply bind_raise. unfold opening. now rewrite Hread.
Qed.

(** X22: [VisionService.analyze_image].  An unavailable service returns
    nothing and opens no file.  An available one opens the image once; when
    the image cannot be read it returns nothing, and otherwise it returns
    what the four sub-analyses return, in the order labels, colours, text,
    safe content. *)
Theorem analyze_image_spec (self : t) (image_path : string)
    (log : list string) :
  (is_available self = false ->
   analyze_image lower MIN_TAG_CONFIDENCE pow w self image_path log
   = (Ret [], log))
  /\ (is_available self = true ->
      forall e, read_bytes w image_path = Raise e ->
      analyze_image lower MIN_TAG_CONFIDENCE pow w self image_path log
      = (Ret [], log ++ [image_path]))
  /\ (is_available self = true ->
      forall content, read_bytes w image_path = Ret content ->
      analyze_image lower MIN_TAG_CONFIDENCE pow w self image_path log
      = (Ret (tags_of (run (_analyze_labels lower MIN_TAG_CONFIDENCE self
                              content))
              ++ tags_of (run (_analyze_colors pow self content))
              ++ tags_of (run (_analyze_text lower self content))
              ++ tags_of (run (_analyze_safe_search self content))),
         log ++ [image_path])).
Proof.
  split; [|split].
  - apply VisionSpec.analyze_image_unavailable.
  - intros Hav e He. now apply (analyze_image_unreadable self image_path e).
  - intros Hav content Hread. now apply analyze_image_available.
Qed.

(** The value of [analyze_image] does not depend on the log. *)
Lemma analyze_image_value (self : t) (image_path : string)
    (log : list string) :
  is_available self = true ->
  analyze_image lower MIN_TAG_CONFIDENCE pow w self image_path log
  = (Ret (tags_of (run (analyze_image lower MIN_TAG_CONFIDENCE pow w self
                          image_path))),
     log ++ [image_path]).
Proof.
  intros Hav. unfold tags_of, run.
  destruct (read_bytes w image_path) as [content|e] eqn:Hread.
  - now rewrite !(analyze_image_available self image_path content).
  - now rewrite !(analyze_image_unreadable self image_path e).
Qed.

Lemma batch_loop_spec (self : t) (image_paths : list string)
    (results : list (string * list string)) (seen log : list string) :
  is_available self = true ->
  NoDup (map fst results) ->
  (forall p, p ∈ map fst results <-> p ∈ seen) ->
  (forall p tags, (p, tags) ∈ results ->
     tags = tags_of (run (analyze_image lower MIN_TAG_CONFIDENCE pow w self p))) ->
  exists results',
    Batch.batch_loop lower MIN_TAG_CONFIDENCE pow w self image_paths results log
    = (Ret results', log ++ image_paths)
    /\ NoDup (map fst results')
    /\ (forall p, p ∈ map fst results' <-> p ∈ seen ++ image_paths)
    /\ (forall p tags, (p, tags) ∈ results' ->
          tags = tags_of (run (analyze_image lower MIN_TAG_CONFIDENCE pow w self p))).
Proof.
  intros Hav. revert results seen log.
  induction image_paths as [|path rest IH]; intros results seen log Hnd Hkeys Hval.
  - exists results. simpl. rewrite !app_nil_r. repeat split; try assumption;
      apply Hkeys.
  - simpl. erewrite bind_ret; [|now apply analyze_image_value].
    set (value := tags_of (run (analyze_image lower MIN_TAG_CONFIDENCE pow w self path))).
    destruct (IH (PyMore.od_set results path value) (seen ++ [path])
                (log ++ [path])) as (results' & Hrun & Hnd' & Hkeys' & Hval').
    + now apply DictFacts.od_set_NoDup.
    + intros p. rewrite DictFacts.od_set_keys, elem_of_app, list_elem_of_singleton.
      destruct (bool_decide (path ∈ map fst results)) eqn:Hin.
      * apply bool_decide_eq_true in Hin. rewrite Hkeys. split; [tauto|].
        intros [H| ->]; [assumption | now apply Hkeys].
      * rewrite elem_of_app, list_elem_of_singleton, Hkeys. tauto.
    + intros p tags Hin.
      apply (DictFacts.od_get_elem _ _ _ (DictFacts.od_set_NoDup _ path value Hnd))
        in Hin.
      rewrite DictFacts.od_get_set in Hin.
      destruct (String.eqb_spec p path) as [->|Hne].
      * now injection Hin as <-.
      * apply (DictFacts.od_get_elem _ _ _ Hnd) in Hin. now apply Hval.
    + exists results'. rewrite <- !app_assoc in Hrun, Hkeys'.
      repeat split; try assumption; apply Hkeys'.
Qed.

(** X23: [batch_analyze_images] never raises.  With an unavailable service
    it returns the empty dictionary and opens no file.  Otherwise it opens
    every path of the list, in order, and returns a dictionary whose keys
    are exactly the paths of the list, each once and each with what
    [analyze_image] returns for it. *)
Theorem batch_analyze_images_spec (self : t) (image_paths : list string)
    (log : list string) :
  (is_available self = false ->
   Batch.batch_analyze_images lower MIN_TAG_CONFIDENCE pow w self image_paths log
   = (Ret [], log))
  /\ (is_available self = true ->
      exists results,
        Batch.batch_analyze_images lower MIN_TAG_CONFIDENCE pow w self image_paths
          log
        = (Ret results, log ++ image_paths)
        /\ NoDup (map fst results)
        /\ (forall p, p ∈ map fst results <-> p ∈ image_paths)
        /\ (forall p tags, (p, tags) ∈ results ->
              tags = tags_of (run (analyze_image lower MIN_TAG_CONFIDENCE pow w
                                     self p)))).
Proof.
  unfold Batch.batch_analyze_images. split; intros Hav; rewrite Hav.
  - reflexivity.
  - cbn [negb].
    apply (batch_loop_spec self image_paths [] [] log Hav).
    + constructor.
    + intros p. reflexivity.
    + intros p tags H. now apply elem_of_nil in H.
Qed.

End Augmenter.

Example batch_analyze_images_example :
  run (Batch.batch_analyze_images Py.ascii_lower 0.7%float sqrt_pow world_png
         (vision_answering VERY_UNLIKELY POSSIBLE) ["a.png"; "b.png"; "a.png"])
  = (Ret [ ("a.png", ["blue-sky"; "nature"; "red"; "text-content"; "invoice"]);
           ("b.png", ["blue-sky"; "nature"; "red"; "text-content"; "invoice"]) ],
     ["a.png"; "b.png"; "a.png"]).
Proof. vm_compute. reflexivity. Qed.

End VisionMore.
